(** * pipeline-tools: the continuous-delivery job manager

    A shallow embedding of the job manager's scheduler
    ([jobmanager]), of the deploy and E2E test state machines ([jobs]) and
    of the ECS deployment adapter ([aws]), with the properties of the
    design document stated over them. *)

From stdpp Require Import gmap strings list fin_maps.
From Stdlib Require Import ZArith Lia Ascii DecimalString.

Local Open Scope Z_scope.
#[local] Set Warnings "-clear-no-such-hyp".

(** ** Go values *)

(** An [interface{}] held in a [map[string]interface{}].  The constructor is
    the dynamic type: a type assertion [v.(T)] succeeds only on the
    constructor of [T].  In [VMap], [None] is the nil map. *)
#[warnings="-register-all"]
Inductive Value : Type :=
| VNil
| VBool (b : bool)
| VInt (z : Z)
| VStr (s : string)
| VEnvType (s : string)
| VMap (m : option (gmap string Value))
| VLayout (l : gmap string Value).

(** A Go [error]: nil, or an error with its message. *)
Definition error := option string.

(** A call that returns [(T, error)]. *)
Inductive result (A : Type) : Type :=
| Ok (a : A)
| Err (e : string).
Arguments Ok {A} a.
Arguments Err {A} e.

(** [v.(bool)] with the comma-ok form: the zero value when it fails. *)
Definition as_bool (v : option Value) : bool * bool :=
  match v with
  | Some (VBool b) => (b, true)
  | _ => (false, false)
  end.

(** [v.(string)]: [None] where the comma-ok form reports [false] and the
    plain form panics. *)
Definition as_string (v : option Value) : option string :=
  match v with
  | Some (VStr s) => Some s
  | _ => None
  end.

(** [v.(manager.Layout)] *)
Definition as_layout (v : option Value) : option (gmap string Value) :=
  match v with
  | Some (VLayout l) => Some l
  | _ => None
  end.

(** [m[k]] on a [map[K]string]: the zero value for an absent key. *)
Definition str_at (m : gmap string string) (k : string) : string :=
  default EmptyString (m !! k).

(** ** Time *)

(** A [time.Time] is the number of nanoseconds since the zero instant, a
    [time.Duration] a number of nanoseconds. *)
Definition Time := Z.
Definition Duration := Z.

Definition Second : Duration := 1000000000.
Definition Minute : Duration := 60 * Second.
Definition Hour : Duration := 60 * Minute.

Definition Time_Add (t : Time) (d : Duration) : Time := t + d.
Definition Time_After (t u : Time) : bool := u <? t.
Definition Time_IsZero (t : Time) : bool := t =? 0.

(** Seconds from the zero instant to the Unix epoch. *)
Definition unixToInternal : Z := 62135596800.
Definition Time_UnixMilli (t : Time) : Z :=
  (t - unixToInternal * Second) / 1000000.

(** A call that either returns or panics. *)
Inductive outcome (A : Type) : Type :=
| Returns (a : A)
| Panics (msg : string).
Arguments Returns {A} a.
Arguments Panics {A} msg.

(** ** Constants of package [manager] *)

Definition DefaultFailureTime : Duration := 30 * Minute.

Definition EnvType_Prod : string := "prod".

Definition DeployComponent_Ceramic : string := "ceramic".
Definition DeployComponent_Ipfs : string := "ipfs".
Definition DeployComponent_Cas : string := "cas".

Definition E2eTest_PrivatePublic : string := "private-public".
Definition E2eTest_LocalClientPublic : string := "local_client-public".
Definition E2eTest_LocalNodePrivate : string := "local_node-private".

Definition Error_Timeout : string := "timeout".

(** ** The ECS deployment adapter (cd/manager/aws/ecs.go) *)

Module Ecs.

(** The part of an ECS task record that [CheckTask] reads; [LastStatus]
    is a [*string]. *)
Record Task := { LastStatus : option string }.

Record DescribeTasksOutput := { Tasks : list Task }.

Definition DesiredStatusRunning : string := "RUNNING".
Definition DesiredStatusStopped : string := "STOPPED".

(** The loop of [CheckTask] over the described tasks. *)
Fixpoint checkTasks (checkStatus : string) (tasks : list Task)
  : outcome (bool * error) :=
  match tasks with
  | [] => Returns (true, None)
  | task :: rest =>
      match LastStatus task with
      | None => Panics "nil pointer dereference"
      | Some st =>
          if String.eqb st checkStatus then checkTasks checkStatus rest
          else Returns (false, None)
      end
  end.

Section CheckTask.
(** [e.ecsClient.DescribeTasks], by cluster and task ARNs. *)
Variable DescribeTasks : string -> list string -> result DescribeTasksOutput.

Definition CheckTask (running : bool) (cluster : string)
    (taskArn : list string) : outcome (bool * error) :=
  match DescribeTasks cluster taskArn with
  | Err err => Returns (false, Some err)
  | Ok descOutput =>
      let checkStatus :=
        if running then DesiredStatusRunning else DesiredStatusStopped in
      if 0 <? Z.of_nat (length (Tasks descOutput)) then
        checkTasks checkStatus (Tasks descOutput)
      else Returns (false, None)
  end.
End CheckTask.

Definition ServiceSuffix_CeramicNode : string := "node".
Definition ServiceSuffix_CeramicGateway : string := "gateway".
Definition ServiceSuffix_Elp11CeramicNode : string := "elp-1-1-node".
Definition ServiceSuffix_Elp12CeramicNode : string := "elp-1-2-node".
Definition ServiceSuffix_IpfsNode : string := "ipfs-nd".
Definition ServiceSuffix_IpfsGateway : string := "ipfs-gw".
Definition ServiceSuffix_Elp11IpfsNode : string := "elp-1-1-ipfs-nd".
Definition ServiceSuffix_Elp12IpfsNode : string := "elp-1-2-ipfs-nd".
Definition ServiceSuffix_CasApi : string := "api".
Definition ServiceSuffix_CasAnchor : string := "anchor".

Definition globalPrefix : string := "ceramic".
Definition privateCluster (env : string) : string :=
  (globalPrefix +:+ "-") +:+ env.
Definition publicCluster (env : string) : string :=
  ((globalPrefix +:+ "-") +:+ env) +:+ "-ex".
Definition casCluster (env : string) : string :=
  ((globalPrefix +:+ "-") +:+ env) +:+ "-cas".

(** [cluster + "-" + suffix] *)
Definition svc (cluster suffix : string) : string :=
  (cluster +:+ "-") +:+ suffix.

(** The prod-only additions to a public layout. *)
Definition withElp (e_env : string) (elp1 elp2 : string)
    (publicLayout : gmap string Value) : gmap string Value :=
  if String.eqb e_env EnvType_Prod then
    <[svc globalPrefix elp2 := VNil]>
      (<[svc globalPrefix elp1 := VNil]> publicLayout)
  else publicLayout.

(** [PopulateLayout]: [e_env] is the adapter's [env] field, [env] the
    value of [os.Getenv("ENV")] at the call.  The three layouts start as
    nil maps and the returned map carries them under the three cluster
    names. *)
Definition PopulateLayout (e_env env : string) (component : string)
  : result (gmap string Value) :=
  let ret (privateLayout publicLayout casLayout : option (gmap string Value)) :=
    Ok (<[casCluster env := VMap casLayout]>
          (<[publicCluster env := VMap publicLayout]>
             (<[privateCluster env := VMap privateLayout]> ∅))) in
  if String.eqb component DeployComponent_Ceramic then
    ret (Some (<[svc (privateCluster env) ServiceSuffix_CeramicNode := VNil]> ∅))
        (Some (withElp e_env ServiceSuffix_Elp11CeramicNode
                 ServiceSuffix_Elp12CeramicNode
                 (<[svc (publicCluster env) ServiceSuffix_CeramicGateway := VNil]>
                    (<[svc (publicCluster env) ServiceSuffix_CeramicNode := VNil]> ∅))))
        (Some (<[svc (casCluster env) ServiceSuffix_CeramicNode := VNil]> ∅))
  else if String.eqb component DeployComponent_Ipfs then
    ret (Some (<[svc (privateCluster env) ServiceSuffix_IpfsNode := VNil]> ∅))
        (Some (withElp e_env ServiceSuffix_Elp11IpfsNode
                 ServiceSuffix_Elp12IpfsNode
                 (<[svc (publicCluster env) ServiceSuffix_IpfsGateway := VNil]>
                    (<[svc (publicCluster env) ServiceSuffix_IpfsNode := VNil]> ∅))))
        (Some (<[svc (casCluster env) ServiceSuffix_IpfsNode := VNil]> ∅))
  else if String.eqb component DeployComponent_Cas then
    ret None None
        (Some (<[svc (casCluster env) ServiceSuffix_CasAnchor := VNil]>
                 (<[svc (casCluster env) ServiceSuffix_CasApi := VNil]> ∅)))
  else Err ("deployJob: unexpected component: " +:+ component).

(** The layout that the design document gives for the Cas component: no
    cluster but the CAS one is a key of it. *)
Definition cas_cluster_only (env : string) (layout : gmap string Value) : Prop :=
  ∀ cluster, is_Some (layout !! cluster) → cluster = casCluster env.

(** [GetRegistryUri]: [Getenv] is [os.Getenv] at the call. *)
Definition GetRegistryUri (Getenv : string -> string) (component : string)
  : result string :=
  let env := Getenv "ENV" in
  let uri (repo : string) : result string :=
    Ok ((((Getenv "AWS_ACCOUNT_ID" +:+ ".dkr.ecr.") +:+ Getenv "AWS_REGION")
         +:+ ".amazonaws.com/") +:+ repo) in
  if String.eqb component DeployComponent_Ceramic then
    uri ("ceramic-" +:+ env)
  else if String.eqb component DeployComponent_Ipfs then
    uri ("go-ipfs-" +:+ env)
  else if String.eqb component DeployComponent_Cas then
    uri (("ceramic-" +:+ env) +:+ "-cas")
  else Err ("getImagePath: invalid component: " +:+ component).

(** The parts of the description of a service that [CheckService] reads;
    [TaskDefinition] is a [*string], [RunningCount] an [int32]. *)
Record Deployment := { TaskDefinition : option string; RunningCount : Z }.

Record Service := { Deployments : list Deployment }.

(** [types.Failure], with its three [*string], and [ecsFailure]. *)
Record Failure := {
  Arn : option string;
  Detail : option string;
  Reason : option string
}.

Record ecsFailure := { arn : string; detail : string; reason : string }.

Record DescribeServicesOutput := {
  Failures : list Failure;
  Services : list Service
}.

(** [parseEcsFailures]: the fields that are nil stay empty strings. *)
Definition parseEcsFailures (ecsFailures : list Failure) : list ecsFailure :=
  (fun f => {| arn := default EmptyString (Arn f);
               detail := default EmptyString (Detail f);
               reason := default EmptyString (Reason f) |}) <$> ecsFailures.

(** The loop of [CheckService] over the deployments of the service: the
    task definition is dereferenced before the running count is read. *)
Fixpoint checkDeployments (taskDefArn : string) (deployments : list Deployment)
  : outcome (bool * error) :=
  match deployments with
  | [] => Returns (false, None)
  | deployment :: rest =>
      match TaskDefinition deployment with
      | None => Panics "nil pointer dereference"
      | Some taskDef =>
          if String.eqb taskDef taskDefArn && (0 <? RunningCount deployment)
          then Returns (true, None)
          else checkDeployments taskDefArn rest
      end
  end.

Section CheckService.
(** [e.ecsClient.DescribeServices], by cluster and services. *)
Variable DescribeServices :
  string -> list string -> result DescribeServicesOutput.
(** [fmt.Sprintf("%v", ecsFailures)] *)
Variable Sprint_v : list ecsFailure -> string.

Definition CheckService (cluster service taskDefArn : string)
  : outcome (bool * error) :=
  match DescribeServices cluster [service] with
  | Err err => Returns (false, Some err)
  | Ok descOutput =>
      if 0 <? Z.of_nat (length (Failures descOutput)) then
        Returns (false, Some (Sprint_v (parseEcsFailures (Failures descOutput))))
      else
        match Services descOutput with
        | [] => Panics "index out of range [0] with length 0"
        | service0 :: _ => checkDeployments taskDefArn (Deployments service0)
        end
  end.
End CheckService.

(** A deployment of the task definition with a task running. *)
Definition serves (taskDefArn : string) (deployment : Deployment) : Prop :=
  TaskDefinition deployment = Some taskDefArn ∧ 0 < RunningCount deployment.

End Ecs.


(** ** Jobs (package [job]) *)

Inductive JobType : Type :=
| JobType_Deploy
| JobType_Anchor
| JobType_TestE2E
| JobType_TestSmoke
| JobType_Workflow
| JobType_Other.

Inductive JobStage : Type :=
| JobStage_Queued
| JobStage_Dequeued
| JobStage_Started
| JobStage_Waiting
| JobStage_Skipped
| JobStage_Canceled
| JobStage_Completed
| JobStage_Failed.

#[global] Instance JobType_eq_dec : EqDecision JobType.
Proof. solve_decision. Defined.

#[global] Instance JobStage_eq_dec : EqDecision JobStage.
Proof. solve_decision. Defined.

Definition JobType_code (t : JobType) : nat :=
  match t with
  | JobType_Deploy => 0 | JobType_Anchor => 1 | JobType_TestE2E => 2
  | JobType_TestSmoke => 3 | JobType_Workflow => 4 | JobType_Other => 5
  end%nat.

Definition JobType_of_code (n : nat) : JobType :=
  match n with
  | 0 => JobType_Deploy | 1 => JobType_Anchor | 2 => JobType_TestE2E
  | 3 => JobType_TestSmoke | 4 => JobType_Workflow | _ => JobType_Other
  end%nat.

#[global] Instance JobType_countable : Countable JobType.
Proof.
  apply (inj_countable' JobType_code JobType_of_code). by intros [].
Defined.

Record JobState : Type := mkJobState {
  Stage : JobStage;
  Ts : Time;
  JobId : string;
  Typ : JobType;
  Params : gmap string Value
}.

Definition set_Stage (js : JobState) (stage : JobStage) : JobState :=
  mkJobState stage (Ts js) (JobId js) (Typ js) (Params js).
Definition set_Ts (js : JobState) (ts : Time) : JobState :=
  mkJobState (Stage js) ts (JobId js) (Typ js) (Params js).
Definition set_JobId (js : JobState) (id : string) : JobState :=
  mkJobState (Stage js) (Ts js) id (Typ js) (Params js).
(** [js.Params[k] = v] *)
Definition set_Param (js : JobState) (k : string) (v : Value) : JobState :=
  mkJobState (Stage js) (Ts js) (JobId js) (Typ js) (<[k := v]> (Params js)).

(** Modelled from the spec: the parameter keys and fixed parameter values
    of the packages [job] and [manager], whose declarations are not among
    the sources; each key is the name the design document uses for it. *)
Definition JobParam_Component : string := "component".
Definition JobParam_Sha : string := "sha".
Definition JobParam_ShaTag : string := "shaTag".
Definition JobParam_Error : string := "error".
Definition JobParam_Layout : string := "layout".
Definition JobParam_Manual : string := "manual".
Definition JobParam_Force : string := "force".
Definition JobParam_Rollback : string := "rollback".
Definition JobParam_Start : string := "start".
Definition JobParam_Source : string := "source".
Definition WorkflowJobParam_Name : string := "name".
Definition WorkflowJobParam_Org : string := "org".
Definition WorkflowJobParam_Repo : string := "repo".
Definition WorkflowJobParam_Ref : string := "ref".
Definition WorkflowJobParam_Workflow : string := "workflow".
Definition WorkflowJobParam_Inputs : string := "inputs".
Definition WorkflowJobParam_Environment : string := "environment".
Definition WorkflowJobParam_TestSelector : string := "test_selector".
Definition DeployJobTarget_Rollback : string := "rollback".
Definition ServiceName : string := "cd-manager".

(** ** The E2E test job (package [jobs]) *)

Module E2e.

(** Allow up to 2 hours for E2E tests to run *)
Definition FailureTime : Duration := 2 * Hour.

Section E2eTestJob.
(** [os.Getenv] *)
Variable Getenv : string -> string.
(** [e.d.LaunchService(cluster, service, family, container, overrides)] *)
Variable LaunchService :
  string -> string -> string -> string -> gmap string string -> result string.
(** [e.d.CheckTask(running, cluster, taskArn...)] *)
Variable CheckTask : bool -> string -> list string -> result bool.
(** [e.db.UpdateJob] *)
Variable UpdateJob : JobState -> error.
(** [manager.PrintJob] *)
Variable PrintJob : JobState -> string.
(** The two readings of [time.Now()] in [AdvanceJob]: at the timeout
    check, and at the update of [Ts]. *)
Variables now now' : Time.

(** The job is passed by value: every function returns the job state
    as it leaves it, the [Params] map being shared with the caller. *)
Definition startE2eTest (state : JobState) (config : string)
  : JobState * error :=
  match LaunchService "ceramic-qa-tests" "ceramic-qa-tests-e2e_tests"
          "ceramic-qa-tests-e2e_tests" "e2e_tests"
          (<["AWS_REGION" := Getenv "AWS_REGION"]>
             (<["AWS_SECRET_ACCESS_KEY" := Getenv "AWS_SECRET_ACCESS_KEY"]>
                (<["AWS_ACCESS_KEY_ID" := Getenv "AWS_ACCESS_KEY_ID"]>
                   (<["ETH_RPC_URL" := Getenv "ETH_RPC_URL"]>
                      (<["NODE_ENV" := config]> ∅))))) with
  | Err err => (state, Some err)
  | Ok id => (set_Param state config (VStr id), None)
  end.

Definition startE2eTests (state : JobState) : JobState * error :=
  match startE2eTest state E2eTest_PrivatePublic with
  | (state, Some err) => (state, Some err)
  | (state, None) =>
      match startE2eTest state E2eTest_LocalClientPublic with
      | (state, Some err) => (state, Some err)
      | (state, None) => startE2eTest state E2eTest_LocalNodePrivate
      end
  end.

(** One probe of [checkE2eTests]: the task id is read with a plain
    type assertion, which panics on a missing id. *)
Definition checkE2eTest (state : JobState) (isRunning : bool)
    (config : string) : outcome (result bool) :=
  match as_string (Params state !! config) with
  | None => Panics "interface conversion: interface {} is not string"
  | Some id => Returns (CheckTask isRunning "ceramic-qa-tests" [id])
  end.

Definition checkE2eTests (state : JobState) (isRunning : bool)
  : outcome (result bool) :=
  match checkE2eTest state isRunning E2eTest_PrivatePublic with
  | Panics msg => Panics msg
  | Returns (Err err) => Returns (Err err)
  | Returns (Ok privatePublic) =>
      match checkE2eTest state isRunning E2eTest_LocalClientPublic with
      | Panics msg => Panics msg
      | Returns (Err err) => Returns (Err err)
      | Returns (Ok localClientPublic) =>
          match checkE2eTest state isRunning E2eTest_LocalNodePrivate with
          | Panics msg => Panics msg
          | Returns (Err err) => Returns (Err err)
          | Returns (Ok localNodePrivate) =>
              Returns (Ok (privatePublic && localClientPublic && localNodePrivate))
          end
      end
  end.

(** What one call of [AdvanceJob] leaves: the job state at its end,
    whether it reached [e.db.UpdateJob] (and so stored that state), and
    the error it returns. *)
Record advanced := mkAdvanced {
  adv_state : JobState;
  adv_stored : bool;
  adv_err : error
}.

(** The last two statements of [AdvanceJob]. *)
Definition update (state : JobState) : outcome advanced :=
  let state := set_Ts state now' in
  Returns (mkAdvanced state true (UpdateJob state)).

(** The poll of the Started and the Waiting stage. *)
Definition poll (state : JobState) (isRunning : bool) (next : JobStage)
  : outcome advanced :=
  match checkE2eTests state isRunning with
  | Panics msg => Panics msg
  | Returns (Err _) => update (set_Stage state JobStage_Failed)
  | Returns (Ok true) => update (set_Stage state next)
  | Returns (Ok false) => Returns (mkAdvanced state false None)
  end.

Definition AdvanceJob (state : JobState) : outcome advanced :=
  if decide (Stage state = JobStage_Queued) then
    match startE2eTests state with
    | (state, Some _) => update (set_Stage state JobStage_Failed)
    | (state, None) => update (set_Stage state JobStage_Started)
    end
  else if Time_After (Time_Add now (- FailureTime)) (Ts state) then
    update (set_Stage state JobStage_Failed)
  else if decide (Stage state = JobStage_Started) then
    poll state true JobStage_Waiting
  else if decide (Stage state = JobStage_Waiting) then
    poll state false JobStage_Completed
  else
    Returns (mkAdvanced state false
               (Some ("anchorJob: unexpected state: " +:+ PrintJob state))).

(** The call of [LaunchService] that [startE2eTest] makes for a suite. *)
Definition launch (config : string) : result string :=
  LaunchService "ceramic-qa-tests" "ceramic-qa-tests-e2e_tests"
    "ceramic-qa-tests-e2e_tests" "e2e_tests"
    (<["AWS_REGION" := Getenv "AWS_REGION"]>
       (<["AWS_SECRET_ACCESS_KEY" := Getenv "AWS_SECRET_ACCESS_KEY"]>
          (<["AWS_ACCESS_KEY_ID" := Getenv "AWS_ACCESS_KEY_ID"]>
             (<["ETH_RPC_URL" := Getenv "ETH_RPC_URL"]>
                (<["NODE_ENV" := config]> ∅))))).

(** What [AdvanceJob] leaves when it hands [state] to the store. *)
Definition stored (state : JobState) : advanced :=
  mkAdvanced state true (UpdateJob state).
End E2eTestJob.

End E2e.

(** ** The deploy job (package [jobs]) *)

Module Deploy.

Abbreviation Layout := (gmap string Value).

Record deployJob : Type := mkDeployJob {
  state : JobState;
  component : string;
  sha : string;
  manual : bool
}.

(** The calls that an advancement makes on its collaborators, in order,
    the updates of the hashes with the error they return. *)
Inductive Call : Type :=
| Call_GetDeployHashes
| Call_UpdateEnv (layout : Layout) (commitHash : string)
| Call_CheckEnv (layout : Layout)
| Call_GenerateEnvLayout (component : string)
| Call_UpdateBuildHash (component sha : string) (res : error)
| Call_UpdateDeployHash (component sha : string) (res : error)
| Call_NotifyJob (js : JobState)
| Call_AdvanceJob (js : JobState).

(** No call of [UpdateEnv] among the calls. *)
Definition no_UpdateEnv (calls : list Call) : Prop :=
  ∀ layout commitHash, Call_UpdateEnv layout commitHash ∉ calls.

(** A call on the notifier or on the store's job update. *)
Definition reports (c : Call) : Prop :=
  match c with
  | Call_NotifyJob _ | Call_AdvanceJob _ => True
  | _ => False
  end.

Section DeployJob.
(** [d.db]: the store. *)
Variable GetDeployHashes : result (gmap string string).
Variable UpdateBuildHash : string -> string -> error.
Variable UpdateDeployHash : string -> string -> error.
Variable db_AdvanceJob : JobState -> error.
(** [d.d]: the deployment adapter. *)
Variable UpdateEnv : Layout -> string -> error.
Variable CheckEnv : Layout -> result bool.
Variable GenerateEnvLayout : string -> result Layout.
(** [manager.IsTimedOut] and [manager.PrintJob] *)
Variable IsTimedOut : JobState -> Duration -> bool.
Variable PrintJob : JobState -> string.
(** [time.Now()] *)
Variable now : Time.

Definition updateEnv (d : deployJob) (commitHash : string)
  : error * list Call :=
  match as_layout (Params (state d) !! JobParam_Layout) with
  | Some layout =>
      (UpdateEnv layout commitHash, [Call_UpdateEnv layout commitHash])
  | None => (Some "updateEnv: missing env layout", [])
  end.

Definition checkEnv (d : deployJob) : result bool * list Call :=
  match as_layout (Params (state d) !! JobParam_Layout) with
  | None => (Err "checkEnv: missing env layout", [])
  | Some layout =>
      match CheckEnv layout with
      | Err err => (Err err, [Call_CheckEnv layout])
      | Ok deployed =>
          if negb deployed
             || negb (String.eqb (component d) DeployComponent_Ipfs)
          then (Ok deployed, [Call_CheckEnv layout])
          else
            match GenerateEnvLayout DeployComponent_Ceramic with
            | Err err =>
                (Err err,
                 [Call_CheckEnv layout;
                  Call_GenerateEnvLayout DeployComponent_Ceramic])
            | Ok ceramicLayout =>
                (CheckEnv ceramicLayout,
                 [Call_CheckEnv layout;
                  Call_GenerateEnvLayout DeployComponent_Ceramic;
                  Call_CheckEnv ceramicLayout])
            end
      end
  end.

(** [d.state.Stage = Failed; d.state.Params[error] = err] *)
Definition failed (st : JobState) (err : string) : JobState :=
  set_Param (set_Stage st JobStage_Failed) JobParam_Error (VStr err).

(** The notification and the store update that end [AdvanceJob]. *)
Definition finish (st : JobState) (calls : list Call)
  : (JobState * error) * list Call :=
  let notified :=
    if bool_decide (Stage st = JobStage_Skipped)
       || bool_decide (Stage st = JobStage_Started)
       || bool_decide (Stage st = JobStage_Failed)
       || bool_decide (Stage st = JobStage_Completed)
    then [Call_NotifyJob st] else [] in
  ((st, db_AdvanceJob st), calls ++ notified ++ [Call_AdvanceJob st]).

(** [AdvanceJob]: the job state and the error it returns, and the calls
    it made. *)
Definition AdvanceJob (d : deployJob) : (JobState * error) * list Call :=
  let st := state d in
  if decide (Stage st = JobStage_Queued) then
    match GetDeployHashes with
    | Err err => finish (failed st err) [Call_GetDeployHashes]
    | Ok deployHashes =>
        if negb (manual d)
           && String.eqb (sha d) (str_at deployHashes (component d))
        then finish (set_Stage st JobStage_Skipped) [Call_GetDeployHashes]
        else
          match updateEnv d (sha d) with
          | (Some err, calls) =>
              finish (failed st err) (Call_GetDeployHashes :: calls)
          | (None, calls) =>
              finish
                (set_Param (set_Stage st JobStage_Started) JobParam_Start
                   (VInt (Time_UnixMilli now)))
                (Call_GetDeployHashes :: calls
                   ++ [Call_UpdateBuildHash (component d) (sha d)
                      (UpdateBuildHash (component d) (sha d))])
          end
    end
  else if IsTimedOut st DefaultFailureTime then
    finish (failed st Error_Timeout) []
  else if decide (Stage st = JobStage_Started) then
    match checkEnv d with
    | (Err err, calls) => finish (failed st err) calls
    | (Ok true, calls) =>
        finish (set_Stage st JobStage_Completed)
          (calls ++ [Call_UpdateDeployHash (component d) (sha d)
                      (UpdateDeployHash (component d) (sha d))])
    | (Ok false, calls) => ((st, None), calls)
    end
  else
    ((st, Some ("deployJob: unexpected state: " +:+ PrintJob st)), []).
End DeployJob.

(** The calls that the constructor of the job makes on its collaborators,
    in order. *)
Inductive Setup : Type :=
| Setup_GetDeployHashes
| Setup_GetLatestCommitHash (repo branch : string)
| Setup_GetBuildHashes
| Setup_GenerateEnvLayout (component : string)
| Setup_WriteJob (js : JobState)
| Setup_NotifyJob (js : JobState).

(** What the constructor leaves: the job or an error, the params of the
    job state it was given as it leaves them (the map is shared with the
    caller, and is written to before the calls that can still fail), and
    the calls it made. *)
Record constructed : Type := mkConstructed {
  built : result deployJob;
  params_left : gmap string Value;
  setup : list Setup
}.

Section Constructor.
(** [db]: the store. *)
Variable GetDeployHashes : result (gmap string string).
Variable GetBuildHashes : result (gmap string string).
Variable WriteJob : JobState -> error.
(** [d.GenerateEnvLayout] and [repo.GetLatestCommitHash] *)
Variable GenerateEnvLayout : string -> result Layout.
Variable GetLatestCommitHash : string -> string -> result string.
(** [manager.ComponentRepo], [manager.EnvBranch], [manager.IsValidSha] and
    [manager.BuildHashLatest], whose declarations are not among the
    sources; repositories, branches and environments are strings here. *)
Variable ComponentRepo : string -> string.
Variable EnvBranch : string -> string.
Variable IsValidSha : string -> bool.
Variable BuildHashLatest : string.
(** [os.Getenv] *)
Variable Getenv : string -> string.

(** The commit hash to deploy and whether the deployment is manual: the
    [if rollback ... else if sha == latest ... else ...] of [DeployJob]. *)
Definition resolveSha (jobState : JobState) (c sha : string)
  : result (string * bool) * list Setup :=
  if fst (as_bool (Params jobState !! JobParam_Rollback)) then
    match GetDeployHashes with
    | Err err => (Err err, [Setup_GetDeployHashes])
    | Ok deployHashes =>
        (Ok (str_at deployHashes c, false), [Setup_GetDeployHashes])
    end
  else if String.eqb sha BuildHashLatest then
    match GetLatestCommitHash (ComponentRepo c) (EnvBranch (Getenv "ENV")) with
    | Err err =>
        (Err err,
         [Setup_GetLatestCommitHash (ComponentRepo c)
            (EnvBranch (Getenv "ENV"))])
    | Ok latestSha =>
        (Ok (latestSha, false),
         [Setup_GetLatestCommitHash (ComponentRepo c)
            (EnvBranch (Getenv "ENV"))])
    end
  else if negb (IsValidSha sha) then
    match GetBuildHashes with
    | Err err => (Err err, [Setup_GetBuildHashes])
    | Ok buildHashes =>
        (Ok (str_at buildHashes c, true), [Setup_GetBuildHashes])
    end
  else (Ok (sha, true), []).

Definition DeployJob (jobState : JobState) : constructed :=
  match as_string (Params jobState !! JobParam_Component) with
  | None =>
      mkConstructed (Err "deployJob: missing component (ceramic, ipfs, cas)")
        (Params jobState) []
  | Some component =>
      match as_string (Params jobState !! JobParam_Sha) with
      | None =>
          mkConstructed (Err "deployJob: missing sha") (Params jobState) []
      | Some sha =>
          let c := component in
          match Params jobState !! JobParam_Layout with
          | Some _ =>
              mkConstructed (Ok (mkDeployJob jobState c sha false))
                (Params jobState) []
          | None =>
              match resolveSha jobState c sha with
              | (Err err, calls) =>
                  mkConstructed (Err err) (Params jobState) calls
              | (Ok (sha, manual), calls) =>
                  let jobState := set_Param jobState JobParam_Sha (VStr sha) in
                  let jobState :=
                    if manual
                    then set_Param jobState JobParam_Manual (VBool true)
                    else jobState in
                  match GenerateEnvLayout c with
                  | Err err =>
                      mkConstructed (Err err) (Params jobState)
                        (calls ++ [Setup_GenerateEnvLayout c])
                  | Ok envLayout =>
                      let jobState :=
                        set_Param jobState JobParam_Layout
                          (VLayout envLayout) in
                      match WriteJob jobState with
                      | Some err =>
                          mkConstructed (Err err) (Params jobState)
                            (calls ++ [Setup_GenerateEnvLayout c;
                                       Setup_WriteJob jobState])
                      | None =>
                          mkConstructed
                            (Ok (mkDeployJob jobState c sha manual))
                            (Params jobState)
                            (calls ++ [Setup_GenerateEnvLayout c;
                                       Setup_WriteJob jobState;
                                       Setup_NotifyJob jobState])
                      end
                  end
              end
          end
      end
  end.
End Constructor.

End Deploy.

(** ** Go strings *)

(** [s[:n]]: a slice of a string beyond its length panics. *)
Definition slice_to (s : string) (n : nat) : option string :=
  if decide (n ≤ String.length s)%nat then Some (String.substring 0 n s)
  else None.

(** [strings.Split(s, sep)] for a separator of one byte: the pieces of [s]
    between the separators, never an empty list. *)
Fixpoint strings_Split (s : string) (sep : Ascii.ascii) : list string :=
  match s with
  | EmptyString => [EmptyString]
  | String c s' =>
      if Ascii.eqb c sep then EmptyString :: strings_Split s' sep
      else
        match strings_Split s' sep with
        | [] => [String c EmptyString]
        | piece :: pieces => String c piece :: pieces
        end
  end.

(** A 64-bit [int], with its wrap-around. *)
Definition wrap64 (z : Z) : Z :=
  (z + 2 ^ 63) mod 2 ^ 64 - 2 ^ 63.

(** The value of a decimal digit. *)
Definition digit_of (c : Ascii.ascii) : option Z :=
  let n := Z.of_nat (Ascii.nat_of_ascii c) - 48 in
  if (0 <=? n) && (n <=? 9) then Some n else None.

Fixpoint digits_value (s : string) (acc : Z) : option Z :=
  match s with
  | EmptyString => Some acc
  | String c s' =>
      match digit_of c with
      | Some d => digits_value s' (10 * acc + d)
      | None => None
      end
  end.

(** [strconv.Atoi] where [int] has 64 bits: an optional sign and one
    decimal digit or more, of a value that an [int] holds; [None] where it
    returns an error. *)
Definition strconv_Atoi (s : string) : option Z :=
  let '(neg, body) :=
    match s with
    | String c s' =>
        if Ascii.eqb c "-" then (true, s')
        else if Ascii.eqb c "+" then (false, s')
        else (false, s)
    | EmptyString => (false, s)
    end in
  match body with
  | EmptyString => None
  | _ =>
      match digits_value body 0 with
      | Some n =>
          let v := if neg then - n else n in
          if (- 2 ^ 63 <=? v) && (v <? 2 ^ 63) then Some v else None
      | None => None
      end
  end.

(** [strconv.ParseBool]: [None] where it returns an error. *)
Definition strconv_ParseBool (str : string) : option bool :=
  if bool_decide (str ∈ ["1"; "t"; "T"; "TRUE"; "true"; "True"]) then Some true
  else if bool_decide (str ∈ ["0"; "f"; "F"; "FALSE"; "false"; "False"])
  then Some false
  else None.

(** The verb [%d] of [fmt] on an [int]. *)
Definition fmt_d (z : Z) : string := NilZero.string_of_int (Z.to_int z).

(** ** The scheduler (package [jobmanager]) *)

Module JobManager.

Definition tests_Name : string := "Post-Deployment Tests".
Definition tests_Org : string := "3box".
Definition tests_Repo : string := "ceramic-tests".
Definition tests_Ref : string := "main".
Definition tests_Workflow : string := "run-durable.yml".
Definition tests_Selector : string := "fast".

(** Modelled from the spec: [manager.DefaultWaitTime], whose declaration
    is not among the sources; [postProcessJob] says that the test
    workflow is queued 5 minutes in the future. *)
Definition DefaultWaitTime : Duration := 5 * Minute.
Definition DefaultTtlDays : Z := 1.

(** The fields of [JobManager] that are plain data. *)
Record JobManager : Type := mkJobManager {
  maxAnchorJobs : Z;
  minAnchorJobs : Z;
  paused : bool;
  env : string
}.

(** What a run of the scheduler does to the world outside, in order. *)
Inductive Event : Type :=
(** [updateJobStage(js, stage, e)] and the error it returned *)
| EvUpdateStage (js : JobState) (stage : JobStage) (e : error) (res : error)
(** [advanceJob(js)]: the advancement task of [js] was started *)
| EvAdvance (js : JobState)
(** [db.QueueJob(js)] and the error it returned *)
| EvQueueJob (js : JobState) (res : error)
(** [cache.DeleteJob(id)] *)
| EvDeleteJob (id : string)
(** [debug.PrintStack()] *)
| EvPrintStack.

(** Everything outside the scheduler, as the scheduler reaches it: the
    cache, the store, the clock and the tasks in flight are the world,
    and each collaborator reads or changes it. *)
Class Env (World : Type) : Type := {
  (** [m.cache] *)
  cache_JobsByMatcher : World -> (JobState -> bool) -> list JobState;
  cache_DeleteJob : string -> World -> World;
  (** [m.db] *)
  db_QueueJob : JobState -> World -> World * error;
  db_QueuedJobs : World -> list JobState;
  db_OrderedJobs : JobStage -> World -> list JobState;
  db_GetDeployTags : World -> result (gmap string string);
  (** [manager.AdvanceJob(jobState, jobStage, ts, e, m.db, m.notifs)],
      of which the scheduler keeps the error *)
  manager_AdvanceJob :
    JobState -> JobStage -> Time -> error -> World -> World * error;
  (** [job.IsActiveJob], [job.IsFinishedJob], [manager.IsV5WorkerJob] and
      [manager.PrintJob] *)
  IsActiveJob : JobState -> bool;
  IsFinishedJob : JobState -> bool;
  IsV5WorkerJob : JobState -> bool;
  PrintJob : JobState -> string;
  (** [time.Now()], [now.AddDate(years, months, days)] and
      [uuid.New().String()] *)
  time_Now : World -> Time;
  AddDate : Time -> Z -> Z -> Z -> Time;
  uuid_New : World -> string;
  (** What the scheduler finds done by the advancement task of a job
      that it has started. *)
  run_task : JobState -> World -> World
}.

(** What a call into a job state machine does: it returns or panics,
    and changes the world. *)
Inductive effect (World A : Type) : Type :=
| Finished (a : A) (w : World)
| Aborted (r : string) (w : World).
Arguments Finished {World A} a w.
Arguments Aborted {World A} r w.

(** [manager.JobSm], the constructors of package [jobs] and [Advance]. *)
Class Machines (World : Type) : Type := {
  JobSm : Type;
  jobs_DeployJob : JobState -> World -> effect World (result JobSm);
  jobs_AnchorJob : JobState -> World -> effect World JobSm;
  jobs_E2eTestJob : JobState -> World -> effect World JobSm;
  jobs_SmokeTestJob : JobState -> World -> effect World JobSm;
  jobs_GitHubWorkflowJob : JobState -> World -> effect World (result JobSm);
  Advance : JobSm -> World -> effect World (result JobState);
  (** [string(debug.Stack())] where the task recovers from a panic *)
  debug_Stack : World -> string
}.

Section Scheduler.
Context {World : Type} {E : Env World} {SM : Machines World}.
Variable m : JobManager.

Record St : Type := mkSt { world : World; trace : list Event }.

(** A run either ends or panics, and leaves a state in both cases. *)
Inductive res (A : Type) : Type :=
| Done (a : A) (s : St)
| Panicked (r : string) (s : St).
Arguments Done {A} a s.
Arguments Panicked {A} r s.

Definition M (A : Type) : Type := St -> res A.

Definition ret {A} (a : A) : M A := fun s => Done a s.
Definition bind {A B} (c : M A) (k : A -> M B) : M B :=
  fun s =>
    match c s with
    | Done a s' => k a s'
    | Panicked r s' => Panicked r s'
    end.
Definition panic {A} (r : string) : M A := fun s => Panicked r s.
Definition get_world : M World := fun s => Done (world s) s.
(** A call on the world that returns [a]; [ev] records it. *)
Definition call {A} (f : World -> World * A) (ev : A -> Event) : M A :=
  fun s =>
    let '(w, a) := f (world s) in
    Done a (mkSt w (trace s ++ [ev a])).

Notation "x <- c ;; k" := (bind c (fun x => k))
  (at level 100, c at next level, right associativity).
Notation "c ;;; k" := (bind c (fun _ => k))
  (at level 100, right associativity).

(** The ways to leave the body of a [for ... range] loop: fall through
    to the next element, [break], or [return r].  [acc] is the value
    of the variables that the loop updates. *)
Inductive flow (Acc R : Type) : Type :=
| Next (acc : Acc)
| Break (acc : Acc)
| Return (r : R).
Arguments Next {Acc R} acc.
Arguments Break {Acc R} acc.
Arguments Return {Acc R} r.

Fixpoint for_range {A Acc R} (body : Acc -> A -> M (flow Acc R))
    (l : list A) (acc : Acc) : M (Acc + R) :=
  match l with
  | [] => ret (inl acc)
  | x :: l' =>
      f <- body acc x ;;
      match f with
      | Next acc' => for_range body l' acc'
      | Break acc' => ret (inl acc')
      | Return r => ret (inr r)
      end
  end.

(** [js.Params[component].(string)] *)
Definition component_of (js : JobState) : M string :=
  match as_string (Params js !! JobParam_Component) with
  | Some c => ret c
  | None => panic "interface conversion: interface {} is not string"
  end.

Definition updateJobStage (jobState : JobState) (jobStage : JobStage)
    (e : error) : M error :=
  call (fun w => manager_AdvanceJob jobState jobStage (time_Now w) e w)
       (EvUpdateStage jobState jobStage e).

(** [advanceJob] starts the advancement task of the job, which is
    [advanceJobTask] below, and does not wait for it. *)
Definition advanceJob (jobState : JobState) : M unit :=
  call (fun w => (run_task jobState w, tt)) (fun _ => EvAdvance jobState).

Definition advanceJobs (jobs : list JobState) : M unit :=
  r <- for_range (R := Empty_set)
         (fun _ jobState => advanceJob jobState ;;; ret (Next tt)) jobs tt ;;
  ret tt.

(** [NewJob]; a nil [Params] and an empty one are the same map here. *)
Definition NewJob (jobState : JobState) : M (JobState * error) :=
  w <- get_world ;;
  let jobState := set_Stage jobState JobStage_Queued in
  let jobState :=
    if (String.length (JobId jobState) =? 0)%nat
    then set_JobId jobState (uuid_New w) else jobState in
  let jobState :=
    if Time_IsZero (Ts jobState)
    then set_Ts jobState (time_Now w) else jobState in
  err <- call (db_QueueJob jobState) (EvQueueJob jobState) ;;
  ret (jobState, err).

(** A [job.JobState] literal that gives the type, the time and the
    parameters: the id is empty, and the stage is the one that [NewJob]
    sets. *)
Definition JobState_lit (t : JobType) (ts : Time)
    (params : gmap string Value) : JobState :=
  mkJobState JobStage_Queued ts EmptyString t params.

(** The matcher of the active deploy jobs. *)
Definition isActiveDeploy (js : JobState) : bool :=
  IsActiveJob js && bool_decide (Typ js = JobType_Deploy).

Definition getActiveDeploys : M (list JobState) :=
  w <- get_world ;;
  ret (cache_JobsByMatcher w isActiveDeploy).

(** [dequeuedJob.Params[force].(bool)], with the comma-ok form *)
Definition is_force (js : JobState) : bool :=
  fst (as_bool (Params js !! JobParam_Force)).

(** The first loop of [processForceDeployJobs], and its body. *)
Definition collectForceDeploy (forceDeploys : gmap string JobState)
    (dequeuedJob : JobState) : M (flow (gmap string JobState) Empty_set) :=
  if decide (Typ dequeuedJob = JobType_Deploy) then
    if is_force dequeuedJob then
      c <- component_of dequeuedJob ;;
      ret (Next (<[c := dequeuedJob]> forceDeploys))
    else ret (Next forceDeploys)
  else ret (Next forceDeploys).

Definition collectForceDeploys (dequeuedJobs : list JobState)
  : M (gmap string JobState + Empty_set) :=
  for_range collectForceDeploy dequeuedJobs ∅.

(** Its second loop: skip the other deploys of the forced components. *)
Definition skipForcedDeploy (forceDeploys : gmap string JobState)
    (_ : unit) (dequeuedJob : JobState) : M (flow unit bool) :=
  if decide (Typ dequeuedJob = JobType_Deploy) then
    c <- component_of dequeuedJob ;;
    match forceDeploys !! c with
    | Some forceDeploy =>
        if negb (String.eqb (JobId dequeuedJob) (JobId forceDeploy))
        then
          err <- updateJobStage dequeuedJob JobStage_Skipped None ;;
          match err with
          | Some _ => ret (Return true)
          | None => ret (Next tt)
          end
        else ret (Next tt)
    | None => ret (Next tt)
    end
  else ret (Next tt).

Definition skipForcedDeploys (forceDeploys : gmap string JobState)
    (dequeuedJobs : list JobState) : M (unit + bool) :=
  for_range (skipForcedDeploy forceDeploys) dequeuedJobs tt.

(** Its third loop: cancel the active deploys of the forced components. *)
Definition cancelActiveDeploy (forceDeploys : gmap string JobState)
    (_ : unit) (activeDeploy : JobState) : M (flow unit bool) :=
  c <- component_of activeDeploy ;;
  match forceDeploys !! c with
  | Some _ =>
      err <- updateJobStage activeDeploy JobStage_Canceled None ;;
      match err with
      | Some _ => ret (Return true)
      | None => ret (Next tt)
      end
  | None => ret (Next tt)
  end.

Definition cancelActiveDeploys (forceDeploys : gmap string JobState)
    (activeDeploys : list JobState) : M (unit + bool) :=
  for_range (cancelActiveDeploy forceDeploys) activeDeploys tt.

(** [maps.Values]: the values of a map.  Go leaves their order open; here
    it is the order of [map_to_list]. *)
Definition maps_Values {K} `{Countable K} {A} (mp : gmap K A) : list A :=
  snd <$> map_to_list mp.

Definition processForceDeployJobs (dequeuedJobs : list JobState) : M bool :=
  r <- collectForceDeploys dequeuedJobs ;;
  match r with
  | inr r => match r with end
  | inl forceDeploys =>
      if (0 <? size forceDeploys)%nat then
        r <- skipForcedDeploys forceDeploys dequeuedJobs ;;
        match r with
        | inr b => ret b
        | inl _ =>
            activeDeploys <- getActiveDeploys ;;
            r <- cancelActiveDeploys forceDeploys activeDeploys ;;
            match r with
            | inr b => ret b
            | inl _ =>
                advanceJobs (maps_Values forceDeploys) ;;;
                ret true
            end
        end
      else ret false
  end.

Definition is_test (js : JobState) : bool :=
  bool_decide (Typ js = JobType_TestE2E)
  || bool_decide (Typ js = JobType_TestSmoke).

Definition processDeployJobs (dequeuedJobs : list JobState) : M bool :=
  w <- get_world ;;
  if (length (cache_JobsByMatcher w IsActiveJob) =? 0)%nat then
    match dequeuedJobs with
    | [] => panic "index out of range [0] with length 0"
    | deployJob :: laterJobs =>
        deployComponent <- component_of deployJob ;;
        r <- for_range
               (fun deployJob dequeuedJob =>
                  if is_test dequeuedJob then ret (Break deployJob)
                  else if decide (Typ dequeuedJob = JobType_Deploy) then
                    c <- component_of dequeuedJob ;;
                    if String.eqb c deployComponent then
                      err <- updateJobStage deployJob JobStage_Skipped None ;;
                      match err with
                      | Some _ => ret (Return true)
                      | None => ret (Next dequeuedJob)
                      end
                    else ret (Next deployJob)
                  else ret (Next deployJob))
               laterJobs deployJob ;;
        match r with
        | inr b => ret b
        | inl deployJob => advanceJob deployJob ;;; ret true
        end
    end
  else ret false.

(** Whether a job is in the partition that [processV5Jobs] selects. *)
Definition in_partition (processV5Jobs : bool) (js : JobState) : bool :=
  bool_decide (Typ js = JobType_Anchor)
  && Bool.eqb processV5Jobs (IsV5WorkerJob js).

(** The condition under which [processVxAnchorJobs] launches a dequeued
    anchor job. *)
Definition may_launch (activeAnchors dequeuedAnchors : list JobState)
    (dequeuedJob : JobState) : bool :=
  IsV5WorkerJob dequeuedJob
  || (maxAnchorJobs m =? -1)
  || (Z.of_nat (length activeAnchors) + Z.of_nat (length dequeuedAnchors)
      <? maxAnchorJobs m).

(** The loop of [processVxAnchorJobs] over the dequeued jobs, and its
    body. *)
Definition selectAnchor (processV5Jobs : bool)
    (activeAnchors dequeuedAnchors : list JobState) (dequeuedJob : JobState)
  : M (flow (list JobState) bool) :=
  if in_partition processV5Jobs dequeuedJob then
    if may_launch activeAnchors dequeuedAnchors dequeuedJob then
      ret (Next (dequeuedAnchors ++ [dequeuedJob]))
    else
      err <- updateJobStage dequeuedJob JobStage_Skipped None ;;
      match err with
      | Some _ => ret (Return true)
      | None => ret (Next dequeuedAnchors)
      end
  else ret (Next dequeuedAnchors).

Definition selectAnchors (processV5Jobs : bool)
    (activeAnchors dequeuedJobs : list JobState)
  : M (list JobState + bool) :=
  for_range (selectAnchor processV5Jobs activeAnchors) dequeuedJobs [].

(** The synthetic anchor job that tops up the queue. *)
Definition anchorJob : JobState :=
  JobState_lit JobType_Anchor 0 (<[JobParam_Source := VStr ServiceName]> ∅).

(** [for i := 0; i < n; i++ { m.NewJob(anchor job) }] *)
Definition queueAnchor (_ : unit) (i : nat) : M (flow unit Empty_set) :=
  NewJob anchorJob ;;; ret (Next tt).

Definition queueAnchors (n : Z) : M unit :=
  r <- for_range queueAnchor (seq 0 (Z.to_nat n)) tt ;;
  ret tt.

(** The matcher of the active anchor jobs of the partition. *)
Definition isActiveAnchor (processV5Jobs : bool) (js : JobState) : bool :=
  IsActiveJob js && bool_decide (Typ js = JobType_Anchor)
  && Bool.eqb processV5Jobs (IsV5WorkerJob js).

Definition processVxAnchorJobs (dequeuedJobs : list JobState)
    (processV5Jobs : bool) : M bool :=
  w <- get_world ;;
  let activeAnchors := cache_JobsByMatcher w (isActiveAnchor processV5Jobs) in
  r <- selectAnchors processV5Jobs activeAnchors dequeuedJobs ;;
  match r with
  | inr b => ret b
  | inl dequeuedAnchors =>
      advanceJobs dequeuedAnchors ;;;
      let numJobs := Z.of_nat (length dequeuedAnchors) in
      (if negb processV5Jobs
       then queueAnchors (wrap64 (minAnchorJobs m - numJobs))
       else ret tt) ;;;
      ret (0 <? numJobs)
  end.

Definition processAnchorJobs (dequeuedJobs : list JobState) : M bool :=
  activeDeploys <- getActiveDeploys ;;
  if (length activeDeploys =? 0)%nat then
    v5 <- processVxAnchorJobs dequeuedJobs true ;;
    if v5 then ret true else processVxAnchorJobs dequeuedJobs false
  else ret false.

Definition processTestJobs (dequeuedJobs : list JobState) : M bool :=
  activeDeploys <- getActiveDeploys ;;
  if (length activeDeploys =? 0)%nat then
    r <- for_range
           (fun (dequeuedTests : gmap JobType JobState) dequeuedJob =>
              if decide (Typ dequeuedJob = JobType_Deploy) then
                ret (Break dequeuedTests)
              else if is_test dequeuedJob then
                match dequeuedTests !! Typ dequeuedJob with
                | Some jobToSkip =>
                    err <- updateJobStage jobToSkip JobStage_Skipped None ;;
                    match err with
                    | Some _ => ret (Return true)
                    | None =>
                        ret (Next (<[Typ dequeuedJob := dequeuedJob]>
                                     dequeuedTests))
                    end
                | None =>
                    ret (Next (<[Typ dequeuedJob := dequeuedJob]>
                                 dequeuedTests))
                end
              else ret (Next dequeuedTests))
           dequeuedJobs ∅ ;;
    match r with
    | inr b => ret b
    | inl dequeuedTests =>
        advanceJobs (maps_Values dequeuedTests) ;;;
        ret (0 <? size dequeuedTests)%nat
    end
  else ret false.

Definition processWorkflowJobs (dequeuedJobs : list JobState) : M bool :=
  activeDeploys <- getActiveDeploys ;;
  if (length activeDeploys =? 0)%nat then
    r <- for_range (R := Empty_set)
           (fun dequeuedWorkflows dequeuedJob =>
              if decide (Typ dequeuedJob = JobType_Deploy) then
                ret (Break dequeuedWorkflows)
              else if decide (Typ dequeuedJob = JobType_Workflow) then
                ret (Next (dequeuedWorkflows ++ [dequeuedJob]))
              else ret (Next dequeuedWorkflows))
           dequeuedJobs [] ;;
    match r with
    | inr r => match r with end
    | inl dequeuedWorkflows =>
        advanceJobs dequeuedWorkflows ;;;
        ret (0 <? length dequeuedWorkflows)%nat
    end
  else ret false.

(** The part of [processJobs] that starts jobs from the list of the
    dequeued jobs: from [processAnchorJobs := true] to the call of
    [m.processAnchorJobs]. *)
Definition startDequeued (dequeuedJobs : list JobState) : M unit :=
  processAnchors <-
    match dequeuedJobs with
    | [] => ret true
    | headJob :: _ =>
        forced <- processForceDeployJobs dequeuedJobs ;;
        if forced then ret false
        else if decide (Typ headJob = JobType_Deploy) then
          processDeployJobs dequeuedJobs ;;;
          w <- get_world ;;
          let e2eTestJobs :=
            cache_JobsByMatcher w (fun js =>
              IsActiveJob js && bool_decide (Typ js = JobType_TestE2E)) in
          ret (0 <? length e2eTestJobs)%nat
        else
          processTestJobs dequeuedJobs ;;;
          processWorkflowJobs dequeuedJobs ;;;
          ret true
    end ;;
  if processAnchors then processAnchorJobs dequeuedJobs ;;; ret tt
  else ret tt.

Definition processJobs : M unit :=
  w <- get_world ;;
  let now := time_Now w in
  let oldJobs :=
    cache_JobsByMatcher w (fun js =>
      IsFinishedJob js
      && Time_After (AddDate now 0 0 (- DefaultTtlDays)) (Ts js)) in
  r <- for_range (R := Empty_set)
         (fun _ oldJob =>
            call (fun w => (cache_DeleteJob (JobId oldJob) w, tt))
                 (fun _ => EvDeleteJob (JobId oldJob)) ;;;
            ret (Next tt))
         oldJobs tt ;;
  w <- get_world ;;
  advanceJobs (cache_JobsByMatcher w IsActiveJob) ;;;
  if negb (paused m) then
    w <- get_world ;;
    advanceJobs (db_QueuedJobs w) ;;;
    w <- get_world ;;
    startDequeued (db_OrderedJobs JobStage_Dequeued w)
  else ret tt.

(** [strings.Split(deployTag, ",")[0]] *)
Definition stripDeployTarget (deployTag : string) : M string :=
  match strings_Split deployTag ","%char !! 0%nat with
  | Some tag => ret tag
  | None => panic "index out of range [0] with length 0"
  end.

(** The test workflow that follows a completed deployment. *)
Definition testWorkflowJob (now : Time) : JobState :=
  JobState_lit JobType_Workflow (Time_Add now DefaultWaitTime)
    (<[WorkflowJobParam_Inputs :=
         VMap (Some (<[WorkflowJobParam_TestSelector := VStr tests_Selector]>
                       (<[WorkflowJobParam_Environment := VEnvType (env m)]> ∅)))]>
       (<[WorkflowJobParam_Workflow := VStr tests_Workflow]>
          (<[WorkflowJobParam_Ref := VStr tests_Ref]>
             (<[WorkflowJobParam_Repo := VStr tests_Repo]>
                (<[WorkflowJobParam_Org := VStr tests_Org]>
                   (<[WorkflowJobParam_Name := VStr tests_Name]>
                      (<[JobParam_Source := VStr ServiceName]> ∅))))))).

(** The rollback deployment that follows a failed deployment:
    [component] is the value of the failed job's component parameter. *)
Definition rollbackJob (component : Value) (shaTag : string) : JobState :=
  JobState_lit JobType_Deploy 0
    (<[JobParam_Source := VStr ServiceName]>
       (<[JobParam_Force := VBool true]>
          (<[JobParam_ShaTag := VStr shaTag]>
             (<[JobParam_Sha := VStr DeployJobTarget_Rollback]>
                (<[JobParam_Rollback := VBool true]>
                   (<[JobParam_Component := component]> ∅)))))).

Definition postProcessJob (jobState : JobState) : M unit :=
  match Typ jobState with
  | JobType_Deploy =>
      match Stage jobState with
      | JobStage_Completed =>
          w <- get_world ;;
          NewJob (testWorkflowJob (time_Now w)) ;;; ret tt
      | JobStage_Failed =>
          if negb (fst (as_bool (Params jobState !! JobParam_Rollback)))
          then
            match as_string (Params jobState !! JobParam_Component) with
            | None => ret tt
            | Some component =>
                w <- get_world ;;
                match db_GetDeployTags w with
                | Err _ => ret tt
                | Ok deployTags =>
                    match deployTags !! component with
                    | None => ret tt
                    | Some deployTag =>
                        shaTag <- stripDeployTarget deployTag ;;
                        NewJob (rollbackJob (VStr component) shaTag) ;;;
                        ret tt
                    end
                end
            end
          else ret tt
      | _ => ret tt
      end
  | _ => ret tt
  end.

(** *** The advancement task *)

Definition lift {A} (f : World -> effect World A) : M A :=
  fun s =>
    match f (world s) with
    | Finished a w => Done a (mkSt w (trace s))
    | Aborted r w => Panicked r (mkSt w (trace s))
    end.

Definition prepareJobSm (jobState : JobState) : M (result JobSm) :=
  r <- match Typ jobState with
       | JobType_Deploy => lift (jobs_DeployJob jobState)
       | JobType_Anchor =>
           jobSm <- lift (jobs_AnchorJob jobState) ;; ret (Ok jobSm)
       | JobType_TestE2E =>
           jobSm <- lift (jobs_E2eTestJob jobState) ;; ret (Ok jobSm)
       | JobType_TestSmoke =>
           jobSm <- lift (jobs_SmokeTestJob jobState) ;; ret (Ok jobSm)
       | JobType_Workflow => lift (jobs_GitHubWorkflowJob jobState)
       | JobType_Other =>
           ret (Err ("prepareJobSm: unknown job type: "
                     +:+ PrintJob jobState))
       end ;;
  match r with
  | Err err =>
      updateJobStage jobState JobStage_Failed (Some err) ;;;
      ret (Err err)
  | Ok jobSm => ret (Ok jobSm)
  end.

(** The body of the goroutine of [advanceJob]. *)
Definition advanceJobBody (jobState : JobState) : M unit :=
  let currentJobStage := Stage jobState in
  r <- prepareJobSm jobState ;;
  match r with
  | Err _ => ret tt
  | Ok jobSm =>
      r <- lift (Advance jobSm) ;;
      match r with
      | Err _ => ret tt
      | Ok newJobState =>
          if decide (Stage newJobState = currentJobStage) then ret tt
          else postProcessJob newJobState
      end
  end.

(** The deferred function of the goroutine, entered with the recovered
    value of a panic of the body. *)
Definition recovered (jobState : JobState) (r : string) : M unit :=
  call (fun w => (w, tt)) (fun _ => EvPrintStack) ;;;
  w <- get_world ;;
  match slice_to (debug_Stack w) 1024 with
  | None =>
      panic "slice bounds out of range [:1024] with length less"
  | Some stack =>
      updateJobStage jobState JobStage_Failed
        (Some ("panic: " +:+ stack)) ;;;
      ret tt
  end.

(** The goroutine of [advanceJob]: a panic that leaves it ends the
    process. *)
Definition advanceJobTask (jobState : JobState) : M unit :=
  fun s =>
    match advanceJobBody jobState s with
    | Done _ s' => Done tt s'
    | Panicked r s' => recovered jobState r s'
    end.

(** *** What the properties are stated with *)

(** The store accepts every stage update. *)
Definition accepts_updates : Prop :=
  ∀ js stage ts e w, snd (manager_AdvanceJob js stage ts e w) = None.

(** The component of a job, when its params hold one. *)
Definition component (js : JobState) : option string :=
  as_string (Params js !! JobParam_Component).

(** A Deploy job that carries [force=true]. *)
Definition is_force_deploy (js : JobState) : bool :=
  bool_decide (Typ js = JobType_Deploy) && is_force js.

(** The newest job of a list, in its order, that force deploys [c]. *)
Definition newest_force (jobs : list JobState) (c : string)
  : option JobState :=
  last (filter (fun js => is_force_deploy js = true ∧ component js = Some c)
          jobs).

(** A Deploy job that a force deploy job of its component, another job,
    replaces. *)
Definition superseded (forceDeploys : gmap string JobState) (js : JobState)
  : Prop :=
  Typ js = JobType_Deploy
  ∧ match component js with
    | Some c =>
        match forceDeploys !! c with
        | Some forceDeploy => JobId js ≠ JobId forceDeploy
        | None => False
        end
    | None => False
    end.

#[global] Instance superseded_dec forceDeploys js :
  Decision (superseded forceDeploys js).
Proof.
  unfold superseded.
  destruct (component js) as [c |]; [destruct (forceDeploys !! c) |]; apply _.
Defined.

(** A job whose component is force deployed. *)
Definition forced (forceDeploys : gmap string JobState) (js : JobState)
  : Prop :=
  match component js with
  | Some c => is_Some (forceDeploys !! c)
  | None => False
  end.

#[global] Instance forced_dec forceDeploys js :
  Decision (forced forceDeploys js).
Proof. unfold forced. destruct (component js); apply _. Defined.







(** The events of skipping and of canceling a job. *)
Definition skipped (js : JobState) : Event :=
  EvUpdateStage js JobStage_Skipped None None.

End Scheduler.

Arguments Done {World A} a s.
Arguments Panicked {World A} r s.
Arguments Next {Acc R} acc.
Arguments Break {Acc R} acc.
Arguments Return {Acc R} r.
Arguments St World : clear implicits.
Arguments res World A : clear implicits.
Arguments M World A : clear implicits.

(** *** The construction of the manager *)

Definition defaultCasMaxAnchorWorkers : Z := 1.
Definition defaultCasMinAnchorWorkers : Z := 0.

Section NewJobManager.
(** [os.LookupEnv] *)
Variable LookupEnv : string -> option string.
(** [manager.EnvVar_Env], whose declaration is not among the sources *)
Variable EnvVar_Env : string.

(** [os.Getenv]: the empty string for a variable that is not set. *)
Definition Getenv (key : string) : string :=
  default EmptyString (LookupEnv key).

Definition NewJobManager : result JobManager :=
  let maxAnchorJobs :=
    match LookupEnv "CAS_MAX_ANCHOR_WORKERS" with
    | Some configMaxAnchorWorkers =>
        match strconv_Atoi configMaxAnchorWorkers with
        | Some parsedMaxAnchorWorkers => parsedMaxAnchorWorkers
        | None => defaultCasMaxAnchorWorkers
        end
    | None => defaultCasMaxAnchorWorkers
    end in
  let minAnchorJobs :=
    match LookupEnv "CAS_MIN_ANCHOR_WORKERS" with
    | Some configMinAnchorWorkers =>
        match strconv_Atoi configMinAnchorWorkers with
        | Some parsedMinAnchorWorkers => parsedMinAnchorWorkers
        | None => defaultCasMinAnchorWorkers
        end
    | None => defaultCasMinAnchorWorkers
    end in
  if maxAnchorJobs <? minAnchorJobs then
    Err ((("newJobManager: invalid anchor worker config: "
           +:+ fmt_d minAnchorJobs) +:+ ", ") +:+ fmt_d maxAnchorJobs)
  else
    Ok (mkJobManager maxAnchorJobs minAnchorJobs
          (default false (strconv_ParseBool (Getenv "PAUSED")))
          (Getenv EnvVar_Env)).
End NewJobManager.

(** [Pause] toggles the paused status of the manager. *)
Definition Pause (m : JobManager) : JobManager :=
  mkJobManager (maxAnchorJobs m) (minAnchorJobs m) (negb (paused m)) (env m).

(** *** What further properties are stated with *)

(** The jobs of a list that come before its first job that [stop]
    holds of. *)
Fixpoint before_first (stop : JobState -> bool) (jobs : list JobState)
  : list JobState :=
  match jobs with
  | [] => []
  | js :: jobs => if stop js then [] else js :: before_first stop jobs
  end.

Definition is_deploy (js : JobState) : bool :=
  bool_decide (Typ js = JobType_Deploy).

(** The test jobs of a type among the jobs that come before the first
    Deploy job. *)
Definition tests_of (t : JobType) (jobs : list JobState) : list JobState :=
  filter (fun js => Typ js = t)
    (filter (fun js => is_test js = true) (before_first is_deploy jobs)).

(** The Deploy jobs of a component among the jobs that come before the
    first test job. *)
Definition deploys_of (c : string) (jobs : list JobState) : list JobState :=
  filter (fun js => Typ js = JobType_Deploy ∧ component js = Some c)
    (before_first is_test jobs).

End JobManager.

(** ** A world to run the scheduler in *)

(** One list of jobs stands for the cache and for the store.  The store is
    up or not ([store_up]): when it is not, each of its operations fails
    and changes nothing. *)
Module Sim.

Record World : Type := mkWorld {
  jobs : list JobState;
  deploy_tags : gmap string string;
  clock : Time;
  stack : string
}.

Definition with_jobs (w : World) (js : list JobState) : World :=
  mkWorld js (deploy_tags w) (clock w) (stack w).

Definition unavailable : string := "store unavailable".

Definition JobsByMatcher (w : World) (f : JobState -> bool) : list JobState :=
  filter (fun js => f js = true) (jobs w).

Definition DeleteJob (id : string) (w : World) : World :=
  with_jobs w (filter (fun js => JobId js ≠ id) (jobs w)).

Definition QueueJob (store_up : bool) (js : JobState) (w : World)
  : World * error :=
  if store_up then (with_jobs w (jobs w ++ [js]), None)
  else (w, Some unavailable).

Definition QueuedJobs (w : World) : list JobState :=
  filter (fun js => Stage js = JobStage_Queued) (jobs w).

Definition OrderedJobs (stage : JobStage) (w : World) : list JobState :=
  filter (fun js => Stage js = stage) (jobs w).

Definition GetDeployTags (store_up : bool) (w : World)
  : result (gmap string string) :=
  if store_up then Ok (deploy_tags w) else Err unavailable.

(** Modelled from the spec: [manager.AdvanceJob], which is not among the
    sources: the stage update of a job, which sets its stage and its
    timestamp and records the error, if there is one, in its parameters. *)
Definition staged (js : JobState) (stage : JobStage) (ts : Time)
    (e : error) : JobState :=
  let js := set_Ts (set_Stage js stage) ts in
  match e with
  | Some msg => set_Param js JobParam_Error (VStr msg)
  | None => js
  end.

Definition AdvanceJob (store_up : bool) (js : JobState) (stage : JobStage)
    (ts : Time) (e : error) (w : World) : World * error :=
  if store_up then
    (with_jobs w
       ((fun old => if String.eqb (JobId old) (JobId js)
                    then staged js stage ts e else old) <$> jobs w),
     None)
  else (w, Some unavailable).

(** Modelled from the spec: [job.IsActiveJob] and [job.IsFinishedJob],
    which are not among the sources: the active stages are Dequeued,
    Started and Waiting, the terminal stages Skipped, Canceled, Completed
    and Failed. *)
Definition IsActiveJob (js : JobState) : bool :=
  match Stage js with
  | JobStage_Dequeued | JobStage_Started | JobStage_Waiting => true
  | _ => false
  end.

Definition IsFinishedJob (js : JobState) : bool :=
  match Stage js with
  | JobStage_Skipped | JobStage_Canceled | JobStage_Completed
  | JobStage_Failed => true
  | _ => false
  end.

(** Here a job of a v5 worker carries the version of its worker. *)
Definition IsV5WorkerJob (js : JobState) : bool :=
  match as_string (Params js !! "version") with
  | Some v => String.eqb v "5"
  | None => false
  end.

Definition PrintJob (js : JobState) : string := JobId js.
Definition time_Now (w : World) : Time := clock w.
(** Here a day has 24 hours and a month 30 days. *)
Definition AddDate (t : Time) (years months days : Z) : Time :=
  t + ((years * 12 + months) * 30 + days) * 24 * Hour.
Definition uuid_New (w : World) : string := "00000000-0000-4000-8000-000000000000".

(** A task that the scheduler has started is found to have started its
    job. *)
Definition run_task (js : JobState) (w : World) : World :=
  with_jobs w
    ((fun old => if String.eqb (JobId old) (JobId js)
                 then set_Stage old JobStage_Started else old) <$> jobs w).

(** The state machines: each holds the state of its job.  A deploy job
    needs its component, the E2E test job advances as in [E2e], with all
    tasks launched and in the polled state, and the other jobs start. *)
Definition DeployJob (js : JobState) (w : World)
  : JobManager.effect World (result JobState) :=
  match as_string (Params js !! JobParam_Component) with
  | Some _ => JobManager.Finished (Ok js) w
  | None =>
      JobManager.Finished
        (Err "deployJob: missing component (ceramic, ipfs, cas)") w
  end.

Definition plainJob (js : JobState) (w : World)
  : JobManager.effect World JobState :=
  JobManager.Finished js w.

Definition WorkflowJob (js : JobState) (w : World)
  : JobManager.effect World (result JobState) :=
  JobManager.Finished (Ok js) w.

Definition Advance (sm : JobState) (w : World)
  : JobManager.effect World (result JobState) :=
  match Typ sm with
  | JobType_TestE2E =>
      match E2e.AdvanceJob (fun _ => EmptyString)
              (fun _ _ _ _ _ => Ok "task") (fun _ _ _ => Ok true)
              (fun _ => None) PrintJob (clock w) (clock w) sm with
      | Panics r => JobManager.Aborted r w
      | Returns adv =>
          match E2e.adv_err adv with
          | Some err => JobManager.Finished (Err err) w
          | None => JobManager.Finished (Ok (E2e.adv_state adv)) w
          end
      end
  | _ => JobManager.Finished (Ok (set_Stage sm JobStage_Started)) w
  end.

Definition env (store_up : bool) : JobManager.Env World := {|
  JobManager.cache_JobsByMatcher := JobsByMatcher;
  JobManager.cache_DeleteJob := DeleteJob;
  JobManager.db_QueueJob := QueueJob store_up;
  JobManager.db_QueuedJobs := QueuedJobs;
  JobManager.db_OrderedJobs := OrderedJobs;
  JobManager.db_GetDeployTags := GetDeployTags store_up;
  JobManager.manager_AdvanceJob := AdvanceJob store_up;
  JobManager.IsActiveJob := IsActiveJob;
  JobManager.IsFinishedJob := IsFinishedJob;
  JobManager.IsV5WorkerJob := IsV5WorkerJob;
  JobManager.PrintJob := PrintJob;
  JobManager.time_Now := time_Now;
  JobManager.AddDate := AddDate;
  JobManager.uuid_New := uuid_New;
  JobManager.run_task := run_task
|}.

Definition machines : JobManager.Machines World := {|
  JobManager.JobSm := JobState;
  JobManager.jobs_DeployJob := DeployJob;
  JobManager.jobs_AnchorJob := plainJob;
  JobManager.jobs_E2eTestJob := plainJob;
  JobManager.jobs_SmokeTestJob := plainJob;
  JobManager.jobs_GitHubWorkflowJob := WorkflowJob;
  JobManager.Advance := Advance;
  JobManager.debug_Stack := fun w => stack w
|}.

End Sim.

(** ** Runs of the design document *)

Module Scenario.

(** The fourth scenario: a TestE2E job in Waiting with
    [ts = now - 2h - 1s], its three tasks launched. *)
Definition e2e_now : Time := 1000 * Hour.

Definition e2e_late_job : JobState :=
mkJobState JobStage_Waiting (e2e_now - 2 * Hour - Second) "e2e-1"
  JobType_TestE2E
  (<[E2eTest_LocalNodePrivate := VStr "task-3"]>
     (<[E2eTest_LocalClientPublic := VStr "task-2"]>
        (<[E2eTest_PrivatePublic := VStr "task-1"]> ∅))).

(** A store and an adapter that answer every call of the E2E test job. *)
Definition e2e_advance (now : Time) (state : JobState)
  : outcome E2e.advanced :=
E2e.AdvanceJob (fun _ => EmptyString) (fun _ _ _ _ _ => Ok "task")
  (fun _ _ _ => Ok false) (fun _ => None) JobId now now state.

(** Modelled from the spec: [manager.IsTimedOut], which is not among the
    sources: a job has timed out when [now - ts] exceeds the delay. *)
Definition IsTimedOut (now : Time) (js : JobState) (delay : Duration) : bool :=
Time_After (Time_Add now (- delay)) (Ts js).

Definition deploy_now : Time := 1000 * Hour.

Definition ipfs_layout : gmap string Value :=
<["ceramic-dev" := VMap (Some (<["ceramic-dev-ipfs-nd" := VNil]> ∅))]> ∅.

Definition ceramic_layout : gmap string Value :=
<["ceramic-dev" := VMap (Some (<["ceramic-dev-node" := VNil]> ∅))]> ∅.

(** A deploy job of the given component, stage and hash, dequeued at
    [deploy_now], with its layout in its params. *)
Definition deploy_job (component : string) (stage : JobStage) (sha : string)
    (manual : bool) (layout : gmap string Value) : Deploy.deployJob :=
Deploy.mkDeployJob
  (mkJobState stage deploy_now "deploy-1" JobType_Deploy
     (<[JobParam_Layout := VLayout layout]>
        (<[JobParam_Sha := VStr sha]>
           (<[JobParam_Component := VStr component]> ∅))))
  component sha manual.

(** An advancement one minute later, with an adapter that applies every
    layout and finds every layout deployed, and a store that holds
    [deployHashes]. *)
Definition deploy_advance (deployHashes : result (gmap string string))
    (d : Deploy.deployJob) : (JobState * error) * list Deploy.Call :=
Deploy.AdvanceJob deployHashes (fun _ _ => None) (fun _ _ => None)
  (fun _ => None) (fun _ _ => None) (fun _ => Ok true)
  (fun c => if String.eqb c DeployComponent_Ceramic then Ok ceramic_layout
            else Ok ipfs_layout)
  (IsTimedOut (deploy_now + Minute)) JobId (deploy_now + Minute) d.

(** *** Runs of the scheduler *)

Definition manager (maxAnchorJobs minAnchorJobs : Z) : JobManager.JobManager :=
JobManager.mkJobManager maxAnchorJobs minAnchorJobs false "dev".

Definition sched_now : Time := 1000 * Hour.

(** A deploy job of a component. *)
Definition deploy (id component : string) (force : bool) (stage : JobStage)
  : JobState :=
mkJobState stage sched_now id JobType_Deploy
  (if force
   then <[JobParam_Force := VBool true]>
          (<[JobParam_Component := VStr component]> ∅)
   else <[JobParam_Component := VStr component]> ∅).

(** A dequeued anchor job, of a v5 worker or of a v2 one. *)
Definition anchor (id : string) (v5 : bool) : JobState :=
mkJobState JobStage_Dequeued sched_now id JobType_Anchor
  (if v5 then <["version" := VStr "5"]> ∅ else ∅).

(** A stack of fewer than 1024 bytes. *)
Definition short_stack : string :=
"goroutine 42 [running]: runtime/debug.Stack() jobmanager.(*JobManager).advanceJob.func1.1() panic() jobmanager.(*JobManager).advanceJob.func1()".

(** The scheduler starts with these jobs in the cache and the store, and
    with the deploy tag of the fifth scenario of the design document. *)
Definition start (jobs : list JobState) : JobManager.St Sim.World :=
JobManager.mkSt
  (Sim.mkWorld jobs (<[DeployComponent_Ceramic := "sha-ceramic-xyz,prod"]> ∅)
     sched_now short_stack)
  [].

(** The second scenario: an active Started deploy of Ipfs, and in the list
    of the dequeued jobs a deploy of Ipfs and a newer force deploy of
    Ipfs. *)
Definition ipfs_started : JobState := deploy "d0" "ipfs" false JobStage_Started.
Definition ipfs_plain : JobState := deploy "d1" "ipfs" false JobStage_Dequeued.


(** An E2E test job in Started whose params hold no task: its advancement
    panics on the type assertion of [checkE2eTests]. *)
Definition e2e_no_tasks : JobState :=
mkJobState JobStage_Started sched_now "e2e-2" JobType_TestE2E ∅.

(** *** Further runs *)

(** E2E test jobs: one that is Queued, one that started an hour before
    [e2e_now] with its three tasks, and one that completed then. *)
Definition e2e_queued_job : JobState :=
mkJobState JobStage_Queued e2e_now "e2e-3" JobType_TestE2E ∅.

Definition e2e_started_job : JobState :=
mkJobState JobStage_Started (e2e_now - Hour) "e2e-4" JobType_TestE2E
  (<[E2eTest_LocalNodePrivate := VStr "task-3"]>
     (<[E2eTest_LocalClientPublic := VStr "task-2"]>
        (<[E2eTest_PrivatePublic := VStr "task-1"]> ∅))).

Definition e2e_completed_job : JobState :=
mkJobState JobStage_Completed (e2e_now - Hour) "e2e-5" JobType_TestE2E ∅.

(** An adapter that finds every task in the state asked for. *)
Definition e2e_advance_met (now : Time) (state : JobState)
  : outcome E2e.advanced :=
E2e.AdvanceJob (fun _ => EmptyString) (fun _ _ _ _ _ => Ok "task")
  (fun _ _ _ => Ok true) (fun _ => None) JobId now now state.

(** An advancement of a deploy job an hour after [deploy_now], when a job
    of that time has timed out. *)
Definition deploy_advance_late (d : Deploy.deployJob)
  : (JobState * error) * list Deploy.Call :=
Deploy.AdvanceJob (Ok ∅) (fun _ _ => None) (fun _ _ => None)
  (fun _ => None) (fun _ _ => None) (fun _ => Ok true)
  (fun c => if String.eqb c DeployComponent_Ceramic then Ok ceramic_layout
            else Ok ipfs_layout)
  (IsTimedOut (deploy_now + Hour)) JobId (deploy_now + Hour) d.

(** A job state as the constructor of the deploy job gets it: Queued,
    with a component and a commit hash, and with [rollback] or not. *)
Definition fresh_deploy (sha : string) (rollback : bool) : JobState :=
mkJobState JobStage_Queued deploy_now "deploy-2" JobType_Deploy
  (if rollback
   then <[JobParam_Rollback := VBool true]>
          (<[JobParam_Sha := VStr sha]>
             (<[JobParam_Component := VStr DeployComponent_Ceramic]> ∅))
   else <[JobParam_Sha := VStr sha]>
          (<[JobParam_Component := VStr DeployComponent_Ceramic]> ∅)).

(** A job state that has been through the constructor already: it has
    its layout, and [manual=true] in its params. *)
Definition dequeued_manual : JobState :=
set_Param
  (Deploy.state
     (deploy_job DeployComponent_Ceramic JobStage_Queued "abc" true
        ceramic_layout))
  JobParam_Manual (VBool true).

(** The constructor with a store that holds "abc" as the deploy hash and
    "def" as the build hash of Ceramic, a repository whose head is "fed",
    and commit hashes that are valid when they have 40 bytes. *)
Definition construct (jobState : JobState) : Deploy.constructed :=
Deploy.DeployJob (Ok (<[DeployComponent_Ceramic := "abc"]> ∅))
  (Ok (<[DeployComponent_Ceramic := "def"]> ∅)) (fun _ => None)
  (fun _ => Ok ceramic_layout) (fun _ _ => Ok "fed") (fun c => c)
  (fun env => env) (fun sha => (String.length sha =? 40)%nat) "latest"
  (fun _ => "dev") jobState.

(** The environment of a process: the anchor workers as given, and
    nothing else set. *)
Definition environ (maxWorkers minWorkers : option string) (key : string)
  : option string :=
if String.eqb key "CAS_MAX_ANCHOR_WORKERS" then maxWorkers
else if String.eqb key "CAS_MIN_ANCHOR_WORKERS" then minWorkers
else None.

(** A workflow job and a job of a type that the manager does not know. *)
Definition workflow (id : string) : JobState :=
mkJobState JobStage_Dequeued sched_now id JobType_Workflow ∅.

Definition unknown_job : JobState :=
mkJobState JobStage_Dequeued sched_now "u1" JobType_Other ∅.


(** A test job of the given type. *)
Definition test (id : string) (t : JobType) : JobState :=
mkJobState JobStage_Dequeued sched_now id t ∅.

(** A stack of 1088 bytes, and the scheduler started with it. *)
Definition long_stack : string :=
String.concat "" (replicate 17 "goroutine 42 [running]: runtime/debug.Stack() jobmanager.advance").

Definition start_long (jobs : list JobState) : JobManager.St Sim.World :=
JobManager.mkSt
  (Sim.mkWorld jobs (<[DeployComponent_Ceramic := "sha-ceramic-xyz,prod"]> ∅)
     sched_now long_stack)
  [].

End Scenario.

(** * Properties *)

(** ** Strings *)

Lemma append_nil (s : string) : "" +:+ s = s.
Proof. reflexivity. Qed.

Lemma append_cons (c : ascii) (s1 s2 : string) :
  String c s1 +:+ s2 = String c (s1 +:+ s2).
Proof. reflexivity. Qed.

Lemma length_append (s1 s2 : string) :
  String.length (s1 +:+ s2) = (String.length s1 + String.length s2)%nat.
Proof.
  induction s1 as [|c s1 IH]; [done |].
  rewrite append_cons. simpl. by rewrite IH.
Qed.

Lemma append_assoc (s1 s2 s3 : string) :
  (s1 +:+ s2) +:+ s3 = s1 +:+ (s2 +:+ s3).
Proof.
  induction s1 as [|c s1 IH]; [done |].
  rewrite !append_cons. by rewrite IH.
Qed.

Lemma append_inv_head (s t1 t2 : string) : s +:+ t1 = s +:+ t2 → t1 = t2.
Proof.
  induction s as [|c s IH]; [done |].
  rewrite !append_cons. intros [= ?]. auto.
Qed.

(** ** The ECS deployment adapter *)

(** Find the key of a lookup among the keys that were inserted. *)
Ltac pick_key := first [by left | right; split; [done |]].

Section EcsProperties.
Import Ecs.

Lemma cluster_lengths env :
  String.length (publicCluster env) = (String.length (privateCluster env) + 3)%nat
  ∧ String.length (casCluster env) = (String.length (privateCluster env) + 4)%nat.
Proof.
  unfold publicCluster, casCluster, privateCluster.
  rewrite !length_append. simpl. lia.
Qed.

Lemma privateCluster_ne_publicCluster env :
  privateCluster env ≠ publicCluster env.
Proof.
  intros Heq. destruct (cluster_lengths env) as [Hx _].
  rewrite <- Heq in Hx. lia.
Qed.

Lemma privateCluster_ne_casCluster env :
  privateCluster env ≠ casCluster env.
Proof.
  intros Heq. destruct (cluster_lengths env) as [_ Hc].
  rewrite <- Heq in Hc. lia.
Qed.

Lemma publicCluster_ne_casCluster env :
  publicCluster env ≠ casCluster env.
Proof.
  intros Heq. destruct (cluster_lengths env) as [Hx Hc].
  rewrite Heq in Hx. lia.
Qed.

Lemma casCluster_name env :
  casCluster env = "ceramic-" +:+ env +:+ "-cas".
Proof. unfold casCluster, globalPrefix. by rewrite !append_assoc. Qed.

Lemma cas_service_names env :
  svc (casCluster env) ServiceSuffix_CasApi = "ceramic-" +:+ env +:+ "-cas-api"
  ∧ svc (casCluster env) ServiceSuffix_CasAnchor
    = "ceramic-" +:+ env +:+ "-cas-anchor".
Proof.
  unfold svc, casCluster, globalPrefix. by rewrite !append_assoc.
Qed.

Lemma cas_services_distinct env :
  svc (casCluster env) ServiceSuffix_CasApi
  ≠ svc (casCluster env) ServiceSuffix_CasAnchor.
Proof.
  unfold svc. intros Heq. by apply append_inv_head in Heq.
Qed.

(** C9, as amended.  For every environment, the layout generated for the
    Cas component has the three cluster keys [ceramic-{env}],
    [ceramic-{env}-ex] and [ceramic-{env}-cas] and no other; the first
    two map to nil service maps, and the CAS cluster maps exactly the two
    services [ceramic-{env}-cas-api] and [ceramic-{env}-cas-anchor]. *)
Theorem PopulateLayout_Cas (e_env env : string) :
  ∃ (layout casLayout : gmap string Value),
    PopulateLayout e_env env DeployComponent_Cas = Ok layout
    ∧ (∀ cluster, is_Some (layout !! cluster) ↔
         cluster = "ceramic-" +:+ env
         ∨ cluster = "ceramic-" +:+ env +:+ "-ex"
         ∨ cluster = "ceramic-" +:+ env +:+ "-cas")
    ∧ layout !! ("ceramic-" +:+ env) = Some (VMap None)
    ∧ layout !! ("ceramic-" +:+ env +:+ "-ex") = Some (VMap None)
    ∧ layout !! ("ceramic-" +:+ env +:+ "-cas") = Some (VMap (Some casLayout))
    ∧ (∀ service, is_Some (casLayout !! service) ↔
         service = "ceramic-" +:+ env +:+ "-cas-api"
         ∨ service = "ceramic-" +:+ env +:+ "-cas-anchor").
Proof.
  pose proof (privateCluster_ne_publicCluster env) as Hpx.
  pose proof (privateCluster_ne_casCluster env) as Hpc.
  pose proof (publicCluster_ne_casCluster env) as Hxc.
  pose proof (cas_services_distinct env) as Hsvc.
  destruct (cas_service_names env) as [Hapi Hanchor].
  rewrite <- Hapi, <- Hanchor, <- casCluster_name.
  change ("ceramic-" +:+ env) with (privateCluster env).
  assert (Hx : "ceramic-" +:+ env +:+ "-ex" = publicCluster env).
  { unfold publicCluster, globalPrefix. by rewrite !append_assoc. }
  rewrite Hx.
  clear Hapi Hanchor Hx.
  eexists _, _. split; [reflexivity |].
  split; [| split; [| split; [| split]]].
  - intros cluster. rewrite !lookup_insert_is_Some, lookup_empty.
    split.
    + intros [? | [_ [? | [_ [? | [_ []%is_Some_None]]]]]]; auto.
    + intros [-> | [-> | ->]]; repeat pick_key.
  - by rewrite lookup_insert_ne, lookup_insert_ne, lookup_insert_eq.
  - by rewrite lookup_insert_ne, lookup_insert_eq.
  - by rewrite lookup_insert_eq.
  - intros service. rewrite !lookup_insert_is_Some, lookup_empty.
    split.
    + intros [? | [_ [? | [_ []%is_Some_None]]]]; auto.
    + intros [-> | ->]; repeat pick_key.
Qed.

(** C9, as stated, fails in the [dev] environment: the layout of the Cas
    component has the key of the private cluster, [ceramic-dev], too. *)
Lemma PopulateLayout_Cas_not_cas_only :
  ∃ layout,
    PopulateLayout "dev" "dev" DeployComponent_Cas = Ok layout
    ∧ ¬ cas_cluster_only "dev" layout.
Proof.
  eexists. split; [reflexivity |].
  intros Honly. specialize (Honly "ceramic-dev").
  assert (Hne : "ceramic-dev" ≠ casCluster "dev") by (vm_compute; discriminate).
  apply Hne, Honly. vm_compute. eauto.
Qed.

(** C10.  When the describe call succeeds and returns no task record,
    [CheckTask] returns [(false, nil)], whichever status is asked for. *)
Theorem CheckTask_no_tasks
    (DescribeTasks : string → list string → result DescribeTasksOutput)
    (running : bool) (cluster : string) (taskArn : list string) :
  DescribeTasks cluster taskArn = Ok {| Tasks := [] |} →
  CheckTask DescribeTasks running cluster taskArn = Returns (false, None).
Proof. intros Hdesc. unfold CheckTask. by rewrite Hdesc. Qed.

Lemma CheckTask_no_tasks_witness :
  (fun (_ : string) (_ : list string) => Ok {| Tasks := [] |})
    "ceramic-qa-tests" ["arn:aws:ecs:task/1"] = Ok {| Tasks := [] |}
  ∧ CheckTask (fun _ _ => Ok {| Tasks := [] |}) true "ceramic-qa-tests"
      ["arn:aws:ecs:task/1"] = Returns (false, None).
Proof.
  split; [reflexivity |].
  apply (CheckTask_no_tasks (fun _ _ => Ok {| Tasks := [] |}) true
           "ceramic-qa-tests" ["arn:aws:ecs:task/1"]).
  reflexivity.
Defined.

(** With task records, [CheckTask] is true exactly when every record has
    the status asked for. *)
Lemma checkTasks_all (checkStatus : string) (tasks : list Task) :
  Forall (fun task => is_Some (LastStatus task)) tasks →
  checkTasks checkStatus tasks
  = Returns (bool_decide
               (Forall (fun task => LastStatus task = Some checkStatus) tasks),
             None).
Proof.
  induction 1 as [|task tasks [st Hst] _ IH]; [done |].
  cbn [checkTasks]. rewrite Hst.
  destruct (String.eqb_spec st checkStatus) as [-> | Hne].
  - rewrite IH. do 2 f_equal. apply bool_decide_ext.
    rewrite Forall_cons. intuition.
  - rewrite bool_decide_eq_false_2; [done |].
    rewrite Forall_cons. intros [? _]. congruence.
Qed.

End EcsProperties.

(** ** The E2E test job *)

Section E2eProperties.
Import E2e.

Variable Getenv : string → string.
Variable LaunchService :
  string → string → string → string → gmap string string → result string.
Variable CheckTask : bool → string → list string → result bool.
Variable UpdateJob : JobState → error.
Variable PrintJob : JobState → string.

(** C5, as amended.  For every E2E test job in a non-Queued stage whose
    [ts] is more than 2 hours in the past, one advancement transitions it
    to Failed, sets [ts] to the current time and hands the job to the
    store; the params of the job are left as they were, with no error
    recorded in them. *)
Theorem e2e_timeout_fails (now now' : Time) (state : JobState) :
  Stage state ≠ JobStage_Queued →
  2 * Hour < now - Ts state →
  ∃ state',
    AdvanceJob Getenv LaunchService CheckTask UpdateJob PrintJob now now' state
    = Returns (mkAdvanced state' true (UpdateJob state'))
    ∧ Stage state' = JobStage_Failed
    ∧ Ts state' = now'
    ∧ JobId state' = JobId state
    ∧ Typ state' = Typ state
    ∧ Params state' = Params state.
Proof.
  intros Hstage Hlate.
  exists (set_Ts (set_Stage state JobStage_Failed) now').
  split; [| done].
  unfold AdvanceJob. rewrite decide_False by done.
  assert (Time_After (Time_Add now (- FailureTime)) (Ts state) = true) as ->.
  { unfold Time_After, Time_Add, FailureTime. apply Z.ltb_lt. lia. }
  reflexivity.
Qed.

End E2eProperties.

Lemma e2e_timeout_fails_witness :
  Stage Scenario.e2e_late_job ≠ JobStage_Queued
  ∧ 2 * Hour < Scenario.e2e_now - Ts Scenario.e2e_late_job
  ∧ ∃ state',
      Scenario.e2e_advance Scenario.e2e_now Scenario.e2e_late_job
      = Returns (E2e.mkAdvanced state' true None)
      ∧ Stage state' = JobStage_Failed
      ∧ Ts state' = Scenario.e2e_now
      ∧ JobId state' = JobId Scenario.e2e_late_job
      ∧ Typ state' = Typ Scenario.e2e_late_job
      ∧ Params state' = Params Scenario.e2e_late_job.
Proof.
  split; [discriminate |]. split; [reflexivity |].
  apply (e2e_timeout_fails (fun _ => EmptyString) (fun _ _ _ _ _ => Ok "task")
           (fun _ _ _ => Ok false) (fun _ => None) JobId
           Scenario.e2e_now Scenario.e2e_now Scenario.e2e_late_job).
  - discriminate.
  - reflexivity.
Defined.

(** C5, as stated, fails on the fourth scenario of the design document:
    the job becomes Failed, and its params hold no error. *)
Lemma e2e_timeout_records_no_error :
  ∃ state' stored err,
    Scenario.e2e_advance Scenario.e2e_now Scenario.e2e_late_job
    = Returns (E2e.mkAdvanced state' stored err)
    ∧ Stage state' = JobStage_Failed
    ∧ Params state' !! JobParam_Error = None.
Proof. eexists _, _, _. split; [reflexivity |]. split; reflexivity. Qed.

(** ** The deploy job *)

Section DeployProperties.
Import Deploy.

Variable GetDeployHashes : result (gmap string string).
Variable UpdateBuildHash : string → string → error.
Variable UpdateDeployHash : string → string → error.
Variable db_AdvanceJob : JobState → error.
Variable UpdateEnv : Layout → string → error.
Variable CheckEnv : Layout → result bool.
Variable GenerateEnvLayout : string → result Layout.
Variable IsTimedOut : JobState → Duration → bool.
Variable PrintJob : JobState → string.
Variable now : Time.

Lemma finish_state st calls :
  fst (finish db_AdvanceJob st calls) = (st, db_AdvanceJob st).
Proof. reflexivity. Qed.

Lemma finish_keeps_calls st calls c :
  c ∈ calls → c ∈ snd (finish db_AdvanceJob st calls).
Proof. intros Hc. unfold finish. cbn [snd]. set_solver. Qed.

Lemma finish_no_UpdateEnv st calls :
  no_UpdateEnv calls → no_UpdateEnv (snd (finish db_AdvanceJob st calls)).
Proof.
  intros Hno layout h. unfold finish. cbn [snd].
  rewrite !elem_of_app. intros [Hin | [Hin | Hin]].
  - by apply (Hno layout h).
  - destruct (_ || _); [| by apply elem_of_nil in Hin].
    by apply list_elem_of_singleton in Hin.
  - by apply list_elem_of_singleton in Hin.
Qed.

Lemma no_UpdateEnv_fetch : no_UpdateEnv [Call_GetDeployHashes].
Proof. intros layout h Hin. by apply list_elem_of_singleton in Hin. Qed.

Lemma failed_stage st err :
  Stage (failed st err) = JobStage_Failed
  ∧ Params (failed st err) !! JobParam_Error = Some (VStr err).
Proof. split; [done |]. apply lookup_insert_eq. Qed.

(** C4, as amended.  For every Deploy job advanced from the Queued stage:
    when the deploy hashes cannot be fetched the job transitions to Failed
    and [UpdateEnv] is not called.  When they are fetched: if [manual] is
    false and the resolved SHA equals the component's entry in them, the
    job transitions to Skipped and [UpdateEnv] is not called; otherwise,
    if the params hold no layout the job transitions to Failed and
    [UpdateEnv] is not called, and if they hold one, [UpdateEnv(layout,
    sha)] is called: on success the job transitions to Started with
    [start] set to the current time in milliseconds and the build hash
    update is attempted, whatever it returns, and on an error the job
    transitions to Failed. *)
Theorem deploy_queued_step (d : deployJob) :
  Stage (state d) = JobStage_Queued →
  let r := AdvanceJob GetDeployHashes UpdateBuildHash UpdateDeployHash
             db_AdvanceJob UpdateEnv CheckEnv GenerateEnvLayout IsTimedOut
             PrintJob now d in
  let st' := fst (fst r) in
  let calls := snd r in
  match GetDeployHashes with
  | Err err =>
      Stage st' = JobStage_Failed
      ∧ Params st' !! JobParam_Error = Some (VStr err)
      ∧ no_UpdateEnv calls
  | Ok deployHashes =>
      (manual d = false ∧ sha d = str_at deployHashes (component d) →
       Stage st' = JobStage_Skipped ∧ no_UpdateEnv calls)
      ∧ (¬ (manual d = false ∧ sha d = str_at deployHashes (component d)) →
         match as_layout (Params (state d) !! JobParam_Layout) with
         | None => Stage st' = JobStage_Failed ∧ no_UpdateEnv calls
         | Some layout =>
             Call_UpdateEnv layout (sha d) ∈ calls
             ∧ match UpdateEnv layout (sha d) with
               | None =>
                   Stage st' = JobStage_Started
                   ∧ Params st' !! JobParam_Start
                     = Some (VInt (Time_UnixMilli now))
                   ∧ Call_UpdateBuildHash (component d) (sha d)
                       (UpdateBuildHash (component d) (sha d)) ∈ calls
               | Some err =>
                   Stage st' = JobStage_Failed
                   ∧ Params st' !! JobParam_Error = Some (VStr err)
               end
         end)
  end.
Proof.
  intros Hq. cbv zeta. unfold AdvanceJob.
  rewrite decide_True by done.
  destruct GetDeployHashes as [deployHashes | err].
  - split.
    + intros [Hmanual Hsha]. rewrite Hmanual, <- Hsha, String.eqb_refl.
      cbn [negb andb]. rewrite finish_state. split; [done |].
      apply finish_no_UpdateEnv, no_UpdateEnv_fetch.
    + intros Hdiff.
      assert (negb (manual d)
              && String.eqb (sha d) (str_at deployHashes (component d)) = false)
        as ->.
      { destruct (manual d); [done |]. simpl.
        apply String.eqb_neq. intros Heq. by apply Hdiff. }
      unfold updateEnv.
      destruct (as_layout (Params (state d) !! JobParam_Layout)) as [layout |].
      * destruct (UpdateEnv layout (sha d)) as [err |];
          rewrite finish_state.
        -- destruct (failed_stage (state d) err).
           split; [| done]. apply finish_keeps_calls. set_solver.
        -- split; [apply finish_keeps_calls; set_solver |].
           split; [done |].
           split; [apply lookup_insert_eq |].
           apply finish_keeps_calls. set_solver.
      * rewrite finish_state. split; [done |].
        apply finish_no_UpdateEnv, no_UpdateEnv_fetch.
  - rewrite finish_state. destruct (failed_stage (state d) err).
    split; [done |]. split; [done |].
    apply finish_no_UpdateEnv, no_UpdateEnv_fetch.
Qed.

Lemma checkEnv_calls (d : deployJob) c :
  c ∈ snd (checkEnv CheckEnv GenerateEnvLayout d) →
  ∃ layout,
    as_layout (Params (state d) !! JobParam_Layout) = Some layout
    ∧ (c = Call_CheckEnv layout
       ∨ component d = DeployComponent_Ipfs
         ∧ CheckEnv layout = Ok true
         ∧ (c = Call_GenerateEnvLayout DeployComponent_Ceramic
            ∨ ∃ ceramicLayout,
                GenerateEnvLayout DeployComponent_Ceramic = Ok ceramicLayout
                ∧ c = Call_CheckEnv ceramicLayout)).
Proof.
  unfold checkEnv.
  destruct (as_layout (Params (state d) !! JobParam_Layout)) as [layout |];
    [| by intros ?%elem_of_nil].
  intros Hc. exists layout. split; [done |].
  destruct (CheckEnv layout) as [[] |] eqn:Hcheck; cbn [negb orb] in Hc.
  - destruct (String.eqb_spec (component d) DeployComponent_Ipfs)
      as [Hipfs | Hother]; cbn [negb] in Hc.
    + destruct (GenerateEnvLayout DeployComponent_Ceramic)
        as [ceramicLayout |] eqn:Hgen; cbn [snd] in Hc.
      * apply elem_of_cons in Hc as [-> | Hc]; [by left |].
        apply elem_of_cons in Hc as [-> | Hc]; [right; auto |].
        apply list_elem_of_singleton in Hc as ->. right. eauto 10.
      * apply elem_of_cons in Hc as [-> | Hc]; [by left |].
        apply list_elem_of_singleton in Hc as ->. right. auto.
    + apply list_elem_of_singleton in Hc as ->. by left.
  - apply list_elem_of_singleton in Hc as ->. by left.
  - apply list_elem_of_singleton in Hc as ->. by left.
Qed.



End DeployProperties.

(** The first scenario of the design document: the deploy hash of Ceramic
    is "abc", and an automated deploy of "abc" is advanced from Queued. *)
Lemma deploy_queued_step_witness :
  Stage (Deploy.state
           (Scenario.deploy_job DeployComponent_Ceramic JobStage_Queued "abc"
              false Scenario.ceramic_layout)) = JobStage_Queued
  ∧ let r := Scenario.deploy_advance
               (Ok (<[DeployComponent_Ceramic := "abc"]> ∅))
               (Scenario.deploy_job DeployComponent_Ceramic JobStage_Queued
                  "abc" false Scenario.ceramic_layout) in
    Stage (fst (fst r)) = JobStage_Skipped ∧ Deploy.no_UpdateEnv (snd r).
Proof.
  split; [reflexivity |].
  pose proof (deploy_queued_step
                (Ok (<[DeployComponent_Ceramic := "abc"]> ∅))
                (fun _ _ => None) (fun _ _ => None) (fun _ => None)
                (fun _ _ => None) (fun _ => Ok true)
                (fun c => if String.eqb c DeployComponent_Ceramic
                          then Ok Scenario.ceramic_layout
                          else Ok Scenario.ipfs_layout)
                (Scenario.IsTimedOut (Scenario.deploy_now + Minute)) JobId
                (Scenario.deploy_now + Minute)
                (Scenario.deploy_job DeployComponent_Ceramic JobStage_Queued
                   "abc" false Scenario.ceramic_layout) eq_refl) as [Hskip _].
  apply Hskip. split; reflexivity.
Defined.

(** C4, as stated, fails when the deploy hashes cannot be fetched: a manual
    deploy, which the claim has call [UpdateEnv], transitions to Failed
    and [UpdateEnv] is not called. *)
Lemma deploy_queued_fetch_failure :
  let r := Scenario.deploy_advance (Err "store unavailable")
             (Scenario.deploy_job DeployComponent_Ceramic JobStage_Queued
                "abc" true Scenario.ceramic_layout) in
  Deploy.manual
    (Scenario.deploy_job DeployComponent_Ceramic JobStage_Queued "abc" true
       Scenario.ceramic_layout) = true
  ∧ Stage (fst (fst r)) = JobStage_Failed
  ∧ Deploy.no_UpdateEnv (snd r).
Proof.
  cbv zeta. split; [reflexivity |]. split; [reflexivity |].
  intros layout h Hin. vm_compute in Hin.
  repeat (apply elem_of_cons in Hin as [Hin | Hin]; [discriminate |]).
  by apply elem_of_nil in Hin.
Qed.


(** ** The scheduler *)

Section SchedulerProperties.
Import JobManager.

Context {World : Type} {E : Env World}.
Variable m : JobManager.

Implicit Types (s : St World) (js : JobState) (jobs : list JobState).

Lemma St_eta s : mkSt (world s) (trace s) = s.
Proof. by destruct s. Qed.

Lemma bind_Done {A B} (c : M World A) (k : A → M World B) s a s' :
  c s = Done a s' → bind c k s = k a s'.
Proof. unfold bind. by intros ->. Qed.


Lemma for_range_nil {A Acc R} (body : Acc → A → M World (flow Acc R)) acc s :
  for_range body [] acc s = Done (inl acc) s.
Proof. reflexivity. Qed.

Lemma for_range_cons {A Acc R} (body : Acc → A → M World (flow Acc R))
    x l acc s :
  for_range body (x :: l) acc s
  = match body acc x s with
    | Done (Next acc') s' => for_range body l acc' s'
    | Done (Break acc') s' => Done (inl acc') s'
    | Done (Return r) s' => Done (inr r) s'
    | Panicked r s' => Panicked r s'
    end.
Proof.
  cbn [for_range]. unfold bind.
  by destruct (body acc x s) as [[] |].
Qed.

(** A stage update that the store accepts. *)
Lemma updateJobStage_accepted js stage e s :
  accepts_updates →
  ∃ w,
    updateJobStage js stage e s
    = Done None (mkSt w (trace s ++ [EvUpdateStage js stage e None])).
Proof.
  intros Hok. unfold updateJobStage, call.
  specialize (Hok js stage (time_Now (world s)) e (world s)).
  destruct (manager_AdvanceJob _ _ _ _ _) as [w res]. simpl in Hok. subst res.
  by exists w.
Qed.

Lemma getActiveDeploys_run s :
  getActiveDeploys s = Done (cache_JobsByMatcher (world s) isActiveDeploy) s.
Proof. reflexivity. Qed.

Lemma advanceJob_run js s :
  advanceJob js s
  = Done tt (mkSt (run_task js (world s)) (trace s ++ [EvAdvance js])).
Proof. reflexivity. Qed.

(** Starting jobs records them in order. *)
Lemma advanceJobs_trace jobs s :
  ∃ w, advanceJobs jobs s = Done tt (mkSt w (trace s ++ (EvAdvance <$> jobs))).
Proof.
  unfold advanceJobs.
  assert (∃ w,
            for_range (R := Empty_set)
              (fun _ jobState => bind (advanceJob jobState)
                                   (fun _ => ret (Next tt))) jobs tt s
            = Done (inl tt) (mkSt w (trace s ++ (EvAdvance <$> jobs))))
    as [w Hloop].
  { revert s. induction jobs as [|js jobs IH]; intros s.
    - exists (world s). rewrite for_range_nil, fmap_nil, app_nil_r.
      by rewrite St_eta.
    - rewrite for_range_cons.
      rewrite (bind_Done _ _ _ _ _ (advanceJob_run js s)). unfold ret at 1.
      destruct (IH (mkSt (run_task js (world s)) (trace s ++ [EvAdvance js])))
        as [w Hw].
      exists w. rewrite Hw. cbn [trace]. by rewrite <- app_assoc. }
  exists w. by rewrite (bind_Done _ _ _ _ _ Hloop).
Qed.

(** *** The anchor dispatch *)










(** *** The force deploy override *)

Lemma component_of_run js s :
  component_of js s
  = match component js with
    | Some c => Done c s
    | None => Panicked "interface conversion: interface {} is not string" s
    end.
Proof. unfold component_of, component. by destruct (as_string _). Qed.





Lemma newest_force_elem l c js :
  newest_force l c = Some js →
  js ∈ l ∧ is_force_deploy js = true ∧ component js = Some c.
Proof.
  unfold newest_force. intros Hlast.
  apply last_Some_elem_of in Hlast.
  apply list_elem_of_filter in Hlast. tauto.
Qed.









(** *** Post-processing *)




(** *** The advancement task *)

Section TaskProperties.
Context {SM : Machines World}.

(** With a stack of 1024 bytes or more, the deferred function prints the
    stack and transitions the job to Failed, with the first 1024 bytes of
    the stack in the error. *)
Lemma recovered_long_stack js r s :
  (1024 ≤ String.length (debug_Stack (world s)))%nat →
  ∃ w res,
    recovered js r s
    = Done tt
        (mkSt w
           (trace s
            ++ [EvPrintStack;
                EvUpdateStage js JobStage_Failed
                  (Some ("panic: "
                         +:+ String.substring 0 1024 (debug_Stack (world s))))
                  res])).
Proof.
  intros Hlen. unfold recovered, call, get_world, bind, slice_to.
  cbn [world trace]. rewrite decide_True by done.
  unfold updateJobStage, call. cbn [world trace].
  destruct (manager_AdvanceJob _ _ _ _ _) as [w res].
  exists w, res. unfold ret. by rewrite <- app_assoc.
Qed.

(** With a shorter stack, the slice panics in the deferred function: the
    stack is printed, the job is not transitioned, and the panic leaves
    the task. *)
Lemma recovered_short_stack js r s :
  (String.length (debug_Stack (world s)) < 1024)%nat →
  recovered js r s
  = Panicked "slice bounds out of range [:1024] with length less"
      (mkSt (world s) (trace s ++ [EvPrintStack])).
Proof.
  intros Hlen. unfold recovered, call, get_world, bind, slice_to.
  cbn [world trace]. by rewrite decide_False by lia.
Qed.

(** A panic of the body of the task is contained when the stack has 1024
    bytes or more. *)
Lemma advanceJobTask_contained js s r s' :
  advanceJobBody m js s = Panicked r s' →
  (1024 ≤ String.length (debug_Stack (world s')))%nat →
  ∃ w res,
    advanceJobTask m js s
    = Done tt
        (mkSt w
           (trace s'
            ++ [EvPrintStack;
                EvUpdateStage js JobStage_Failed
                  (Some ("panic: "
                         +:+ String.substring 0 1024 (debug_Stack (world s'))))
                  res])).
Proof.
  intros Hbody Hlen. unfold advanceJobTask. rewrite Hbody.
  by apply recovered_long_stack.
Qed.

(** It leaves the task when the stack is shorter. *)
Lemma advanceJobTask_escapes js s r s' :
  advanceJobBody m js s = Panicked r s' →
  (String.length (debug_Stack (world s')) < 1024)%nat →
  advanceJobTask m js s
  = Panicked "slice bounds out of range [:1024] with length less"
      (mkSt (world s') (trace s' ++ [EvPrintStack])).
Proof.
  intros Hbody Hlen. unfold advanceJobTask. rewrite Hbody.
  by apply recovered_short_stack.
Qed.

End TaskProperties.

End SchedulerProperties.

(** ** Runs of the scheduler *)

Section Runs.
Import JobManager.

Lemma Sim_accepts_updates : accepts_updates (E := Sim.env true).
Proof. intros js stage ts e w. reflexivity. Qed.





(** C3, on an input where the code leaves it.  The anchor dispatch on a
    dequeued v5 anchor and a dequeued v2 anchor, with [maxAnchorJobs = minAnchorJobs = 2] and no active job: the v5
    anchor is started and the dispatch returns; the v2 anchor is neither
    started nor skipped, and no anchor job is put in the queue. *)
Theorem anchor_dispatch_stops_after_v5 :
  ∃ s',
    processAnchorJobs (E := Sim.env true) (Scenario.manager 2 2)
      [Scenario.anchor "a5" true; Scenario.anchor "a2" false]
      (Scenario.start []) = Done true s'
    ∧ trace s' = [EvAdvance (Scenario.anchor "a5" true)].
Proof. eexists. split; vm_compute; reflexivity. Qed.

(** The dispatch of the v2 partition alone, on the same input, starts the
    v2 anchor and puts one anchor job in the queue. *)
Lemma anchor_dispatch_v2_alone :
  ∃ s' js res,
    processVxAnchorJobs (E := Sim.env true) (Scenario.manager 2 2)
      [Scenario.anchor "a5" true; Scenario.anchor "a2" false] false
      (Scenario.start []) = Done true s'
    ∧ trace s' = [EvAdvance (Scenario.anchor "a2" false); EvQueueJob js res]
    ∧ Typ js = JobType_Anchor.
Proof. eexists _, _, _. split; [| split]; vm_compute; reflexivity. Qed.


(** C8, on an input where the code leaves it.  The advancement of a job
    that panics, with a stack of fewer than 1024 bytes: the stack is printed, the slice of the stack panics in the
    deferred function, and this panic leaves the task; the job is not
    transitioned to Failed. *)
Theorem advanceJob_panic_escapes :
  (String.length Scenario.short_stack < 1024)%nat
  ∧ advanceJobTask (E := Sim.env true) (SM := Sim.machines)
      (Scenario.manager 1 0) Scenario.e2e_no_tasks
      (Scenario.start [Scenario.e2e_no_tasks])
    = Panicked "slice bounds out of range [:1024] with length less"
        (mkSt (Sim.mkWorld [Scenario.e2e_no_tasks]
                 (<[DeployComponent_Ceramic := "sha-ceramic-xyz,prod"]> ∅)
                 Scenario.sched_now Scenario.short_stack)
           [EvPrintStack]).
Proof. split; [vm_compute; lia | vm_compute; reflexivity]. Qed.

End Runs.

(** * Further properties *)

(** ** The E2E test job, stage by stage *)

Section E2eSteps.
Import E2e.

Variable Getenv : string → string.
Variable LaunchService :
  string → string → string → string → gmap string string → result string.
Variable CheckTask : bool → string → list string → result bool.
Variable UpdateJob : JobState → error.
Variable PrintJob : JobState → string.
Variables now now' : Time.

Local Abbreviation advance :=
  (AdvanceJob Getenv LaunchService CheckTask UpdateJob PrintJob now now').
Local Abbreviation launch := (E2e.launch Getenv LaunchService).
Local Abbreviation stored := (E2e.stored UpdateJob).

Lemma startE2eTest_launch state config :
  startE2eTest Getenv LaunchService state config
  = match launch config with
    | Ok id => (set_Param state config (VStr id), None)
    | Err err => (state, Some err)
    end.
Proof. reflexivity. Qed.

Lemma e2e_in_time state :
  now - Ts state ≤ 2 * Hour →
  Time_After (Time_Add now (- FailureTime)) (Ts state) = false.
Proof.
  intros Hin. unfold Time_After, Time_Add, FailureTime. apply Z.ltb_ge. lia.
Qed.


(** X2.  An E2E test job in Started or Waiting, no older than 2 hours and
    with its three task ids in its params, probes the three tasks (for
    running in Started, for stopped in Waiting).  An error of a probe
    makes the job Failed; three probes that are met move it on, to Waiting
    from Started and to Completed from Waiting; in both cases it is handed
    to the store with [ts] set to the current time.  Otherwise the job is
    returned as it was, with no error, and the store is not reached. *)
Theorem e2e_poll_step (state : JobState) (id1 id2 id3 : string) :
  Stage state = JobStage_Started ∨ Stage state = JobStage_Waiting →
  now - Ts state ≤ 2 * Hour →
  Params state !! E2eTest_PrivatePublic = Some (VStr id1) →
  Params state !! E2eTest_LocalClientPublic = Some (VStr id2) →
  Params state !! E2eTest_LocalNodePrivate = Some (VStr id3) →
  let isRunning := bool_decide (Stage state = JobStage_Started) in
  let next := if isRunning then JobStage_Waiting else JobStage_Completed in
  let probe id := CheckTask isRunning "ceramic-qa-tests" [id] in
  advance state
  = match probe id1, probe id2, probe id3 with
    | Ok true, Ok true, Ok true =>
        Returns (stored (set_Ts (set_Stage state next) now'))
    | Ok _, Ok _, Ok _ => Returns (mkAdvanced state false None)
    | _, _, _ =>
        Returns (stored (set_Ts (set_Stage state JobStage_Failed) now'))
    end.
Proof.
  intros Hstage Hin H1 H2 H3. cbv zeta. unfold AdvanceJob.
  rewrite decide_False by (destruct Hstage as [-> | ->]; discriminate).
  rewrite e2e_in_time by done.
  assert (∀ isRunning next,
            poll CheckTask UpdateJob now' state isRunning next
            = match CheckTask isRunning "ceramic-qa-tests" [id1],
                    CheckTask isRunning "ceramic-qa-tests" [id2],
                    CheckTask isRunning "ceramic-qa-tests" [id3] with
              | Ok true, Ok true, Ok true =>
                  Returns (stored (set_Ts (set_Stage state next) now'))
              | Ok _, Ok _, Ok _ => Returns (mkAdvanced state false None)
              | _, _, _ =>
                  Returns
                    (stored (set_Ts (set_Stage state JobStage_Failed) now'))
              end) as Hpoll.
  { intros isRunning next. unfold poll, checkE2eTests, checkE2eTest.
    rewrite H1, H2, H3. cbn [as_string].
    destruct (CheckTask isRunning "ceramic-qa-tests" [id1]) as [[] |];
      destruct (CheckTask isRunning "ceramic-qa-tests" [id2]) as [[] |];
      destruct (CheckTask isRunning "ceramic-qa-tests" [id3]) as [[] |]; reflexivity. }
  destruct Hstage as [Hs | Hs]; rewrite Hs.
  - rewrite decide_True by done. rewrite bool_decide_eq_true_2 by done.
    apply Hpoll.
  - rewrite decide_False by discriminate. rewrite decide_True by done.
    rewrite bool_decide_eq_false_2 by discriminate. apply Hpoll.
Qed.


(** An E2E test job in a stage other than Queued, Started and
    Waiting, no older than 2 hours, is returned as it was with the error
    "anchorJob: unexpected state", and the store is not reached. *)
Lemma e2e_unexpected_stage (state : JobState) :
  Stage state ∉ [JobStage_Queued; JobStage_Started; JobStage_Waiting] →
  now - Ts state ≤ 2 * Hour →
  advance state
  = Returns (mkAdvanced state false
               (Some ("anchorJob: unexpected state: " +:+ PrintJob state))).
Proof.
  intros Hstage Hin. unfold AdvanceJob.
  rewrite decide_False by set_solver.
  rewrite e2e_in_time by done.
  rewrite decide_False by set_solver.
  rewrite decide_False by set_solver. reflexivity.
Qed.

(** X4.  Whatever an advancement of an E2E test job returns: the id and
    the type of the job are kept, and its params change in no entry but
    those of the three suites, and not at all when the job was not
    Queued.  A job that is handed to the store has [ts] set to the current
    time and is Started, Waiting, Completed or Failed, and the error of
    the store is the error returned; a job that is not handed to the
    store is returned as it was. *)
Theorem e2e_advance_invariants (state : JobState) (adv : advanced) :
  advance state = Returns adv →
  JobId (adv_state adv) = JobId state
  ∧ Typ (adv_state adv) = Typ state
  ∧ (∀ k, k ∉ [E2eTest_PrivatePublic; E2eTest_LocalClientPublic;
               E2eTest_LocalNodePrivate] →
          Params (adv_state adv) !! k = Params state !! k)
  ∧ (Stage state ≠ JobStage_Queued → Params (adv_state adv) = Params state)
  ∧ (adv_stored adv = true →
     Ts (adv_state adv) = now'
     ∧ adv_err adv = UpdateJob (adv_state adv)
     ∧ Stage (adv_state adv) ∈ [JobStage_Started; JobStage_Waiting;
                                JobStage_Completed; JobStage_Failed])
  ∧ (adv_stored adv = false → adv_state adv = state).
Proof.
  unfold AdvanceJob.
  assert (∀ isRunning next adv,
            next ∈ [JobStage_Waiting; JobStage_Completed] →
            poll CheckTask UpdateJob now' state isRunning next = Returns adv →
            JobId (adv_state adv) = JobId state
            ∧ Typ (adv_state adv) = Typ state
            ∧ Params (adv_state adv) = Params state
            ∧ (adv_stored adv = true →
               Ts (adv_state adv) = now'
               ∧ adv_err adv = UpdateJob (adv_state adv)
               ∧ Stage (adv_state adv)
                 ∈ [JobStage_Started; JobStage_Waiting;
                    JobStage_Completed; JobStage_Failed])
            ∧ (adv_stored adv = false → adv_state adv = state)) as Hpoll.
  { intros isRunning next adv' Hnext. unfold poll.
    destruct (checkE2eTests CheckTask state isRunning) as [[[] | err] | msg];
      [| | | discriminate]; intros [= <-]; cbn;
      (repeat split; try done; try discriminate; set_solver). }
  destruct (decide (Stage state = JobStage_Queued)) as [Hq | Hq].
  - unfold startE2eTests. rewrite startE2eTest_launch.
    destruct (launch E2eTest_PrivatePublic) as [id1 | err1];
      [rewrite startE2eTest_launch;
       destruct (launch E2eTest_LocalClientPublic) as [id2 | err2];
       [rewrite startE2eTest_launch;
        destruct (launch E2eTest_LocalNodePrivate) as [id3 | err3] |] |];
      intros [= <-]; cbn;
      (split; [done |]); (split; [done |]);
      (split; [intros k Hk; by rewrite ?lookup_insert_ne by set_solver |]);
      (split; [done |]); (split; [| discriminate]);
      intros _; (split; [done |]); (split; [done |]); set_solver.
  - destruct (Time_After _ _).
    { intros [= <-]. cbn.
      repeat split; try done; try discriminate. set_solver. }
    destruct (decide (Stage state = JobStage_Started)).
    { intros Hrun. apply Hpoll in Hrun; [| set_solver].
      destruct Hrun as (? & ? & Hps & ? & ?).
      split; [done |]. split; [done |].
      split; [intros; by rewrite Hps |]. done. }
    destruct (decide (Stage state = JobStage_Waiting)).
    { intros Hrun. apply Hpoll in Hrun; [| set_solver].
      destruct Hrun as (? & ? & Hps & ? & ?).
      split; [done |]. split; [done |].
      split; [intros; by rewrite Hps |]. done. }
    intros [= <-]. cbn. repeat split; try done; discriminate.
Qed.

End E2eSteps.

(** ** The deploy job, beyond Queued and the probes of Started *)

Section DeploySteps.
Import Deploy.

Variable GetDeployHashes : result (gmap string string).
Variable UpdateBuildHash : string → string → error.
Variable UpdateDeployHash : string → string → error.
Variable db_AdvanceJob : JobState → error.
Variable UpdateEnv : Layout → string → error.
Variable CheckEnv : Layout → result bool.
Variable GenerateEnvLayout : string → result Layout.
Variable IsTimedOut : JobState → Duration → bool.
Variable PrintJob : JobState → string.
Variable now : Time.

Local Abbreviation advance :=
  (AdvanceJob GetDeployHashes UpdateBuildHash UpdateDeployHash db_AdvanceJob
     UpdateEnv CheckEnv GenerateEnvLayout IsTimedOut PrintJob now).

Local Ltac no_report :=
  repeat first
    [ done
    | apply Forall_nil
    | apply Forall_cons; split; [cbn; tauto |]
    | apply Forall_app; split ].

Lemma checkEnv_no_report (d : deployJob) :
  Forall (fun c => ¬ reports c) (snd (checkEnv CheckEnv GenerateEnvLayout d)).
Proof.
  apply Forall_forall. intros c Hc.
  apply checkEnv_calls in Hc as (layout & _ & [-> | (_ & _ & [-> | Hc])]);
    [tauto | tauto |].
  destruct Hc as (cl & _ & ->). tauto.
Qed.

Lemma updateEnv_no_report (d : deployJob) h :
  Forall (fun c => ¬ reports c) (snd (updateEnv UpdateEnv d h)).
Proof.
  unfold updateEnv. destruct (as_layout _); cbn [snd]; [| constructor].
  constructor; [tauto | constructor].
Qed.

(** X5.  A deploy job in any stage but Queued that has timed out is
    transitioned to Failed with the error "timeout": the notifier and the
    store get this state and nothing else is called, so the environment is
    not probed; the error returned is that of the store.  This holds for a
    job that is Completed, Skipped or Failed already, too. *)
Theorem deploy_timeout (d : deployJob) :
  Stage (state d) ≠ JobStage_Queued →
  IsTimedOut (state d) DefaultFailureTime = true →
  let st' :=
    set_Param (set_Stage (state d) JobStage_Failed) JobParam_Error
      (VStr Error_Timeout) in
  advance d
  = ((st', db_AdvanceJob st'), [Call_NotifyJob st'; Call_AdvanceJob st']).
Proof.
  intros Hq Hlate. cbv zeta. unfold AdvanceJob.
  rewrite decide_False by done. rewrite Hlate. reflexivity.
Qed.

(** X6.  A deploy job in Started that has not timed out, whose layout is
    found deployed (and, for the Ipfs component, a freshly generated
    Ceramic layout too), is transitioned to Completed with its params
    unchanged.  After the probes the deploy hash of the component is set
    to the hash of the job, then the notifier and the store get the
    Completed job; a failure to set the deploy hash changes nothing of
    this, and the error returned is that of the store. *)
Theorem deploy_completes (d : deployJob) (layout : Layout) :
  Stage (state d) = JobStage_Started →
  IsTimedOut (state d) DefaultFailureTime = false →
  as_layout (Params (state d) !! JobParam_Layout) = Some layout →
  CheckEnv layout = Ok true →
  (component d = DeployComponent_Ipfs →
   ∃ ceramicLayout,
     GenerateEnvLayout DeployComponent_Ceramic = Ok ceramicLayout
     ∧ CheckEnv ceramicLayout = Ok true) →
  let st' := set_Stage (state d) JobStage_Completed in
  advance d
  = ((st', db_AdvanceJob st'),
     snd (checkEnv CheckEnv GenerateEnvLayout d)
     ++ [Call_UpdateDeployHash (component d) (sha d)
           (UpdateDeployHash (component d) (sha d));
         Call_NotifyJob st'; Call_AdvanceJob st']).
Proof.
  intros Hs Hlate Hlayout Hcheck Hipfs. cbv zeta. unfold AdvanceJob.
  rewrite decide_False by (rewrite Hs; discriminate).
  rewrite Hlate. rewrite decide_True by done.
  assert (fst (checkEnv CheckEnv GenerateEnvLayout d) = Ok true) as Hok.
  { unfold checkEnv. rewrite Hlayout, Hcheck. cbn [negb orb].
    destruct (String.eqb_spec (component d) DeployComponent_Ipfs)
      as [Hi | Hi]; cbn [negb]; [| done].
    destruct (Hipfs Hi) as (cl & -> & Hcl). done. }
  destruct (checkEnv CheckEnv GenerateEnvLayout d) as [r calls].
  cbn [fst snd] in *. subst r. unfold finish. cbn.
  by rewrite <- !app_assoc.
Qed.

(** A deploy job in a stage other than Queued and Started that has
    not timed out is returned as it was with the error
    "deployJob: unexpected state"; no collaborator is called. *)
Lemma deploy_unexpected_stage (d : deployJob) :
  Stage (state d) ∉ [JobStage_Queued; JobStage_Started] →
  IsTimedOut (state d) DefaultFailureTime = false →
  advance d
  = ((state d,
      Some ("deployJob: unexpected state: " +:+ PrintJob (state d))), []).
Proof.
  intros Hstage Hlate. unfold AdvanceJob.
  rewrite decide_False by set_solver. rewrite Hlate.
  rewrite decide_False by set_solver. reflexivity.
Qed.

Lemma finish_reports st calls :
  Forall (fun c => ¬ reports c) calls →
  Stage st ∈ [JobStage_Skipped; JobStage_Started; JobStage_Failed;
              JobStage_Completed] →
  ∃ pre,
    snd (finish db_AdvanceJob st calls)
    = pre ++ [Call_NotifyJob st; Call_AdvanceJob st]
    ∧ Forall (fun c => ¬ reports c) pre.
Proof.
  intros Hcalls Hstage. exists calls. split; [| done].
  unfold finish. cbn [snd].
  assert (bool_decide (Stage st = JobStage_Skipped)
          || bool_decide (Stage st = JobStage_Started)
          || bool_decide (Stage st = JobStage_Failed)
          || bool_decide (Stage st = JobStage_Completed) = true) as ->; [| done].
  repeat (apply elem_of_cons in Hstage as [-> | Hstage]; [done |]).
  by apply elem_of_nil in Hstage.
Qed.

(** X7.  Whatever stage a deploy job is advanced from: its id, its type
    and its [ts] are kept.  Either the job is handed on, and then the
    last two calls are the notification and the store update, both with
    the state that is returned, no other call is one of these, the error
    returned is that of the store, the job is Skipped, Started, Failed or
    Completed, and a Failed job has an error message in its params; or
    the job is returned as it was, neither the notifier nor the store is
    called, and the job was not Queued. *)
Theorem deploy_advance_invariants (d : deployJob) :
  let st' := fst (fst (advance d)) in
  let err := snd (fst (advance d)) in
  let calls := snd (advance d) in
  JobId st' = JobId (state d) ∧ Typ st' = Typ (state d)
  ∧ Ts st' = Ts (state d)
  ∧ ((∃ pre,
        calls = pre ++ [Call_NotifyJob st'; Call_AdvanceJob st']
        ∧ Forall (fun c => ¬ reports c) pre
        ∧ err = db_AdvanceJob st'
        ∧ Stage st' ∈ [JobStage_Skipped; JobStage_Started; JobStage_Failed;
                       JobStage_Completed]
        ∧ (Stage st' = JobStage_Failed →
           ∃ msg, Params st' !! JobParam_Error = Some (VStr msg)))
     ∨ (st' = state d ∧ Forall (fun c => ¬ reports c) calls
        ∧ Stage (state d) ≠ JobStage_Queued)).
Proof.
  cbv zeta. unfold AdvanceJob.
  assert (∀ st calls,
            JobId st = JobId (state d) → Typ st = Typ (state d) →
            Ts st = Ts (state d) →
            Forall (fun c => ¬ reports c) calls →
            Stage st ∈ [JobStage_Skipped; JobStage_Started; JobStage_Failed;
                        JobStage_Completed] →
            (Stage st = JobStage_Failed →
             ∃ msg, Params st !! JobParam_Error = Some (VStr msg)) →
            let r := finish db_AdvanceJob st calls in
            JobId (fst (fst r)) = JobId (state d)
            ∧ Typ (fst (fst r)) = Typ (state d)
            ∧ Ts (fst (fst r)) = Ts (state d)
            ∧ ((∃ pre,
                  snd r = pre ++ [Call_NotifyJob (fst (fst r));
                                  Call_AdvanceJob (fst (fst r))]
                  ∧ Forall (fun c => ¬ reports c) pre
                  ∧ snd (fst r) = db_AdvanceJob (fst (fst r))
                  ∧ Stage (fst (fst r))
                    ∈ [JobStage_Skipped; JobStage_Started; JobStage_Failed;
                       JobStage_Completed]
                  ∧ (Stage (fst (fst r)) = JobStage_Failed →
                     ∃ msg, Params (fst (fst r)) !! JobParam_Error
                            = Some (VStr msg)))
               ∨ (fst (fst r) = state d
                  ∧ Forall (fun c => ¬ reports c) (snd r)
                  ∧ Stage (state d) ≠ JobStage_Queued))) as Hfinish.
  { intros st calls Hid Hty Hts Hcalls Hstage Herr. cbv zeta.
    rewrite finish_state. cbn [fst snd].
    split; [done |]. split; [done |]. split; [done |]. left.
    destruct (finish_reports st calls Hcalls Hstage) as (pre & -> & Hpre).
    exists pre. done. }
  assert (∀ msg, ∃ msg',
            Params (failed (state d) msg) !! JobParam_Error
            = Some (VStr msg')) as Hfailed.
  { intros msg. exists msg. apply lookup_insert_eq. }
  destruct (decide (Stage (state d) = JobStage_Queued)) as [Hq | Hq].
  - destruct GetDeployHashes as [deployHashes | err].
    2: { apply Hfinish; [done | done | done | no_report | set_solver |].
         intros _. apply Hfailed. }
    destruct (_ && _).
    { apply Hfinish; [done | done | done | no_report | set_solver | done]. }
    pose proof (updateEnv_no_report d (sha d)) as Hupd.
    destruct (updateEnv UpdateEnv d (sha d)) as [[err |] calls];
      cbn [snd] in Hupd.
    + apply Hfinish; [done | done | done | no_report | set_solver |].
      intros _. apply Hfailed.
    + apply Hfinish; [done | done | done | no_report | set_solver | done].
  - destruct (IsTimedOut (state d) DefaultFailureTime).
    { apply Hfinish; [done | done | done | no_report | set_solver |].
      intros _. apply Hfailed. }
    destruct (decide (Stage (state d) = JobStage_Started)).
    2: { cbn [fst snd]. split; [done |]. split; [done |]. split; [done |].
         right. split; [done |]. split; [no_report | done]. }
    pose proof (checkEnv_no_report d) as Hprobe.
    destruct (checkEnv CheckEnv GenerateEnvLayout d) as [[[] | err] calls];
      cbn [snd] in Hprobe.
    + apply Hfinish; [done | done | done | no_report | set_solver | done].
    + cbn [fst snd]. split; [done |]. split; [done |]. split; [done |].
      right. done.
    + apply Hfinish; [done | done | done | no_report | set_solver |].
      intros _. apply Hfailed.
Qed.

End DeploySteps.

(** ** The ECS deployment adapter: tasks, layouts, registries, services *)

Section EcsMore.
Import Ecs.

Lemma checkTasks_true (checkStatus : string) (tasks : list Task) e :
  checkTasks checkStatus tasks = Returns (true, e) ↔
  e = None ∧ Forall (fun task => LastStatus task = Some checkStatus) tasks.
Proof.
  induction tasks as [|task tasks IH]; cbn [checkTasks].
  { split; [by intros [= <-] | by intros [-> _]]. }
  rewrite Forall_cons. destruct (LastStatus task) as [st |].
  - destruct (String.eqb_spec st checkStatus) as [-> | Hne].
    + rewrite IH. tauto.
    + split; [discriminate | intros (_ & [= ?] & _); done].
  - split; [discriminate | intros (_ & [=] & _)].
Qed.

Lemma checkTasks_nil_status (checkStatus : string)
    (before after : list Task) (task : Task) :
  Forall (fun task => LastStatus task = Some checkStatus) before →
  LastStatus task = None →
  checkTasks checkStatus (before ++ task :: after)
  = Panics "nil pointer dereference".
Proof.
  intros Hbefore Hnil.
  induction Hbefore as [|t before Ht _ IH]; cbn [app checkTasks].
  - by rewrite Hnil.
  - by rewrite Ht, String.eqb_refl.
Qed.

(** X8.  [CheckTask] returns true exactly when the describe call
    succeeds, returns at least one task record, and every record it returns
    has the status asked for, RUNNING or STOPPED; no error comes with a
    true.  The records are those that the call returns: the tasks that
    were asked for play no part beyond the call. *)
Theorem CheckTask_true_iff
    (DescribeTasks : string → list string → result DescribeTasksOutput)
    (running : bool) (cluster : string) (taskArn : list string) (e : error) :
  CheckTask DescribeTasks running cluster taskArn = Returns (true, e) ↔
  e = None
  ∧ ∃ descOutput,
      DescribeTasks cluster taskArn = Ok descOutput
      ∧ Tasks descOutput ≠ []
      ∧ Forall (fun task =>
                  LastStatus task
                  = Some (if running then "RUNNING" else "STOPPED"))
          (Tasks descOutput).
Proof.
  unfold CheckTask.
  destruct (DescribeTasks cluster taskArn) as [[tasks] | err]; cbn [Tasks].
  2: { split; [discriminate | by intros (_ & ? & [=] & _)]. }
  destruct tasks as [|task tasks].
  { split; [discriminate | by intros (_ & ? & [= <-] & ? & _)]. }
  change (0 <? Z.of_nat (length (task :: tasks))) with true. cbv iota.
  rewrite checkTasks_true.
  change DesiredStatusRunning with "RUNNING".
  change DesiredStatusStopped with "STOPPED".
  split.
  - intros [-> Hall]. split; [done |]. by exists {| Tasks := task :: tasks |}.
  - intros (-> & out & [= <-] & _ & Hall). done.
Qed.

(** X9.  [CheckTask] panics when a task record without a status comes
    after records that all have the status asked for: the status is
    dereferenced without a check. *)
Theorem CheckTask_nil_status
    (DescribeTasks : string → list string → result DescribeTasksOutput)
    (running : bool) (cluster : string) (taskArn : list string)
    (before after : list Task) (task : Task) :
  DescribeTasks cluster taskArn
  = Ok {| Tasks := before ++ task :: after |} →
  Forall (fun task =>
            LastStatus task = Some (if running then "RUNNING" else "STOPPED"))
    before →
  LastStatus task = None →
  CheckTask DescribeTasks running cluster taskArn
  = Panics "nil pointer dereference".
Proof.
  intros Hdesc Hbefore Hnil. unfold CheckTask. rewrite Hdesc. cbn [Tasks].
  assert ((0 <? Z.of_nat (length (before ++ task :: after))) = true) as ->.
  { apply Z.ltb_lt. rewrite length_app. cbn [length]. lia. }
  cbv iota.
  change DesiredStatusRunning with "RUNNING".
  change DesiredStatusStopped with "STOPPED".
  by apply checkTasks_nil_status.
Qed.

Lemma PopulateLayout_keys (privateLayout publicLayout casLayout
    : option (gmap string Value)) env cluster :
  is_Some ((<[casCluster env := VMap casLayout]>
              (<[publicCluster env := VMap publicLayout]>
                 (<[privateCluster env := VMap privateLayout]>
                    (∅ : gmap string Value))))
           !! cluster) ↔
  cluster = privateCluster env ∨ cluster = publicCluster env
  ∨ cluster = casCluster env.
Proof.
  rewrite !lookup_insert_is_Some', lookup_empty, is_Some_alt. intuition.
Qed.

(** [PopulateLayout] fails exactly on a component other than
    ceramic, ipfs and cas, with the error
    "deployJob: unexpected component"; for each of the three components
    the layout has the three cluster names of the environment as its keys,
    and no other. *)
Lemma PopulateLayout_clusters (e_env env component : string) :
  match PopulateLayout e_env env component with
  | Ok layout =>
      (component ∈ [DeployComponent_Ceramic; DeployComponent_Ipfs;
                    DeployComponent_Cas])
      ∧ ∀ cluster, is_Some (layout !! cluster) ↔
          cluster = privateCluster env ∨ cluster = publicCluster env
          ∨ cluster = casCluster env
  | Err msg =>
      (component ∉ [DeployComponent_Ceramic; DeployComponent_Ipfs;
                    DeployComponent_Cas])
      ∧ msg = "deployJob: unexpected component: " +:+ component
  end.
Proof.
  unfold PopulateLayout.
  destruct (String.eqb_spec component DeployComponent_Ceramic) as [-> | H1].
  { split; [set_solver | apply PopulateLayout_keys]. }
  destruct (String.eqb_spec component DeployComponent_Ipfs) as [-> | H2].
  { split; [set_solver | apply PopulateLayout_keys]. }
  destruct (String.eqb_spec component DeployComponent_Cas) as [-> | H3].
  { split; [set_solver | apply PopulateLayout_keys]. }
  split; [set_solver | done].
Qed.

Lemma withElp_keys e_env elp1 elp2 (publicLayout : gmap string Value) service :
  is_Some (withElp e_env elp1 elp2 publicLayout !! service) ↔
  is_Some (publicLayout !! service)
  ∨ (e_env = EnvType_Prod
     ∧ (service = svc globalPrefix elp1 ∨ service = svc globalPrefix elp2)).
Proof.
  unfold withElp. destruct (String.eqb_spec e_env EnvType_Prod) as [-> | Hne].
  - rewrite !lookup_insert_is_Some'. intuition.
  - intuition.
Qed.

(** X10.  The layouts of the Ceramic and of the Ipfs component: the
    private and the CAS cluster hold one service each, the node of the
    component, and the public cluster holds the node and the gateway.  The
    public cluster holds the two ELP nodes in addition exactly when the
    adapter was created for the prod environment; their names start with
    "ceramic-elp-", whatever the environment of the call. *)
Theorem PopulateLayout_nodes (e_env env component node gateway : string) :
  (component, node, gateway) = (DeployComponent_Ceramic, "node", "gateway")
  ∨ (component, node, gateway) = (DeployComponent_Ipfs, "ipfs-nd", "ipfs-gw") →
  ∃ layout privateLayout publicLayout casLayout,
    PopulateLayout e_env env component = Ok layout
    ∧ layout !! privateCluster env = Some (VMap (Some privateLayout))
    ∧ layout !! publicCluster env = Some (VMap (Some publicLayout))
    ∧ layout !! casCluster env = Some (VMap (Some casLayout))
    ∧ (∀ service, is_Some (privateLayout !! service) ↔
         service = svc (privateCluster env) node)
    ∧ (∀ service, is_Some (casLayout !! service) ↔
         service = svc (casCluster env) node)
    ∧ (∀ service, is_Some (publicLayout !! service) ↔
         service = svc (publicCluster env) node
         ∨ service = svc (publicCluster env) gateway
         ∨ (e_env = "prod"
            ∧ (service = "ceramic-elp-1-1-" +:+ node
               ∨ service = "ceramic-elp-1-2-" +:+ node))).
Proof.
  pose proof (privateCluster_ne_publicCluster env) as Hpx.
  pose proof (privateCluster_ne_casCluster env) as Hpc.
  pose proof (publicCluster_ne_casCluster env) as Hxc.
  intros [[= -> -> ->] | [= -> -> ->]]; eexists _, _, _, _;
    (split; [reflexivity |]);
    (split; [by rewrite lookup_insert_ne, lookup_insert_ne, lookup_insert_eq |]);
    (split; [by rewrite lookup_insert_ne, lookup_insert_eq |]);
    (split; [by rewrite lookup_insert_eq |]);
    (split; [intros service;
             rewrite lookup_insert_is_Some', lookup_empty, is_Some_alt;
             intuition |]);
    (split; [intros service;
             rewrite lookup_insert_is_Some', lookup_empty, is_Some_alt;
             intuition |]);
    intros service;
    rewrite withElp_keys, !lookup_insert_is_Some', lookup_empty, is_Some_alt;
    change EnvType_Prod with "prod"; cbv [svc globalPrefix];
    intuition.
Qed.

Lemma registry_repos_distinct (env : string) :
  "ceramic-" +:+ env ≠ "go-ipfs-" +:+ env
  ∧ "ceramic-" +:+ env ≠ ("ceramic-" +:+ env) +:+ "-cas"
  ∧ "go-ipfs-" +:+ env ≠ ("ceramic-" +:+ env) +:+ "-cas".
Proof.
  split; [| split].
  - rewrite !append_cons. discriminate.
  - intros Heq. apply (f_equal String.length) in Heq.
    rewrite !length_append in Heq. simpl in Heq. lia.
  - rewrite append_assoc, !append_cons. discriminate.
Qed.

(** X11.  [GetRegistryUri] fails exactly on a component other than
    ceramic, ipfs and cas, and gives two different components two
    different registries, whatever the environment, the account and the
    region. *)
Theorem GetRegistryUri_distinct (Getenv : string → string)
    (component1 component2 : string) :
  ((∃ uri, GetRegistryUri Getenv component1 = Ok uri) ↔
   component1 ∈ [DeployComponent_Ceramic; DeployComponent_Ipfs;
                 DeployComponent_Cas])
  ∧ ∀ uri,
      GetRegistryUri Getenv component1 = Ok uri →
      GetRegistryUri Getenv component2 = Ok uri →
      component1 = component2.
Proof.
  destruct (registry_repos_distinct (Getenv "ENV")) as (H12 & H13 & H23).
  unfold GetRegistryUri. split.
  - destruct (String.eqb_spec component1 DeployComponent_Ceramic) as [-> | ?].
    { split; [set_solver | eauto]. }
    destruct (String.eqb_spec component1 DeployComponent_Ipfs) as [-> | ?].
    { split; [set_solver | eauto]. }
    destruct (String.eqb_spec component1 DeployComponent_Cas) as [-> | ?].
    { split; [set_solver | eauto]. }
    split; [by intros [? [=]] | set_solver].
  - intros uri.
    destruct (String.eqb_spec component1 DeployComponent_Ceramic) as [-> | ?];
      [| destruct (String.eqb_spec component1 DeployComponent_Ipfs)
           as [-> | ?];
         [| destruct (String.eqb_spec component1 DeployComponent_Cas)
              as [-> | ?]; [| discriminate]]];
      (destruct (String.eqb_spec component2 DeployComponent_Ceramic)
         as [-> | ?];
       [| destruct (String.eqb_spec component2 DeployComponent_Ipfs)
            as [-> | ?];
          [| destruct (String.eqb_spec component2 DeployComponent_Cas)
               as [-> | ?]; [| discriminate]]]);
      try done;
      intros [= <-] [= Heq]; apply append_inv_head in Heq; congruence.
Qed.

Lemma checkDeployments_true (taskDefArn : string)
    (deployments : list Deployment) e :
  checkDeployments taskDefArn deployments = Returns (true, e) ↔
  e = None
  ∧ ∃ before deployment after,
      deployments = before ++ deployment :: after
      ∧ Forall (fun d => is_Some (TaskDefinition d)) before
      ∧ serves taskDefArn deployment.
Proof.
  induction deployments as [|d deployments IH]; cbn [checkDeployments].
  { split; [discriminate |]. intros (_ & [|? ?] & ? & ? & [=] & _). }
  destruct (TaskDefinition d) as [taskDef |] eqn:Htd.
  - destruct (String.eqb taskDef taskDefArn && (0 <? RunningCount d))
      eqn:Hserves.
    + apply andb_true_iff in Hserves as [->%String.eqb_eq Hrun%Z.ltb_lt].
      split; [| by intros [-> _]]. intros [= <-]. split; [done |].
      exists [], d, deployments. repeat split; [constructor | done..].
    + rewrite IH. split.
      * intros (-> & before & dep & after & -> & Hbefore & Hdep).
        split; [done |]. exists (d :: before), dep, after.
        repeat split; [| apply Hdep..]. constructor; [by rewrite Htd | done].
      * intros (-> & [|d' before] & dep & after & [= <- Heq] & Hbefore & Hdep).
        -- subst. destruct Hdep as [Hdef Hrun].
           rewrite Htd in Hdef. injection Hdef as ->.
           rewrite String.eqb_refl in Hserves.
           apply Z.ltb_lt in Hrun. by rewrite Hrun in Hserves.
        -- split; [done |]. exists before, dep, after.
           inversion Hbefore; subst. done.
  - split; [discriminate |].
    intros (_ & [|d' before] & dep & after & [= <- Heq] & Hbefore & Hdep).
    + destruct Hdep as [Hdef _]. congruence.
    + inversion Hbefore as [|? ? [? Hsome] _]; subst. congruence.
Qed.

(** X12.  [CheckService] returns true exactly when the describe call
    succeeds and reports no failure, and a deployment of the first service
    it describes uses the given task definition and has at least one task
    running, the deployments before it all naming a task definition; no
    error comes with a true.  When the call reports failures, the result
    is false with the failures as the error, whatever the services are. *)
Theorem CheckService_true_iff
    (DescribeServices : string → list string → result DescribeServicesOutput)
    (Sprint_v : list ecsFailure → string)
    (cluster service taskDefArn : string) (e : error) :
  (CheckService DescribeServices Sprint_v cluster service taskDefArn
   = Returns (true, e) ↔
   e = None
   ∧ ∃ service0 services before deployment after,
       DescribeServices cluster [service]
       = Ok {| Failures := []; Services := service0 :: services |}
       ∧ Deployments service0 = before ++ deployment :: after
       ∧ Forall (fun d => is_Some (TaskDefinition d)) before
       ∧ serves taskDefArn deployment)
  ∧ ∀ descOutput,
      DescribeServices cluster [service] = Ok descOutput →
      Failures descOutput ≠ [] →
      CheckService DescribeServices Sprint_v cluster service taskDefArn
      = Returns (false,
                 Some (Sprint_v (parseEcsFailures (Failures descOutput)))).
Proof.
  split.
  2: { intros [failures services] Hdesc Hfail. unfold CheckService.
       rewrite Hdesc. cbn [Failures] in *.
       by destruct failures. }
  unfold CheckService.
  destruct (DescribeServices cluster [service]) as [[failures services] | err];
    cbn [Failures Services].
  2: { split; [discriminate |]. by intros (_ & ? & ? & ? & ? & ? & [=] & _). }
  destruct failures as [|f failures].
  2: { change (0 <? Z.of_nat (length (f :: failures))) with true. cbv iota.
       split; [discriminate |].
       by intros (_ & ? & ? & ? & ? & ? & [=] & _). }
  change (0 <? Z.of_nat (length (@nil Failure))) with false. cbv iota.
  destruct services as [|service0 services].
  { split; [discriminate |]. by intros (_ & ? & ? & ? & ? & ? & [=] & _). }
  rewrite checkDeployments_true. split.
  - intros (-> & before & dep & after & Hsplit & Hbefore & Hdep).
    split; [done |]. by exists service0, services, before, dep, after.
  - intros (-> & ? & ? & before & dep & after & [= <- <-] & Hsplit & Hrest).
    split; [done |]. by exists before, dep, after.
Qed.

End EcsMore.

(** ** The construction of a deploy job *)

Section ConstructorProperties.
Import Deploy.

Variable GetDeployHashes : result (gmap string string).
Variable GetBuildHashes : result (gmap string string).
Variable WriteJob : JobState → error.
Variable GenerateEnvLayout : string → result Layout.
Variable GetLatestCommitHash : string → string → result string.
Variable ComponentRepo : string → string.
Variable EnvBranch : string → string.
Variable IsValidSha : string → bool.
Variable BuildHashLatest : string.
Variable Getenv : string → string.

Local Abbreviation construct :=
  (DeployJob GetDeployHashes GetBuildHashes WriteJob GenerateEnvLayout
     GetLatestCommitHash ComponentRepo EnvBranch IsValidSha BuildHashLatest
     Getenv).
Local Abbreviation resolve :=
  (resolveSha GetDeployHashes GetBuildHashes GetLatestCommitHash
     ComponentRepo EnvBranch IsValidSha BuildHashLatest Getenv).

(** X13.  A job state that holds a layout is taken as it is: the
    constructor calls no collaborator and leaves the params alone, and the
    job it builds has the component and the commit hash of the params and
    is not manual, whatever the params say of [manual] and [rollback]; it
    fails only for want of a component or of a commit hash. *)
Theorem DeployJob_as_given (jobState : JobState) :
  is_Some (Params jobState !! JobParam_Layout) →
  setup (construct jobState) = []
  ∧ params_left (construct jobState) = Params jobState
  ∧ match built (construct jobState) with
    | Ok d =>
        state d = jobState ∧ manual d = false
        ∧ Params jobState !! JobParam_Component = Some (VStr (component d))
        ∧ Params jobState !! JobParam_Sha = Some (VStr (sha d))
    | Err _ =>
        as_string (Params jobState !! JobParam_Component) = None
        ∨ as_string (Params jobState !! JobParam_Sha) = None
    end.
Proof.
  intros [layout Hlayout]. unfold DeployJob.
  destruct (Params jobState !! JobParam_Component) as [[] |] eqn:Hc;
    cbn [as_string]; try (repeat split; by left).
  destruct (Params jobState !! JobParam_Sha) as [[] |] eqn:Hs;
    cbn [as_string]; try (repeat split; by right).
  rewrite Hlayout. done.
Qed.

(** X14.  A job state without a layout, with a component and a commit
    hash, whose lookups succeed and which the store writes: the hash to
    deploy is the deploy hash of the component for a rollback; else the
    head of the branch when the hash given is the one that stands for the
    latest; else the hash given when it is a valid one, and the build hash
    of the component when it is not, and in these two cases the job is
    manual.  The params get this hash, [manual=true] for a manual job, and
    the generated layout; the job is written to the store, then
    notified. *)
Theorem DeployJob_resolves (jobState : JobState) (c sha0 sha1 : string)
    (manual1 : bool) (envLayout : Layout) :
  Params jobState !! JobParam_Component = Some (VStr c) →
  Params jobState !! JobParam_Sha = Some (VStr sha0) →
  Params jobState !! JobParam_Layout = None →
  GenerateEnvLayout c = Ok envLayout →
  (∀ js, WriteJob js = None) →
  let rollback := fst (as_bool (Params jobState !! JobParam_Rollback)) in
  (rollback = true ∧ manual1 = false
   ∧ ∃ deployHashes,
       GetDeployHashes = Ok deployHashes ∧ sha1 = str_at deployHashes c)
  ∨ (rollback = false ∧ sha0 = BuildHashLatest ∧ manual1 = false
     ∧ GetLatestCommitHash (ComponentRepo c) (EnvBranch (Getenv "ENV"))
       = Ok sha1)
  ∨ (rollback = false ∧ sha0 ≠ BuildHashLatest ∧ manual1 = true
     ∧ IsValidSha sha0 = true ∧ sha1 = sha0)
  ∨ (rollback = false ∧ sha0 ≠ BuildHashLatest ∧ manual1 = true
     ∧ IsValidSha sha0 = false
     ∧ ∃ buildHashes,
         GetBuildHashes = Ok buildHashes ∧ sha1 = str_at buildHashes c) →
  let hashed := set_Param jobState JobParam_Sha (VStr sha1) in
  let js' :=
    set_Param
      (if manual1 then set_Param hashed JobParam_Manual (VBool true)
       else hashed)
      JobParam_Layout (VLayout envLayout) in
  ∃ lookups,
    construct jobState
    = mkConstructed (Ok (mkDeployJob js' c sha1 manual1)) (Params js')
        (lookups ++ [Setup_GenerateEnvLayout c; Setup_WriteJob js';
                     Setup_NotifyJob js'])
    ∧ lookups = snd (resolve jobState c sha0).
Proof.
  intros Hc Hs Hl Hgen Hwrite. cbv zeta. intros Hcase.
  unfold DeployJob. rewrite Hc, Hs, Hl. cbn [as_string].
  assert (fst (resolve jobState c sha0) = Ok (sha1, manual1)) as Hres.
  { unfold resolveSha.
    destruct Hcase as [(-> & -> & dh & -> & ->)
                      | [(-> & -> & -> & Hlatest)
                        | [(-> & Hne & -> & Hvalid & ->)
                          | (-> & Hne & -> & Hvalid & bh & -> & ->)]]].
    - done.
    - by rewrite String.eqb_refl, Hlatest.
    - apply String.eqb_neq in Hne. by rewrite Hne, Hvalid.
    - apply String.eqb_neq in Hne. by rewrite Hne, Hvalid. }
  destruct (resolve jobState c sha0) as [r lookups]. cbn [fst snd] in *.
  subst r. rewrite Hgen, Hwrite. by exists lookups.
Qed.

Lemma resolve_calls (jobState : JobState) (c sha0 : string) call :
  call ∈ snd (resolve jobState c sha0) →
  call = Setup_GetDeployHashes ∨ call = Setup_GetBuildHashes
  ∨ ∃ repo branch, call = Setup_GetLatestCommitHash repo branch.
Proof.
  unfold resolveSha.
  destruct (fst (as_bool _)).
  { destruct GetDeployHashes; cbn [snd];
      intros ->%list_elem_of_singleton; auto. }
  destruct (String.eqb sha0 BuildHashLatest).
  { destruct (GetLatestCommitHash _ _); cbn [snd];
      intros ->%list_elem_of_singleton; eauto. }
  destruct (negb (IsValidSha sha0)); [| by intros ?%elem_of_nil].
  destruct GetBuildHashes; cbn [snd];
    intros ->%list_elem_of_singleton; auto.
Qed.

(** X15.  Whatever job state the constructor is given: the params it
    leaves differ from those it was given in no entry but [sha], [manual]
    and [layout].  A job that is built has the stage, the time, the id and
    the type it was given, the params that are left, a layout and its
    commit hash in them, and the component of the params; either no call
    was made, or the last two calls wrote the job to the store, without an
    error, and notified it, in this order.  When the constructor fails,
    no job is notified. *)
Theorem DeployJob_invariants (jobState : JobState) :
  let r := construct jobState in
  (∀ k, k ∉ [JobParam_Sha; JobParam_Manual; JobParam_Layout] →
        params_left r !! k = Params jobState !! k)
  ∧ match built r with
    | Ok d =>
        Stage (state d) = Stage jobState ∧ Ts (state d) = Ts jobState
        ∧ JobId (state d) = JobId jobState ∧ Typ (state d) = Typ jobState
        ∧ Params (state d) = params_left r
        ∧ is_Some (Params (state d) !! JobParam_Layout)
        ∧ Params (state d) !! JobParam_Sha = Some (VStr (sha d))
        ∧ Params jobState !! JobParam_Component = Some (VStr (component d))
        ∧ (setup r = []
           ∨ ∃ lookups,
               setup r
               = lookups ++ [Setup_GenerateEnvLayout (component d);
                             Setup_WriteJob (state d);
                             Setup_NotifyJob (state d)]
               ∧ WriteJob (state d) = None
               ∧ lookups = snd (resolve jobState (component d)
                                  (default EmptyString
                                     (as_string (Params jobState
                                                 !! JobParam_Sha)))))
    | Err _ => ∀ js, Setup_NotifyJob js ∉ setup r
    end.
Proof.
  cbv zeta. unfold DeployJob.
  destruct (Params jobState !! JobParam_Component) as [vc |] eqn:Hc.
  2: { cbn [as_string]. split; [done |]. intros js. apply not_elem_of_nil. }
  destruct (as_string (Some vc)) as [c |] eqn:Hvc.
  2: { split; [done |]. intros js. apply not_elem_of_nil. }
  assert (vc = VStr c) as -> by (destruct vc; by try injection Hvc as ->).
  destruct (Params jobState !! JobParam_Sha) as [vs |] eqn:Hs.
  2: { cbn [as_string]. split; [done |]. intros js. apply not_elem_of_nil. }
  destruct (as_string (Some vs)) as [sha0 |] eqn:Hvs.
  2: { split; [done |]. intros js. apply not_elem_of_nil. }
  assert (vs = VStr sha0) as -> by (destruct vs; by try injection Hvs as ->).
  destruct (Params jobState !! JobParam_Layout) as [layout |] eqn:Hl.
  { cbn. split; [done |]. repeat split; eauto. }
  pose proof (resolve_calls jobState c sha0) as Hcalls.
  destruct (resolve jobState c sha0) as [[[sha1 manual1] | err] lookups] eqn:Hr;
    cbn [snd] in Hcalls.
  2: { cbn. split; [done |]. intros js Hin.
       apply Hcalls in Hin as [? | [? | (? & ? & ?)]]; done. }
  assert (∀ k, k ∉ [JobParam_Sha; JobParam_Manual; JobParam_Layout] →
               Params (if manual1
                       then set_Param
                              (set_Param jobState JobParam_Sha (VStr sha1))
                              JobParam_Manual (VBool true)
                       else set_Param jobState JobParam_Sha (VStr sha1)) !! k
               = Params jobState !! k) as Hkeep.
  { intros k Hk.
    assert (k ≠ JobParam_Sha ∧ k ≠ JobParam_Manual) as [Hk1 Hk2]
      by set_solver.
    destruct manual1; cbn [set_Param Params];
      by rewrite ?lookup_insert_ne. }
  assert (Params (if manual1
                  then set_Param
                         (set_Param jobState JobParam_Sha (VStr sha1))
                         JobParam_Manual (VBool true)
                  else set_Param jobState JobParam_Sha (VStr sha1))
          !! JobParam_Sha = Some (VStr sha1)) as Hsha.
  { destruct manual1; cbn [set_Param Params].
    - rewrite lookup_insert_ne by done. apply lookup_insert_eq.
    - apply lookup_insert_eq. }
  destruct (GenerateEnvLayout c) as [envLayout | err].
  2: { cbn [built params_left setup]. split; [done |]. intros js Hin.
       apply elem_of_app in Hin as [Hin | Hin%list_elem_of_singleton];
         [| done].
       apply Hcalls in Hin as [? | [? | (? & ? & ?)]]; done. }
  assert (∀ k, k ∉ [JobParam_Sha; JobParam_Manual; JobParam_Layout] →
               Params (set_Param
                         (if manual1
                          then set_Param
                                 (set_Param jobState JobParam_Sha (VStr sha1))
                                 JobParam_Manual (VBool true)
                          else set_Param jobState JobParam_Sha (VStr sha1))
                         JobParam_Layout (VLayout envLayout)) !! k
               = Params jobState !! k) as Hkeep'.
  { intros k Hk. cbn [set_Param Params].
    rewrite lookup_insert_ne by set_solver. by apply Hkeep. }
  destruct (WriteJob _) as [err |] eqn:Hw; cbn [built params_left setup].
  { split; [done |]. intros js Hin.
    apply elem_of_app in Hin as [Hin | Hin].
    - apply Hcalls in Hin as [? | [? | (? & ? & ?)]]; done.
    - apply elem_of_cons in Hin as [? | Hin%list_elem_of_singleton]; done. }
  split; [done |]. cbn [state component sha].
  split; [by destruct manual1 |]. split; [by destruct manual1 |].
  split; [by destruct manual1 |]. split; [by destruct manual1 |].
  split; [done |].
  split; [cbn [set_Param Params]; rewrite lookup_insert_eq; eauto |].
  split; [cbn [set_Param Params]; by rewrite lookup_insert_ne |].
  split; [done |].
  right. exists lookups. split; [done |]. split; [done |].
  change (default EmptyString (Some sha0)) with sha0. by rewrite Hr.
Qed.

End ConstructorProperties.

(** ** The first advancement of a rollback *)

Section RollbackProperties.
Import Deploy.

Variable GetDeployHashes : result (gmap string string).
Variable GetBuildHashes : result (gmap string string).
Variable WriteJob : JobState → error.
Variable GenerateEnvLayout : string → result Layout.
Variable GetLatestCommitHash : string → string → result string.
Variable ComponentRepo : string → string.
Variable EnvBranch : string → string.
Variable IsValidSha : string → bool.
Variable BuildHashLatest : string.
Variable Getenv : string → string.
Variable UpdateBuildHash : string → string → error.
Variable UpdateDeployHash : string → string → error.
Variable db_AdvanceJob : JobState → error.
Variable UpdateEnv : Layout → string → error.
Variable CheckEnv : Layout → result bool.
Variable IsTimedOut : JobState → Duration → bool.
Variable PrintJob : JobState → string.
Variable now : Time.

(** X16.  A Queued rollback job without a layout that the constructor
    builds is given the deploy hash of its component as its commit hash
    and is not manual; so its first advancement, when the store gives the
    same deploy hashes again, finds this hash deployed and transitions the
    job to Skipped: [UpdateEnv] is not called. *)
Theorem rollback_deploy_is_skipped (jobState : JobState) (d : deployJob) :
  Stage jobState = JobStage_Queued →
  fst (as_bool (Params jobState !! JobParam_Rollback)) = true →
  Params jobState !! JobParam_Layout = None →
  built (DeployJob GetDeployHashes GetBuildHashes WriteJob GenerateEnvLayout
           GetLatestCommitHash ComponentRepo EnvBranch IsValidSha
           BuildHashLatest Getenv jobState) = Ok d →
  let r := AdvanceJob GetDeployHashes UpdateBuildHash UpdateDeployHash
             db_AdvanceJob UpdateEnv CheckEnv GenerateEnvLayout IsTimedOut
             PrintJob now d in
  Stage (fst (fst r)) = JobStage_Skipped
  ∧ fst (fst r) = set_Stage (state d) JobStage_Skipped
  ∧ no_UpdateEnv (snd r).
Proof.
  intros Hq Hrb Hl. unfold DeployJob.
  destruct (as_string (Params jobState !! JobParam_Component)) as [c |];
    [| discriminate].
  destruct (as_string (Params jobState !! JobParam_Sha)) as [sha0 |];
    [| discriminate].
  rewrite Hl. unfold resolveSha. rewrite Hrb.
  destruct GetDeployHashes as [deployHashes | err] eqn:Hdh; [| discriminate].
  destruct (GenerateEnvLayout c) as [envLayout |]; [| discriminate].
  destruct (WriteJob _); [discriminate |].
  cbn [built]. intros [= <-]. cbv zeta.
  unfold AdvanceJob. cbn [state manual sha component].
  rewrite decide_True by done.
  rewrite String.eqb_refl. cbn [negb andb].
  rewrite finish_state. cbn [fst]. split; [done |]. split; [done |].
  apply finish_no_UpdateEnv, no_UpdateEnv_fetch.
Qed.

End RollbackProperties.

(** ** The construction of the manager *)

Section ManagerProperties.
Import JobManager.

Variable LookupEnv : string → option string.
Variable EnvVar_Env : string.

Lemma strconv_Atoi_range (s : string) (n : Z) :
  strconv_Atoi s = Some n → - 2 ^ 63 ≤ n < 2 ^ 63.
Proof.
  unfold strconv_Atoi.
  destruct (match s with
            | EmptyString => (false, s)
            | String c s' =>
                if Ascii.eqb c "-" then (true, s')
                else if Ascii.eqb c "+" then (false, s') else (false, s)
            end) as [neg body].
  destruct body as [|c body]; [discriminate |].
  destruct (digits_value (String c body) 0) as [v |]; [| discriminate].
  destruct ((- 2 ^ 63 <=? (if neg then - v else v))
            && ((if neg then - v else v) <? 2 ^ 63)) eqn:Hin; [| discriminate].
  intros [= <-]. apply andb_true_iff in Hin as [?%Z.leb_le ?%Z.ltb_lt]. lia.
Qed.

(** X17.  A manager that [NewJobManager] builds has [minAnchorJobs] no
    greater than [maxAnchorJobs], both within the range of an [int]; so
    an unbounded manager, with [maxAnchorJobs = -1], has a negative
    [minAnchorJobs].  It is paused exactly when [PAUSED] is one of 1, t,
    T, TRUE, true and True, and its environment is that of the
    environment variable. *)
Theorem NewJobManager_bounds (m : JobManager) :
  NewJobManager LookupEnv EnvVar_Env = Ok m →
  minAnchorJobs m ≤ maxAnchorJobs m
  ∧ - 2 ^ 63 ≤ minAnchorJobs m ∧ maxAnchorJobs m < 2 ^ 63
  ∧ (maxAnchorJobs m = -1 → minAnchorJobs m < 0)
  ∧ (paused m = true ↔
     Getenv LookupEnv "PAUSED" ∈ ["1"; "t"; "T"; "TRUE"; "true"; "True"])
  ∧ env m = Getenv LookupEnv EnvVar_Env.
Proof.
  unfold NewJobManager.
  set (maxAnchorJobs :=
         match LookupEnv "CAS_MAX_ANCHOR_WORKERS" with
         | Some config =>
             match strconv_Atoi config with
             | Some parsed => parsed
             | None => defaultCasMaxAnchorWorkers
             end
         | None => defaultCasMaxAnchorWorkers
         end).
  set (minAnchorJobs :=
         match LookupEnv "CAS_MIN_ANCHOR_WORKERS" with
         | Some config =>
             match strconv_Atoi config with
             | Some parsed => parsed
             | None => defaultCasMinAnchorWorkers
             end
         | None => defaultCasMinAnchorWorkers
         end).
  assert (maxAnchorJobs < 2 ^ 63) as Hmax.
  { subst maxAnchorJobs. destruct (LookupEnv "CAS_MAX_ANCHOR_WORKERS");
      [| done].
    destruct (strconv_Atoi _) eqn:Hp; [| done].
    apply strconv_Atoi_range in Hp. lia. }
  assert (- 2 ^ 63 ≤ minAnchorJobs) as Hmin.
  { subst minAnchorJobs. destruct (LookupEnv "CAS_MIN_ANCHOR_WORKERS");
      [| done].
    destruct (strconv_Atoi _) eqn:Hp; [| done].
    apply strconv_Atoi_range in Hp. lia. }
  destruct (Z.ltb_spec maxAnchorJobs minAnchorJobs); [discriminate |].
  intros [= <-]. cbn.
  split; [done |]. split; [done |]. split; [done |]. split; [lia |].
  split; [| done].
  unfold strconv_ParseBool. case_bool_decide as Ht; cbn.
  { done. }
  case_bool_decide; cbn; split; done.
Qed.


End ManagerProperties.

(** ** The scheduler: what is started, and when nothing is *)

Section DispatchProperties.
Import JobManager.

Context {World : Type} {E : Env World}.
Variable m : JobManager.

Implicit Types (s : St World) (js : JobState) (jobs : list JobState).


Lemma collect_none jobs (forceDeploys : gmap string JobState) s :
  Forall (fun js => is_force_deploy js = false) jobs →
  for_range collectForceDeploy jobs forceDeploys s
  = Done (inl forceDeploys) s.
Proof.
  induction 1 as [|js jobs Hjs _ IH]; [done |].
  rewrite for_range_cons. unfold collectForceDeploy at 1.
  unfold is_force_deploy in Hjs.
  destruct (decide (Typ js = JobType_Deploy)) as [Hty | Hty]; [| exact IH].
  rewrite bool_decide_eq_true_2 in Hjs by done. cbn [andb] in Hjs.
  rewrite Hjs. exact IH.
Qed.

(** X19.  When no job of the list of the dequeued jobs is a Deploy job
    that carries [force=true], the force deploy override returns false and
    does nothing: no job is skipped, canceled or started, and the params
    of no job are asked for a component. *)
Theorem override_without_force (dequeuedJobs : list JobState) s :
  Forall (fun js => is_force_deploy js = false) dequeuedJobs →
  processForceDeployJobs dequeuedJobs s = Done false s.
Proof.
  intros Hnone. unfold processForceDeployJobs, collectForceDeploys.
  by rewrite (bind_Done _ _ _ _ _ (collect_none dequeuedJobs ∅ s Hnone)).
Qed.

(** X20.  While a Deploy job is active, the dispatch of the anchor jobs,
    of the test jobs and of the workflow jobs each return false and do
    nothing; and while any job is active, the dispatch of the deploy jobs
    returns false and does nothing. *)
Theorem dispatch_waits (dequeuedJobs : list JobState) s :
  (cache_JobsByMatcher (world s) isActiveDeploy ≠ [] →
   processAnchorJobs m dequeuedJobs s = Done false s
   ∧ processTestJobs dequeuedJobs s = Done false s
   ∧ processWorkflowJobs dequeuedJobs s = Done false s)
  ∧ (cache_JobsByMatcher (world s) IsActiveJob ≠ [] →
     processDeployJobs dequeuedJobs s = Done false s).
Proof.
  split.
  - intros Hactive.
    unfold processAnchorJobs, processTestJobs, processWorkflowJobs.
    rewrite !(bind_Done _ _ _ _ _ (getActiveDeploys_run s)).
    destruct (cache_JobsByMatcher (world s) isActiveDeploy); done.
  - intros Hactive. unfold processDeployJobs.
    rewrite (bind_Done get_world _ s (world s) s eq_refl).
    destruct (cache_JobsByMatcher (world s) IsActiveJob); done.
Qed.

Lemma workflow_loop jobs (acc : list JobState) s :
  for_range (R := Empty_set)
    (fun dequeuedWorkflows dequeuedJob =>
       if decide (Typ dequeuedJob = JobType_Deploy) then
         ret (Break dequeuedWorkflows)
       else if decide (Typ dequeuedJob = JobType_Workflow) then
         ret (Next (dequeuedWorkflows ++ [dequeuedJob]))
       else ret (Next dequeuedWorkflows))
    jobs acc s
  = Done (inl (acc ++ filter (fun js => Typ js = JobType_Workflow)
                        (before_first is_deploy jobs))) s.
Proof.
  revert acc. induction jobs as [|js jobs IH]; intros acc.
  { rewrite for_range_nil. cbn. by rewrite app_nil_r. }
  rewrite for_range_cons. cbn [before_first]. unfold is_deploy at 1.
  destruct (decide (Typ js = JobType_Deploy)) as [Hd | Hd].
  { rewrite bool_decide_eq_true_2 by done. cbn. by rewrite app_nil_r. }
  rewrite bool_decide_eq_false_2 by done.
  destruct (decide (Typ js = JobType_Workflow)) as [Hw | Hw].
  - unfold ret at 1. rewrite IH, filter_cons_True by done.
    by rewrite <- app_assoc.
  - unfold ret at 1. by rewrite IH, filter_cons_False.
Qed.

(** X21.  With no Deploy job active, the dispatch of the workflow jobs
    starts the Workflow jobs that stand in the list of the dequeued jobs
    before its first Deploy job, every one of them and in their order,
    and nothing else; none is skipped.  It returns whether it started
    one. *)
Theorem workflows_before_deploy (dequeuedJobs : list JobState) s :
  cache_JobsByMatcher (world s) isActiveDeploy = [] →
  let workflows :=
    filter (fun js => Typ js = JobType_Workflow)
      (before_first is_deploy dequeuedJobs) in
  ∃ w,
    processWorkflowJobs dequeuedJobs s
    = Done (0 <? length workflows)%nat
        (mkSt w (trace s ++ (EvAdvance <$> workflows))).
Proof.
  intros Hnone. cbv zeta. unfold processWorkflowJobs.
  rewrite (bind_Done _ _ _ _ _ (getActiveDeploys_run s)), Hnone. cbn [length].
  change (0 =? 0)%nat with true. cbv iota.
  rewrite (bind_Done _ _ _ _ _ (workflow_loop dequeuedJobs [] s)).
  cbn [app].
  destruct (advanceJobs_trace
              (filter (fun js => Typ js = JobType_Workflow)
                 (before_first is_deploy dequeuedJobs)) s) as [w Hadv].
  rewrite (bind_Done _ _ _ _ _ Hadv). by exists w.
Qed.

(** *** The anchor dispatch *)

Lemma select_all (processV5Jobs : bool) active jobs acc s :
  processV5Jobs = true ∨ maxAnchorJobs m = -1 →
  for_range (selectAnchor m processV5Jobs active) jobs acc s
  = Done (inl (acc ++ filter (fun js => in_partition processV5Jobs js = true)
                        jobs)) s.
Proof.
  intros Hall. revert acc. induction jobs as [|js jobs IH]; intros acc.
  { rewrite for_range_nil, filter_nil. by rewrite app_nil_r. }
  rewrite for_range_cons. unfold selectAnchor at 1.
  destruct (in_partition processV5Jobs js) eqn:Hpart.
  - assert (may_launch m active acc js = true) as ->.
    { unfold may_launch. destruct Hall as [-> | ->].
      - unfold in_partition in Hpart.
        apply andb_true_iff in Hpart as [_ Hv5].
        destruct (IsV5WorkerJob js); [done | discriminate].
      - by rewrite orb_true_r. }
    unfold ret at 1. rewrite IH, filter_cons_True by done.
    by rewrite <- app_assoc.
  - unfold ret at 1. rewrite IH, filter_cons_False; [done |].
    by rewrite Hpart.
Qed.

Lemma queueAnchors_none n s : n ≤ 0 → queueAnchors n s = Done tt s.
Proof.
  intros Hn. unfold queueAnchors.
  replace (Z.to_nat n) with 0%nat by lia. reflexivity.
Qed.

(** X22.  The dispatch of the v5 partition starts every dequeued anchor
    job of a v5 worker, in the order of the list, whatever the number of
    the active anchors and [maxAnchorJobs], and whether the store accepts
    updates or not: it skips no job and puts no job in the queue.  It
    returns whether it started one. *)
Theorem v5_dispatch (dequeuedJobs : list JobState) s :
  let anchors :=
    filter (fun js => in_partition true js = true) dequeuedJobs in
  ∃ w,
    processVxAnchorJobs m dequeuedJobs true s
    = Done (0 <? Z.of_nat (length anchors))
        (mkSt w (trace s ++ (EvAdvance <$> anchors))).
Proof.
  cbv zeta. unfold processVxAnchorJobs.
  rewrite (bind_Done get_world _ s (world s) s eq_refl).
  unfold selectAnchors.
  rewrite (bind_Done _ _ _ _ _
             (select_all true _ dequeuedJobs [] s (or_introl eq_refl))).
  cbn [app].
  destruct (advanceJobs_trace
              (filter (fun js => in_partition true js = true) dequeuedJobs) s)
    as [w Hadv].
  rewrite (bind_Done _ _ _ _ _ Hadv). cbn [negb].
  rewrite (bind_Done (ret tt) _ _ tt _ eq_refl). by exists w.
Qed.



End DispatchProperties.

(** ** The scheduler: the tick, the manager and the advancement task *)

Section TickProperties.
Import JobManager.

Context {World : Type} {E : Env World}.

Implicit Types (s : St World) (js : JobState) (jobs : list JobState).

Lemma NewJobManager_min_le_max LookupEnv EnvVar_Env (m : JobManager) :
  NewJobManager LookupEnv EnvVar_Env = Ok m →
  minAnchorJobs m ≤ maxAnchorJobs m.
Proof.
  unfold NewJobManager.
  match goal with
  | |- context [if ?a <? ?b then _ else _] =>
      destruct (Z.ltb_spec a b); [discriminate |]
  end.
  by intros [= <-].
Qed.

(** X24.  A manager that [NewJobManager] builds with [maxAnchorJobs = -1]
    starts every dequeued anchor job of a v2 worker, in the order of the
    list; it skips none and, its [minAnchorJobs] being negative, it puts
    no job in the queue.  (The list is shorter than 2^62 and
    [minAnchorJobs] no less than -2^62, so that their difference is an
    [int].) *)
Theorem unbounded_manager_dispatch LookupEnv EnvVar_Env (m : JobManager)
    (dequeuedJobs : list JobState) s :
  NewJobManager LookupEnv EnvVar_Env = Ok m →
  maxAnchorJobs m = -1 →
  - 2 ^ 62 ≤ minAnchorJobs m →
  Z.of_nat (length dequeuedJobs) < 2 ^ 62 →
  let anchors :=
    filter (fun js => in_partition false js = true) dequeuedJobs in
  ∃ w,
    processVxAnchorJobs m dequeuedJobs false s
    = Done (0 <? Z.of_nat (length anchors))
        (mkSt w (trace s ++ (EvAdvance <$> anchors))).
Proof.
  intros Hnew Hmax Hmin Hlen. cbv zeta.
  apply NewJobManager_min_le_max in Hnew.
  unfold processVxAnchorJobs.
  rewrite (bind_Done get_world _ s (world s) s eq_refl).
  unfold selectAnchors.
  rewrite (bind_Done _ _ _ _ _
             (select_all m false _ dequeuedJobs [] s (or_intror Hmax))).
  cbn [app].
  set (anchors := filter (fun js => in_partition false js = true)
                    dequeuedJobs).
  destruct (advanceJobs_trace anchors s) as [w Hadv].
  rewrite (bind_Done _ _ _ _ _ Hadv). cbn [negb].
  assert (Z.of_nat (length anchors) ≤ Z.of_nat (length dequeuedJobs)) as Hle.
  { apply inj_le. subst anchors. apply length_filter. }
  assert (wrap64 (minAnchorJobs m - Z.of_nat (length anchors)) ≤ 0) as Hzero.
  { unfold wrap64. rewrite Z.mod_small by lia. lia. }
  rewrite (bind_Done _ _ _ _ _ (queueAnchors_none _ _ Hzero)).
  by exists w.
Qed.

Lemma delete_loop (oldJobs : list JobState) s :
  for_range (R := Empty_set)
    (fun _ oldJob =>
       bind (call (fun w => (cache_DeleteJob (JobId oldJob) w, tt))
               (fun _ => EvDeleteJob (JobId oldJob)))
         (fun _ => ret (Next tt)))
    oldJobs tt s
  = Done (inl tt)
      (mkSt (foldl (fun w oldJob => cache_DeleteJob (JobId oldJob) w)
               (world s) oldJobs)
         (trace s ++ ((fun oldJob => EvDeleteJob (JobId oldJob)) <$> oldJobs))).
Proof.
  revert s. induction oldJobs as [|oldJob oldJobs IH]; intros s.
  { rewrite for_range_nil. cbn. by rewrite app_nil_r, St_eta. }
  rewrite for_range_cons. unfold bind at 1, call at 1, ret at 1.
  rewrite IH. cbn [world trace foldl fmap list_fmap].
  by rewrite <- app_assoc.
Qed.

(** X25.  A tick of a manager that has just been paused: the finished
    jobs of the cache that are older than a day are deleted from it, then
    the jobs that are active are advanced, and nothing else is done: no
    queued job is dequeued, no dequeued job is started or skipped, and no
    job is put in the queue. *)
Theorem paused_tick (m : JobManager) s :
  paused m = false →
  let oldJobs :=
    cache_JobsByMatcher (world s) (fun js =>
      IsFinishedJob js
      && Time_After (AddDate (time_Now (world s)) 0 0 (- DefaultTtlDays))
           (Ts js)) in
  let w1 :=
    foldl (fun w oldJob => cache_DeleteJob (JobId oldJob) w) (world s)
      oldJobs in
  ∃ w,
    processJobs (Pause m) s
    = Done tt
        (mkSt w
           (trace s
            ++ ((fun oldJob => EvDeleteJob (JobId oldJob)) <$> oldJobs)
            ++ (EvAdvance <$> cache_JobsByMatcher w1 IsActiveJob))).
Proof.
  intros Hrun. cbv zeta.
  set (oldJobs :=
         cache_JobsByMatcher (world s) (fun js =>
           IsFinishedJob js
           && Time_After (AddDate (time_Now (world s)) 0 0 (- DefaultTtlDays))
                (Ts js))).
  set (w1 := foldl (fun w oldJob => cache_DeleteJob (JobId oldJob) w)
               (world s) oldJobs).
  destruct (advanceJobs_trace (cache_JobsByMatcher w1 IsActiveJob)
              (mkSt w1 (trace s ++ ((fun oldJob => EvDeleteJob (JobId oldJob))
                                      <$> oldJobs))))
    as [w Hadv].
  exists w. unfold processJobs.
  rewrite (bind_Done get_world _ s (world s) s eq_refl).
  rewrite (bind_Done _ _ _ _ _ (delete_loop _ s)).
  fold oldJobs. fold w1.
  rewrite (bind_Done get_world _ (mkSt w1 _) w1 _ eq_refl).
  rewrite (bind_Done _ _ _ _ _ Hadv).
  unfold Pause. cbn [paused]. rewrite Hrun. cbn [negb trace].
  unfold ret. by rewrite <- app_assoc.
Qed.


Section Task.
Context {SM : Machines World}.

(** X27.  A job for which no state machine can be made, because its type
    is unknown or because the constructor of its Deploy or Workflow
    machine returns an error, is transitioned to Failed with this error
    by its advancement task, and nothing else is done: the job is not
    advanced and no job is put in the queue, so that a Deploy job that
    fails in this way is not followed by a rollback. *)
Theorem unpreparable_job_fails (m : JobManager) js s (err : string)
    (w0 : World) :
  (Typ js = JobType_Other
   ∧ err = "prepareJobSm: unknown job type: " +:+ PrintJob js
   ∧ w0 = world s)
  ∨ (Typ js = JobType_Deploy
     ∧ jobs_DeployJob js (world s) = Finished (Err err) w0)
  ∨ (Typ js = JobType_Workflow
     ∧ jobs_GitHubWorkflowJob js (world s) = Finished (Err err) w0) →
  advanceJobTask m js s
  = Done tt
      (mkSt (manager_AdvanceJob js JobStage_Failed (time_Now w0) (Some err)
               w0).1
         (trace s
          ++ [EvUpdateStage js JobStage_Failed (Some err)
                (manager_AdvanceJob js JobStage_Failed (time_Now w0)
                   (Some err) w0).2])).
Proof.
  intros Hcase. unfold advanceJobTask, advanceJobBody, prepareJobSm.
  destruct Hcase as [(Hty & -> & ->) | [(Hty & Hmk) | (Hty & Hmk)]];
    rewrite Hty.
  - unfold bind, ret, updateJobStage, call. cbn [world trace].
    by destruct (manager_AdvanceJob _ _ _ _ _).
  - unfold bind, lift, ret, updateJobStage, call. rewrite Hmk.
    cbn [world trace].
    by destruct (manager_AdvanceJob _ _ _ _ _).
  - unfold bind, lift, ret, updateJobStage, call. rewrite Hmk.
    cbn [world trace].
    by destruct (manager_AdvanceJob _ _ _ _ _).
Qed.

(** X28.  When the body of an advancement task panics and the stack at
    hand has 1024 bytes or more, the task ends without a panic: the stack
    is printed and the job is transitioned to Failed, with an error that
    is "panic: " and the first 1024 bytes of the stack; the value of the
    panic is not in it. *)
Theorem panic_contained (m : JobManager) js s (r : string) s' :
  advanceJobBody m js s = Panicked r s' →
  (1024 ≤ String.length (debug_Stack (world s')))%nat →
  ∃ w res,
    advanceJobTask m js s
    = Done tt
        (mkSt w
           (trace s'
            ++ [EvPrintStack;
                EvUpdateStage js JobStage_Failed
                  (Some ("panic: "
                         +:+ String.substring 0 1024 (debug_Stack (world s'))))
                  res]))
    ∧ (w, res)
      = manager_AdvanceJob js JobStage_Failed (time_Now (world s'))
          (Some ("panic: "
                 +:+ String.substring 0 1024 (debug_Stack (world s'))))
          (world s').
Proof.
  intros Hbody Hlen. unfold advanceJobTask. rewrite Hbody.
  unfold recovered, call, get_world, bind, slice_to.
  cbn [world trace]. rewrite decide_True by done.
  unfold updateJobStage, call. cbn [world trace].
  destruct (manager_AdvanceJob _ _ _ _ _) as [w res].
  exists w, res. unfold ret. by rewrite <- app_assoc.
Qed.

End Task.

End TickProperties.

(** ** The scheduler: collapsing deploy jobs and test jobs *)

Section CollapseProperties.
Import JobManager.

Context {World : Type} {E : Env World}.

Implicit Types (s : St World) (js : JobState) (jobs : list JobState).

Lemma collapse_loop (c : string) jobs (candidate : JobState) s :
  accepts_updates →
  Forall (fun js => Typ js = JobType_Deploy → is_Some (component js))
    (before_first is_test jobs) →
  ∃ earlier final w,
    candidate :: deploys_of c jobs = earlier ++ [final]
    ∧ for_range
        (fun deployJob dequeuedJob =>
           if is_test dequeuedJob then ret (Break deployJob)
           else if decide (Typ dequeuedJob = JobType_Deploy) then
             bind (component_of dequeuedJob) (fun c' =>
               if String.eqb c' c then
                 bind (updateJobStage deployJob JobStage_Skipped None)
                   (fun err =>
                      match err with
                      | Some _ => ret (Return true)
                      | None => ret (Next dequeuedJob)
                      end)
               else ret (Next deployJob))
           else ret (Next deployJob))
        jobs candidate s
      = Done (inl final) (mkSt w (trace s ++ (skipped <$> earlier))).
Proof.
  intros Hok. revert candidate s.
  induction jobs as [|js jobs IH]; intros candidate s Hwf.
  { exists [], candidate, (world s). split; [done |].
    rewrite for_range_nil. cbn. by rewrite app_nil_r, St_eta. }
  rewrite for_range_cons. unfold deploys_of. cbn [before_first] in *.
  destruct (is_test js) eqn:Htest.
  { exists [], candidate, (world s). split; [done |].
    unfold ret. cbn. by rewrite app_nil_r, St_eta. }
  apply Forall_cons in Hwf as [Hjs Hwf].
  destruct (decide (Typ js = JobType_Deploy)) as [Hty | Hty].
  2: { unfold ret at 1. rewrite filter_cons_False by tauto.
       by apply IH. }
  unfold bind at 1. rewrite component_of_run.
  destruct (Hjs Hty) as [c' Hc']. rewrite Hc'.
  destruct (String.eqb_spec c' c) as [-> | Hne].
  2: { unfold ret at 1. rewrite filter_cons_False by (intros [_ ?]; congruence).
       by apply IH. }
  rewrite filter_cons_True by done.
  destruct (updateJobStage_accepted candidate JobStage_Skipped None s Hok)
    as [w1 Hupd].
  rewrite (bind_Done _ _ _ _ _ Hupd). unfold ret at 1.
  destruct (IH js (mkSt w1 (trace s ++ [skipped candidate])) Hwf)
    as (earlier & final & w & Hchain & Hrun).
  exists (candidate :: earlier), final, w. split.
  { unfold deploys_of in Hchain. by rewrite Hchain. }
  unfold skipped in Hrun at 1. rewrite Hrun. cbn [trace].
  by rewrite fmap_cons, <- app_assoc.
Qed.

(** X29.  With no job active and a store that accepts updates, the
    dispatch of the deploy jobs looks at the job at the head of the list
    of the dequeued jobs and at the Deploy jobs of the same component that
    come after it, before the first test job: it starts the last of
    these and transitions the others to Skipped, in their order, and does
    nothing else; Deploy jobs of other components are left as they are.
    (The head and the Deploy jobs before the first test job have their
    component.) *)
Theorem deploys_collapse (head : JobState) (later : list JobState)
    (c : string) s :
  accepts_updates →
  cache_JobsByMatcher (world s) IsActiveJob = [] →
  component head = Some c →
  Forall (fun js => Typ js = JobType_Deploy → is_Some (component js))
    (before_first is_test later) →
  ∃ earlier final w,
    head :: deploys_of c later = earlier ++ [final]
    ∧ processDeployJobs (head :: later) s
      = Done true
          (mkSt w (trace s ++ (skipped <$> earlier) ++ [EvAdvance final])).
Proof.
  intros Hok Hidle Hc Hwf.
  destruct (collapse_loop c later head s Hok Hwf)
    as (earlier & final & w & Hchain & Hloop).
  exists earlier, final,
    (run_task final w). split; [done |].
  unfold processDeployJobs.
  rewrite (bind_Done get_world _ s (world s) s eq_refl), Hidle.
  cbn [length]. change (0 =? 0)%nat with true. cbv iota.
  unfold bind at 1. rewrite component_of_run, Hc.
  rewrite (bind_Done _ _ _ _ _ Hloop).
  rewrite (bind_Done _ _ _ _ _ (advanceJob_run final _)). unfold ret.
  cbn [world trace]. by rewrite <- app_assoc.
Qed.

Lemma test_type js :
  is_test js = true →
  Typ js = JobType_TestE2E ∨ Typ js = JobType_TestSmoke.
Proof.
  unfold is_test. intros [H | H]%orb_true_iff;
    apply bool_decide_eq_true in H; auto.
Qed.

Lemma removelast_cons2 {A} (x y : A) l :
  removelast (x :: y :: l) = x :: removelast (y :: l).
Proof. reflexivity. Qed.

Lemma removelast_chain {A} (old : option A) (x : A) l :
  removelast (option_list old ++ x :: l)
  = option_list old ++ removelast (x :: l).
Proof. by destruct old. Qed.

Lemma test_loop jobs (acc : gmap JobType JobState) s :
  accepts_updates →
  ∃ w skips acc',
    for_range
      (fun (dequeuedTests : gmap JobType JobState) dequeuedJob =>
         if decide (Typ dequeuedJob = JobType_Deploy) then
           ret (Break dequeuedTests)
         else if is_test dequeuedJob then
           match dequeuedTests !! Typ dequeuedJob with
           | Some jobToSkip =>
               bind (updateJobStage jobToSkip JobStage_Skipped None)
                 (fun err =>
                    match err with
                    | Some _ => ret (Return true)
                    | None =>
                        ret (Next (<[Typ dequeuedJob := dequeuedJob]>
                                     dequeuedTests))
                    end)
           | None =>
               ret (Next (<[Typ dequeuedJob := dequeuedJob]> dequeuedTests))
           end
         else ret (Next dequeuedTests))
      jobs acc s
    = Done (inl acc') (mkSt w (trace s ++ skips))
    ∧ (∀ t, acc' !! t = match last (tests_of t jobs) with
                        | Some js => Some js
                        | None => acc !! t
                        end)
    ∧ skips
      ≡ₚ skipped
         <$> (removelast (option_list (acc !! JobType_TestE2E)
                          ++ tests_of JobType_TestE2E jobs)
              ++ removelast (option_list (acc !! JobType_TestSmoke)
                             ++ tests_of JobType_TestSmoke jobs)).
Proof.
  intros Hok. revert acc s.
  assert (∀ old : option JobState, removelast (option_list old ++ []) = [])
    as Hnone by (by intros []).
  induction jobs as [|js jobs IH]; intros acc s.
  { exists (world s), [], acc. rewrite for_range_nil, app_nil_r, St_eta.
    split; [done |]. split; [done |].
    unfold tests_of. cbn. by rewrite !Hnone. }
  rewrite for_range_cons. unfold tests_of in *. cbn [before_first].
  unfold is_deploy at 1 3 5.
  destruct (decide (Typ js = JobType_Deploy)) as [Hd | Hd].
  { rewrite bool_decide_eq_true_2 by done.
    exists (world s), [], acc. unfold ret. rewrite app_nil_r, St_eta.
    split; [done |]. split; [done |]. cbn. by rewrite !Hnone. }
  rewrite bool_decide_eq_false_2 by done.
  destruct (is_test js) eqn:Htest.
  2: { unfold ret at 1.
       rewrite (filter_cons_False (fun js => is_test js = true))
         by (rewrite Htest; discriminate).
       apply IH. }
  rewrite (filter_cons_True (fun js => is_test js = true)) by done.
  set (tests := filter (fun js => is_test js = true)
                  (before_first is_deploy jobs)) in *.
  assert (∀ (old : option JobState) s1,
            (∀ prev, old = Some prev →
                     acc !! Typ js = Some prev
                     ∧ trace s1 = trace s ++ [skipped prev])
            → (old = None → acc !! Typ js = None ∧ trace s1 = trace s)
            → ∃ w skips acc',
                for_range
                  (fun (dequeuedTests : gmap JobType JobState) dequeuedJob =>
                     if decide (Typ dequeuedJob = JobType_Deploy) then
                       ret (Break dequeuedTests)
                     else if is_test dequeuedJob then
                       match dequeuedTests !! Typ dequeuedJob with
                       | Some jobToSkip =>
                           bind (updateJobStage jobToSkip JobStage_Skipped None)
                             (fun err =>
                                match err with
                                | Some _ => ret (Return true)
                                | None =>
                                    ret (Next (<[Typ dequeuedJob
                                                 := dequeuedJob]>
                                                 dequeuedTests))
                                end)
                       | None =>
                           ret (Next (<[Typ dequeuedJob := dequeuedJob]>
                                        dequeuedTests))
                       end
                     else ret (Next dequeuedTests))
                  jobs (<[Typ js := js]> acc) s1
                = Done (inl acc') (mkSt w (trace s ++ skips))
                ∧ (∀ t, acc' !! t
                        = match last (filter (fun js => Typ js = t)
                                        (js :: tests)) with
                          | Some js => Some js
                          | None => acc !! t
                          end)
                ∧ skips
                  ≡ₚ skipped
                     <$> (removelast
                            (option_list (acc !! JobType_TestE2E)
                             ++ filter (fun js => Typ js = JobType_TestE2E)
                                  (js :: tests))
                          ++ removelast
                               (option_list (acc !! JobType_TestSmoke)
                                ++ filter
                                     (fun js => Typ js = JobType_TestSmoke)
                                     (js :: tests)))) as Hstep.
  { intros old s1 Hsome Hnil.
    destruct (IH (<[Typ js := js]> acc) s1) as (w & skips & acc' & Hrun & Hacc
                                               & Hskips).
    assert (∀ t, acc' !! t
                 = match last (filter (fun js => Typ js = t) (js :: tests)) with
                   | Some js => Some js
                   | None => acc !! t
                   end) as Hacc'.
    { intros t. rewrite Hacc. destruct (decide (Typ js = t)) as [<- | Hne].
      - rewrite filter_cons_True by done. rewrite last_cons.
        rewrite lookup_insert_eq.
        by destruct (last (filter _ tests)).
      - rewrite filter_cons_False by done.
        by rewrite lookup_insert_ne. }
    destruct old as [prev |].
    - destruct (Hsome prev eq_refl) as [Hprev Htr].
      exists w, (skipped prev :: skips), acc'.
      rewrite Hrun, Htr, <- app_assoc. split; [done |]. split; [done |].
      rewrite Hskips.
      destruct (test_type js Htest) as [Hty | Hty]; rewrite Hty in *.
      + rewrite lookup_insert_eq, lookup_insert_ne by done.
        rewrite Hprev. rewrite filter_cons_True by done.
        rewrite (filter_cons_False (fun js => Typ js = JobType_TestSmoke))
          by (rewrite Hty; discriminate).
        change (option_list (Some prev)) with [prev].
        change (option_list (Some js)) with [js].
        cbn [app]. rewrite removelast_cons2. done.
      + rewrite lookup_insert_eq, lookup_insert_ne by done.
        rewrite Hprev. rewrite (filter_cons_True
                                  (fun js => Typ js = JobType_TestSmoke))
          by done.
        rewrite (filter_cons_False (fun js => Typ js = JobType_TestE2E))
          by (rewrite Hty; discriminate).
        change (option_list (Some prev)) with [prev].
        change (option_list (Some js)) with [js].
        cbn [app]. rewrite removelast_cons2.
        rewrite !fmap_app, fmap_cons. by rewrite <- Permutation_middle.
    - destruct (Hnil eq_refl) as [Hprev Htr].
      exists w, skips, acc'. rewrite Hrun, Htr.
      split; [done |]. split; [done |].
      rewrite Hskips.
      destruct (test_type js Htest) as [Hty | Hty]; rewrite Hty in *.
      + rewrite lookup_insert_eq, lookup_insert_ne by done.
        rewrite Hprev. rewrite filter_cons_True by done.
        rewrite (filter_cons_False (fun js => Typ js = JobType_TestSmoke))
          by (rewrite Hty; discriminate).
        done.
      + rewrite lookup_insert_eq, lookup_insert_ne by done.
        rewrite Hprev. rewrite (filter_cons_True
                                  (fun js => Typ js = JobType_TestSmoke))
          by done.
        rewrite (filter_cons_False (fun js => Typ js = JobType_TestE2E))
          by (rewrite Hty; discriminate).
        done. }
  destruct (acc !! Typ js) as [prev |] eqn:Hprev.
  - destruct (updateJobStage_accepted prev JobStage_Skipped None s Hok)
      as [w1 Hupd].
    rewrite (bind_Done _ _ _ _ _ Hupd). unfold ret at 1.
    apply (Hstep (Some prev) (mkSt w1 _)); [| done].
    intros ? [= <-]. done.
  - unfold ret at 1. by apply (Hstep None s).
Qed.

(** X30.  With no Deploy job active and a store that accepts updates,
    the dispatch of the test jobs looks at the E2E and the smoke test jobs
    that come before the first Deploy job of the list of the dequeued
    jobs: of each of the two types it starts the last job, so one job a
    type at most, and it transitions the jobs before it to Skipped, each
    of them once; it does nothing else, and returns whether it started a
    job. *)
Theorem tests_collapse (dequeuedJobs : list JobState) s :
  accepts_updates →
  cache_JobsByMatcher (world s) isActiveDeploy = [] →
  ∃ w skips (kept : gmap JobType JobState),
    processTestJobs dequeuedJobs s
    = Done (0 <? size kept)%nat
        (mkSt w (trace s ++ skips ++ (EvAdvance <$> maps_Values kept)))
    ∧ (∀ t, kept !! t = last (tests_of t dequeuedJobs))
    ∧ skips
      ≡ₚ skipped
         <$> (removelast (tests_of JobType_TestE2E dequeuedJobs)
              ++ removelast (tests_of JobType_TestSmoke dequeuedJobs)).
Proof.
  intros Hok Hnone.
  destruct (test_loop dequeuedJobs ∅ s Hok)
    as (w1 & skips & kept & Hloop & Hkept & Hskips).
  destruct (advanceJobs_trace (maps_Values kept) (mkSt w1 (trace s ++ skips)))
    as [w Hadv].
  exists w, skips, kept. split; [| split].
  - unfold processTestJobs.
    rewrite (bind_Done _ _ _ _ _ (getActiveDeploys_run s)), Hnone.
    cbn [length]. change (0 =? 0)%nat with true. cbv iota.
    rewrite (bind_Done _ _ _ _ _ Hloop).
    rewrite (bind_Done _ _ _ _ _ Hadv). unfold ret. cbn [trace].
    by rewrite <- app_assoc.
  - intros t. rewrite Hkept, lookup_empty.
    by destruct (last (tests_of t dequeuedJobs)).
  - by rewrite !lookup_empty in Hskips.
Qed.

End CollapseProperties.

(** ** Runs of the further properties *)

Section JobRuns.


(** A Started E2E test job, an hour old, whose three tasks are found
    running, is moved on to Waiting. *)
Lemma e2e_poll_step_witness :
  (Stage Scenario.e2e_started_job = JobStage_Started
   ∨ Stage Scenario.e2e_started_job = JobStage_Waiting)
  ∧ Scenario.e2e_now - Ts Scenario.e2e_started_job ≤ 2 * Hour
  ∧ Scenario.e2e_advance_met Scenario.e2e_now Scenario.e2e_started_job
    = Returns
        (E2e.stored (fun _ => None)
           (set_Ts (set_Stage Scenario.e2e_started_job JobStage_Waiting)
              Scenario.e2e_now)).
Proof.
  assert (Scenario.e2e_now - Ts Scenario.e2e_started_job ≤ 2 * Hour) as Hin
    by (vm_compute; discriminate).
  split; [by left |]. split; [exact Hin |].
  exact (e2e_poll_step (fun _ => EmptyString) (fun _ _ _ _ _ => Ok "task")
           (fun _ _ _ => Ok true) (fun _ => None) JobId Scenario.e2e_now
           Scenario.e2e_now Scenario.e2e_started_job "task-1" "task-2"
           "task-3" (or_introl eq_refl) Hin eq_refl eq_refl eq_refl).
Defined.


(** The advancement of the Queued E2E test job keeps its id and sets its
    time. *)
Lemma e2e_advance_invariants_witness :
  Scenario.e2e_advance Scenario.e2e_now Scenario.e2e_queued_job
  = Returns
      (E2e.mkAdvanced
         (mkJobState JobStage_Started Scenario.e2e_now "e2e-3" JobType_TestE2E
            (<[E2eTest_LocalNodePrivate := VStr "task"]>
               (<[E2eTest_LocalClientPublic := VStr "task"]>
                  (<[E2eTest_PrivatePublic := VStr "task"]> ∅))))
         true None)
  ∧ JobId (mkJobState JobStage_Started Scenario.e2e_now "e2e-3"
             JobType_TestE2E
             (<[E2eTest_LocalNodePrivate := VStr "task"]>
                (<[E2eTest_LocalClientPublic := VStr "task"]>
                   (<[E2eTest_PrivatePublic := VStr "task"]> ∅))))
    = JobId Scenario.e2e_queued_job.
Proof.
  assert (Scenario.e2e_advance Scenario.e2e_now Scenario.e2e_queued_job
          = Returns
              (E2e.mkAdvanced
                 (mkJobState JobStage_Started Scenario.e2e_now "e2e-3"
                    JobType_TestE2E
                    (<[E2eTest_LocalNodePrivate := VStr "task"]>
                       (<[E2eTest_LocalClientPublic := VStr "task"]>
                          (<[E2eTest_PrivatePublic := VStr "task"]> ∅))))
                 true None)) as Hrun by (vm_compute; reflexivity).
  split; [exact Hrun |].
  exact (proj1 (e2e_advance_invariants (fun _ => EmptyString)
                  (fun _ _ _ _ _ => Ok "task") (fun _ _ _ => Ok false)
                  (fun _ => None) JobId Scenario.e2e_now Scenario.e2e_now
                  Scenario.e2e_queued_job _ Hrun)).
Defined.

(** A Started deploy of Ceramic, advanced an hour after it was dequeued,
    has timed out. *)
Lemma deploy_timeout_witness :
  Stage (Deploy.state
           (Scenario.deploy_job DeployComponent_Ceramic JobStage_Started "abc"
              false Scenario.ceramic_layout)) ≠ JobStage_Queued
  ∧ Scenario.IsTimedOut (Scenario.deploy_now + Hour)
      (Deploy.state
         (Scenario.deploy_job DeployComponent_Ceramic JobStage_Started "abc"
            false Scenario.ceramic_layout)) DefaultFailureTime = true
  ∧ ∃ st',
      Scenario.deploy_advance_late
        (Scenario.deploy_job DeployComponent_Ceramic JobStage_Started "abc"
           false Scenario.ceramic_layout)
      = ((st', None), [Deploy.Call_NotifyJob st'; Deploy.Call_AdvanceJob st'])
      ∧ Stage st' = JobStage_Failed
      ∧ Params st' !! JobParam_Error = Some (VStr "timeout").
Proof.
  split; [discriminate |]. split; [reflexivity |].
  eexists. split.
  - exact (deploy_timeout (Ok ∅) (fun _ _ => None) (fun _ _ => None)
             (fun _ => None) (fun _ _ => None) (fun _ => Ok true)
             (fun c => if String.eqb c DeployComponent_Ceramic
                       then Ok Scenario.ceramic_layout
                       else Ok Scenario.ipfs_layout)
             (Scenario.IsTimedOut (Scenario.deploy_now + Hour)) JobId
             (Scenario.deploy_now + Hour)
             (Scenario.deploy_job DeployComponent_Ceramic JobStage_Started
                "abc" false Scenario.ceramic_layout)
             ltac:(discriminate) eq_refl).
  - split; reflexivity.
Defined.

(** A Started deploy of Ceramic whose layout is found deployed, a minute
    after it was dequeued, completes, and the deploy hash is set. *)
Lemma deploy_completes_witness :
  Stage (Deploy.state
           (Scenario.deploy_job DeployComponent_Ceramic JobStage_Started "abc"
              false Scenario.ceramic_layout)) = JobStage_Started
  ∧ ∃ calls,
      Scenario.deploy_advance (Ok ∅)
        (Scenario.deploy_job DeployComponent_Ceramic JobStage_Started "abc"
           false Scenario.ceramic_layout)
      = ((set_Stage
            (Deploy.state
               (Scenario.deploy_job DeployComponent_Ceramic JobStage_Started
                  "abc" false Scenario.ceramic_layout)) JobStage_Completed,
          None), calls)
      ∧ Deploy.Call_UpdateDeployHash DeployComponent_Ceramic "abc" None
          ∈ calls.
Proof.
  split; [reflexivity |].
  eexists. split.
  - exact (deploy_completes (Ok ∅) (fun _ _ => None) (fun _ _ => None)
             (fun _ => None) (fun _ _ => None) (fun _ => Ok true)
             (fun c => if String.eqb c DeployComponent_Ceramic
                       then Ok Scenario.ceramic_layout
                       else Ok Scenario.ipfs_layout)
             (Scenario.IsTimedOut (Scenario.deploy_now + Minute)) JobId
             (Scenario.deploy_now + Minute)
             (Scenario.deploy_job DeployComponent_Ceramic JobStage_Started
                "abc" false Scenario.ceramic_layout)
             Scenario.ceramic_layout eq_refl eq_refl eq_refl eq_refl
             ltac:(discriminate)).
  - apply elem_of_app. right. apply list_elem_of_here.
Defined.

End JobRuns.

Section AdapterRuns.
Import Ecs.

(** A task record without a status after a running one. *)
Lemma CheckTask_nil_status_witness :
  Forall (fun task => LastStatus task = Some "RUNNING")
    [{| LastStatus := Some "RUNNING" |}]
  ∧ CheckTask
      (fun _ _ =>
         Ok {| Tasks := [{| LastStatus := Some "RUNNING" |}]
                        ++ {| LastStatus := None |} :: [] |})
      true "ceramic-qa-tests" ["arn:aws:ecs:task/1"; "arn:aws:ecs:task/2"]
    = Panics "nil pointer dereference".
Proof.
  assert (Forall (fun task => LastStatus task = Some "RUNNING")
            [{| LastStatus := Some "RUNNING" |}]) as Hall
    by (constructor; [reflexivity | constructor]).
  split; [exact Hall |].
  exact (CheckTask_nil_status
           (fun _ _ =>
              Ok {| Tasks := [{| LastStatus := Some "RUNNING" |}]
                             ++ {| LastStatus := None |} :: [] |})
           true "ceramic-qa-tests"
           ["arn:aws:ecs:task/1"; "arn:aws:ecs:task/2"]
           [{| LastStatus := Some "RUNNING" |}] [] {| LastStatus := None |}
           eq_refl Hall eq_refl).
Defined.

(** The layout of Ceramic of an adapter made for prod, in prod: the
    public cluster holds an ELP node. *)
Lemma PopulateLayout_nodes_witness :
  ∃ layout privateLayout publicLayout casLayout,
    PopulateLayout "prod" "prod" DeployComponent_Ceramic = Ok layout
    ∧ layout !! privateCluster "prod" = Some (VMap (Some privateLayout))
    ∧ layout !! publicCluster "prod" = Some (VMap (Some publicLayout))
    ∧ layout !! casCluster "prod" = Some (VMap (Some casLayout))
    ∧ is_Some (publicLayout !! "ceramic-elp-1-1-node").
Proof.
  destruct (PopulateLayout_nodes "prod" "prod" DeployComponent_Ceramic
              "node" "gateway" (or_introl eq_refl))
    as (layout & privateLayout & publicLayout & casLayout & Hrun & Hp & Hx
        & Hc & _ & _ & Hpublic).
  exists layout, privateLayout, publicLayout, casLayout.
  split; [exact Hrun |]. split; [exact Hp |]. split; [exact Hx |].
  split; [exact Hc |].
  apply Hpublic. right. right. split; [reflexivity |]. left. reflexivity.
Defined.

End AdapterRuns.

Section SetupRuns.
Import Deploy.

(** A job state with a layout and [manual=true] in its params: the job
    that is built is not manual. *)
Lemma DeployJob_as_given_witness :
  is_Some (Params Scenario.dequeued_manual !! JobParam_Layout)
  ∧ Params Scenario.dequeued_manual !! JobParam_Manual = Some (VBool true)
  ∧ setup (Scenario.construct Scenario.dequeued_manual) = []
  ∧ ∃ d,
      built (Scenario.construct Scenario.dequeued_manual) = Ok d
      ∧ manual d = false.
Proof.
  assert (is_Some (Params Scenario.dequeued_manual !! JobParam_Layout))
    as Hlayout by (by eexists).
  split; [exact Hlayout |]. split; [reflexivity |].
  destruct (DeployJob_as_given (Ok (<[DeployComponent_Ceramic := "abc"]> ∅))
              (Ok (<[DeployComponent_Ceramic := "def"]> ∅)) (fun _ => None)
              (fun _ => Ok Scenario.ceramic_layout) (fun _ _ => Ok "fed")
              (fun c => c) (fun env => env)
              (fun sha => (String.length sha =? 40)%nat) "latest"
              (fun _ => "dev") Scenario.dequeued_manual Hlayout)
    as (Hsetup & _ & _).
  split; [exact Hsetup |].
  eexists. split; reflexivity.
Defined.

(** A fresh deploy of the latest commit of Ceramic: the head of the
    branch is deployed, and the job is not manual. *)
Lemma DeployJob_resolves_witness :
  Params (Scenario.fresh_deploy "latest" false) !! JobParam_Layout = None
  ∧ ∃ d calls,
      Scenario.construct (Scenario.fresh_deploy "latest" false)
      = mkConstructed (Ok d) (Params (state d)) calls
      ∧ sha d = "fed" ∧ manual d = false
      ∧ Params (state d) !! JobParam_Sha = Some (VStr "fed").
Proof.
  split; [reflexivity |].
  destruct (DeployJob_resolves (Ok (<[DeployComponent_Ceramic := "abc"]> ∅))
              (Ok (<[DeployComponent_Ceramic := "def"]> ∅)) (fun _ => None)
              (fun _ => Ok Scenario.ceramic_layout) (fun _ _ => Ok "fed")
              (fun c => c) (fun env => env)
              (fun sha => (String.length sha =? 40)%nat) "latest"
              (fun _ => "dev") (Scenario.fresh_deploy "latest" false)
              DeployComponent_Ceramic "latest" "fed" false
              Scenario.ceramic_layout eq_refl eq_refl eq_refl eq_refl
              (fun _ => eq_refl)
              (or_intror (or_introl
                 (conj eq_refl (conj eq_refl (conj eq_refl eq_refl))))))
    as (lookups & Hrun & _).
  eexists _, _. split; [exact Hrun |].
  split; [reflexivity |]. split; reflexivity.
Defined.

(** A fresh rollback of Ceramic, with "abc" deployed: the job is built
    for "abc" and its first advancement skips it. *)
Lemma rollback_deploy_is_skipped_witness :
  Stage (Scenario.fresh_deploy "rollback" true) = JobStage_Queued
  ∧ ∃ d,
      built (Scenario.construct (Scenario.fresh_deploy "rollback" true))
      = Ok d
      ∧ sha d = "abc"
      ∧ Stage (Scenario.deploy_advance
                 (Ok (<[DeployComponent_Ceramic := "abc"]> ∅)) d).1.1
        = JobStage_Skipped.
Proof.
  split; [reflexivity |].
  eexists. split; [reflexivity |]. split; [reflexivity |].
  exact (proj1
           (rollback_deploy_is_skipped
              (Ok (<[DeployComponent_Ceramic := "abc"]> ∅))
              (Ok (<[DeployComponent_Ceramic := "def"]> ∅)) (fun _ => None)
              (fun c => if String.eqb c DeployComponent_Ceramic
                        then Ok Scenario.ceramic_layout
                        else Ok Scenario.ipfs_layout)
              (fun _ _ => Ok "fed") (fun c => c) (fun env => env)
              (fun sha => (String.length sha =? 40)%nat) "latest"
              (fun _ => "dev") (fun _ _ => None) (fun _ _ => None)
              (fun _ => None) (fun _ _ => None) (fun _ => Ok true)
              (Scenario.IsTimedOut (Scenario.deploy_now + Minute)) JobId
              (Scenario.deploy_now + Minute)
              (Scenario.fresh_deploy "rollback" true) _
              eq_refl eq_refl eq_refl eq_refl)).
Defined.

End SetupRuns.

Section ManagerRuns.
Import JobManager.

(** Both settings of the anchor workers at -1. *)
Lemma NewJobManager_bounds_witness :
  NewJobManager (Scenario.environ (Some "-1") (Some "-1")) "ENV"
  = Ok (mkJobManager (-1) (-1) false "")
  ∧ minAnchorJobs (mkJobManager (-1) (-1) false "") < 0.
Proof.
  assert (NewJobManager (Scenario.environ (Some "-1") (Some "-1")) "ENV"
          = Ok (mkJobManager (-1) (-1) false "")) as Hnew
    by (vm_compute; reflexivity).
  split; [exact Hnew |].
  destruct (NewJobManager_bounds _ _ _ Hnew) as (_ & _ & _ & Hneg & _).
  apply Hneg. reflexivity.
Defined.


End ManagerRuns.

Section DispatchRuns.
Import JobManager.

(** A list with a plain deploy only: the override does nothing. *)
Lemma override_without_force_witness :
  Forall (fun js => is_force_deploy js = false) [Scenario.ipfs_plain]
  ∧ processForceDeployJobs (E := Sim.env true) [Scenario.ipfs_plain]
      (Scenario.start [Scenario.ipfs_started])
    = Done false (Scenario.start [Scenario.ipfs_started]).
Proof.
  assert (Forall (fun js => is_force_deploy js = false) [Scenario.ipfs_plain])
    as Hnone by (constructor; [reflexivity | constructor]).
  split; [exact Hnone |].
  exact (override_without_force (E := Sim.env true) [Scenario.ipfs_plain]
           (Scenario.start [Scenario.ipfs_started]) Hnone).
Defined.

(** With a deploy of Ipfs active, a dequeued anchor is not started. *)
Lemma dispatch_waits_witness :
  cache_JobsByMatcher (Env := Sim.env true)
    (world (Scenario.start [Scenario.ipfs_started]))
    (isActiveDeploy (E := Sim.env true)) ≠ []
  ∧ processAnchorJobs (E := Sim.env true) (Scenario.manager 1 0)
      [Scenario.anchor "a1" false] (Scenario.start [Scenario.ipfs_started])
    = Done false (Scenario.start [Scenario.ipfs_started]).
Proof.
  assert (cache_JobsByMatcher (Env := Sim.env true)
            (world (Scenario.start [Scenario.ipfs_started]))
            (isActiveDeploy (E := Sim.env true)) ≠ []) as Hactive
    by (vm_compute; discriminate).
  split; [exact Hactive |].
  exact (proj1 (proj1 (dispatch_waits (E := Sim.env true)
                         (Scenario.manager 1 0) [Scenario.anchor "a1" false]
                         (Scenario.start [Scenario.ipfs_started])) Hactive)).
Defined.

(** Two workflow jobs with a deploy between them: the first is started. *)
Lemma workflows_before_deploy_witness :
  cache_JobsByMatcher (Env := Sim.env true) (world (Scenario.start []))
    (isActiveDeploy (E := Sim.env true)) = []
  ∧ (∃ s',
       processWorkflowJobs (E := Sim.env true)
         [Scenario.workflow "w1"; Scenario.ipfs_plain; Scenario.workflow "w2"]
         (Scenario.start []) = Done true s'
       ∧ trace s' = [EvAdvance (Scenario.workflow "w1")])
  ∧ ∃ w,
      processWorkflowJobs (E := Sim.env true)
        [Scenario.workflow "w1"; Scenario.ipfs_plain; Scenario.workflow "w2"]
        (Scenario.start [])
      = Done
          (0 <? length
                  (filter (fun js => Typ js = JobType_Workflow)
                     (before_first is_deploy
                        [Scenario.workflow "w1"; Scenario.ipfs_plain;
                         Scenario.workflow "w2"])))%nat
          (mkSt w
             (trace (Scenario.start [])
              ++ (EvAdvance
                    <$> filter (fun js => Typ js = JobType_Workflow)
                          (before_first is_deploy
                             [Scenario.workflow "w1"; Scenario.ipfs_plain;
                              Scenario.workflow "w2"])))).
Proof.
  split; [reflexivity |].
  split; [eexists; split; vm_compute; reflexivity |].
  exact (workflows_before_deploy (E := Sim.env true)
           [Scenario.workflow "w1"; Scenario.ipfs_plain;
            Scenario.workflow "w2"] (Scenario.start []) eq_refl).
Defined.


(** A manager built with both settings at -1, and two dequeued v2
    anchors: both are started. *)
Lemma unbounded_manager_dispatch_witness :
  NewJobManager (Scenario.environ (Some "-1") (Some "-1")) "ENV"
  = Ok (mkJobManager (-1) (-1) false "")
  ∧ (∃ s',
       processVxAnchorJobs (E := Sim.env true) (mkJobManager (-1) (-1) false "")
         [Scenario.anchor "a1" false; Scenario.anchor "a2" false] false
         (Scenario.start []) = Done true s'
       ∧ trace s' = [EvAdvance (Scenario.anchor "a1" false);
                     EvAdvance (Scenario.anchor "a2" false)])
  ∧ ∃ w,
      processVxAnchorJobs (E := Sim.env true) (mkJobManager (-1) (-1) false "")
        [Scenario.anchor "a1" false; Scenario.anchor "a2" false] false
        (Scenario.start [])
      = Done
          (0 <? Z.of_nat
                  (length
                     (filter
                        (fun js =>
                           in_partition (E := Sim.env true) false js = true)
                        [Scenario.anchor "a1" false;
                         Scenario.anchor "a2" false])))
          (mkSt w
             (trace (Scenario.start [])
              ++ (EvAdvance
                    <$> filter
                          (fun js =>
                             in_partition (E := Sim.env true) false js = true)
                          [Scenario.anchor "a1" false;
                           Scenario.anchor "a2" false]))).
Proof.
  assert (NewJobManager (Scenario.environ (Some "-1") (Some "-1")) "ENV"
          = Ok (mkJobManager (-1) (-1) false "")) as Hnew
    by (vm_compute; reflexivity).
  split; [exact Hnew |].
  split; [eexists; split; vm_compute; reflexivity |].
  apply (unbounded_manager_dispatch (E := Sim.env true)
           (Scenario.environ (Some "-1") (Some "-1")) "ENV"
           (mkJobManager (-1) (-1) false "")
           [Scenario.anchor "a1" false; Scenario.anchor "a2" false]
           (Scenario.start []) Hnew eq_refl).
  - vm_compute. discriminate.
  - vm_compute. reflexivity.
Defined.

(** A paused tick with an active deploy and a queued one: the active
    deploy is advanced, and nothing else is done. *)
Lemma paused_tick_witness :
  paused (Scenario.manager 1 0) = false
  ∧ ∃ s',
      processJobs (E := Sim.env true) (Pause (Scenario.manager 1 0))
        (Scenario.start
           [Scenario.ipfs_started;
            Scenario.deploy "d5" "ipfs" false JobStage_Queued])
      = Done tt s'
      ∧ trace s' = [EvAdvance Scenario.ipfs_started].
Proof.
  split; [reflexivity |].
  destruct (paused_tick (E := Sim.env true) (Scenario.manager 1 0)
              (Scenario.start
                 [Scenario.ipfs_started;
                  Scenario.deploy "d5" "ipfs" false JobStage_Queued])
              eq_refl) as [w Hrun].
  eexists. split; [exact Hrun |]. vm_compute. reflexivity.
Defined.


(** A job of an unknown type is transitioned to Failed. *)
Lemma unpreparable_job_fails_witness :
  Typ Scenario.unknown_job = JobType_Other
  ∧ ∃ s',
      advanceJobTask (E := Sim.env true) (SM := Sim.machines)
        (Scenario.manager 1 0) Scenario.unknown_job
        (Scenario.start [Scenario.unknown_job]) = Done tt s'
      ∧ trace s'
        = [EvUpdateStage Scenario.unknown_job JobStage_Failed
             (Some "prepareJobSm: unknown job type: u1") None]
      ∧ Stage <$> Sim.jobs (world s') = [JobStage_Failed].
Proof.
  split; [reflexivity |].
  eexists. split.
  - exact (unpreparable_job_fails (E := Sim.env true) (SM := Sim.machines)
             (Scenario.manager 1 0) Scenario.unknown_job
             (Scenario.start [Scenario.unknown_job])
             "prepareJobSm: unknown job type: u1"
             (world (Scenario.start [Scenario.unknown_job]))
             (or_introl (conj eq_refl (conj eq_refl eq_refl)))).
  - split; vm_compute; reflexivity.
Defined.

(** The E2E test job without its tasks panics when it is advanced; with
    a stack of 1088 bytes the panic is contained and the job Failed. *)
Lemma panic_contained_witness :
  (1024 ≤ String.length Scenario.long_stack)%nat
  ∧ ∃ r s' w res,
      advanceJobBody (E := Sim.env true) (SM := Sim.machines)
        (Scenario.manager 1 0) Scenario.e2e_no_tasks
        (Scenario.start_long [Scenario.e2e_no_tasks]) = Panicked r s'
      ∧ advanceJobTask (E := Sim.env true) (SM := Sim.machines)
          (Scenario.manager 1 0) Scenario.e2e_no_tasks
          (Scenario.start_long [Scenario.e2e_no_tasks])
        = Done tt
            (mkSt w
               (trace s'
                ++ [EvPrintStack;
                    EvUpdateStage Scenario.e2e_no_tasks JobStage_Failed
                      (Some ("panic: "
                             +:+ String.substring 0 1024
                                   (debug_Stack (Machines := Sim.machines)
                                      (world s'))))
                      res])).
Proof.
  assert (1024 ≤ String.length Scenario.long_stack)%nat as Hlen
    by (apply Nat.leb_le; vm_compute; reflexivity).
  split; [exact Hlen |].
  assert (advanceJobBody (E := Sim.env true) (SM := Sim.machines)
            (Scenario.manager 1 0) Scenario.e2e_no_tasks
            (Scenario.start_long [Scenario.e2e_no_tasks])
          = Panicked "interface conversion: interface {} is not string"
              (Scenario.start_long [Scenario.e2e_no_tasks])) as Hbody
    by (vm_compute; reflexivity).
  destruct (panic_contained (E := Sim.env true) (SM := Sim.machines)
              (Scenario.manager 1 0) Scenario.e2e_no_tasks _ _ _ Hbody Hlen)
    as (w & res & Hrun & _).
  eexists _, _, w, res. split; [exact Hbody | exact Hrun].
Defined.

(** Three deploys of Ipfs with a deploy of Ceramic between them, the
    last after a test job: the second deploy of Ipfs is started, the first
    Skipped, and the other jobs are left alone. *)
Lemma deploys_collapse_witness :
  accepts_updates (E := Sim.env true)
  ∧ component Scenario.ipfs_plain = Some "ipfs"
  ∧ (∃ s',
       processDeployJobs (E := Sim.env true)
         (Scenario.ipfs_plain
          :: [Scenario.deploy "d6" "ceramic" false JobStage_Dequeued;
              Scenario.deploy "d7" "ipfs" false JobStage_Dequeued;
              Scenario.test "t1" JobType_TestE2E;
              Scenario.deploy "d8" "ipfs" false JobStage_Dequeued])
         (Scenario.start []) = Done true s'
       ∧ trace s'
         = [skipped Scenario.ipfs_plain;
            EvAdvance (Scenario.deploy "d7" "ipfs" false JobStage_Dequeued)])
  ∧ ∃ earlier final,
      Scenario.ipfs_plain
      :: deploys_of "ipfs"
           [Scenario.deploy "d6" "ceramic" false JobStage_Dequeued;
            Scenario.deploy "d7" "ipfs" false JobStage_Dequeued;
            Scenario.test "t1" JobType_TestE2E;
            Scenario.deploy "d8" "ipfs" false JobStage_Dequeued]
      = earlier ++ [final].
Proof.
  split; [exact Sim_accepts_updates |]. split; [reflexivity |].
  split; [eexists; split; vm_compute; reflexivity |].
  assert (Forall (fun js => Typ js = JobType_Deploy → is_Some (component js))
            (before_first is_test
               [Scenario.deploy "d6" "ceramic" false JobStage_Dequeued;
                Scenario.deploy "d7" "ipfs" false JobStage_Dequeued;
                Scenario.test "t1" JobType_TestE2E;
                Scenario.deploy "d8" "ipfs" false JobStage_Dequeued]))
    as Hwf.
  { apply (bool_decide_unpack _). vm_compute. exact I. }
  destruct (deploys_collapse (E := Sim.env true) Scenario.ipfs_plain
              [Scenario.deploy "d6" "ceramic" false JobStage_Dequeued;
               Scenario.deploy "d7" "ipfs" false JobStage_Dequeued;
               Scenario.test "t1" JobType_TestE2E;
               Scenario.deploy "d8" "ipfs" false JobStage_Dequeued]
              "ipfs" (Scenario.start []) Sim_accepts_updates eq_refl eq_refl
              Hwf)
    as (earlier & final & _ & Hchain & _).
  exists earlier, final. exact Hchain.
Defined.

(** Two E2E test jobs with a smoke test job between them: the first E2E
    test job is Skipped, and the other two jobs are started. *)
Lemma tests_collapse_witness :
  accepts_updates (E := Sim.env true)
  ∧ (∃ s' first second,
       processTestJobs (E := Sim.env true)
         [Scenario.test "t1" JobType_TestE2E;
          Scenario.test "t2" JobType_TestSmoke;
          Scenario.test "t3" JobType_TestE2E]
         (Scenario.start []) = Done true s'
       ∧ trace s'
         = [skipped (Scenario.test "t1" JobType_TestE2E);
            EvAdvance first; EvAdvance second])
  ∧ ∃ kept : gmap JobType JobState,
      ∀ t, kept !! t
           = last (tests_of t
                     [Scenario.test "t1" JobType_TestE2E;
                      Scenario.test "t2" JobType_TestSmoke;
                      Scenario.test "t3" JobType_TestE2E]).
Proof.
  split; [exact Sim_accepts_updates |].
  split; [eexists _, _, _; split; vm_compute; reflexivity |].
  destruct (tests_collapse (E := Sim.env true)
              [Scenario.test "t1" JobType_TestE2E;
               Scenario.test "t2" JobType_TestSmoke;
               Scenario.test "t3" JobType_TestE2E]
              (Scenario.start []) Sim_accepts_updates eq_refl)
    as (_ & _ & kept & _ & Hkept & _).
  exists kept. exact Hkept.
Defined.

End DispatchRuns.
